(** * cecurepay-api: ledger routes and provider reconciliation

    A shallow embedding of the money-moving parts of the API:
    - the Mongoose models ([models/User.js], [models/Transaction.js],
      [models/TransactionPin.js], [models/Beneficiary.js], [models/Card.js]);
    - the ledger router ([routes/transactions.js]: transfer, bank-transfer,
      withdraw, deposit, confirm-deposit);
    - the bank-transfer deposit router (initiate, cancel, confirm);
    - the Paystack router in its latest revision (withdraw, charge-card,
      callback, transfer, webhook and the four webhook handlers);
    - the Stripe router's confirm-payment;
    - the transaction-PIN route of [routes/users.js];
    - the card routes: those written for [models/Card.js] (list, add,
      deactivate) and the deactivation of a saved card;
    - the auth router ([routes/auth.js]) with [middleware/auth.js] and the
      hooks of [models/User.js];
    - the Paystack router's initialize;
    - the search route of [routes/transactions.js].

    Modelling conventions.
    - A JavaScript number is the rational it denotes ([Q]), infinities and
      NaN left out; they appear only as what a string may convert to
      ([Payments.Numeric]).  Where the result of an operation decides a branch or is
      turned into text (the balance check of the ledger routes, the
      identifiers the user schema generates), the operation is rounded as
      binary64 rounds it ([Binary64.round64]); a result that is only stored
      is written with the exact operation the code applies, and the number
      stored is that value up to the rounding of binary64.
    - A collection is a finite map from the document key to the document:
      users by [_id], transaction PINs by [userId] (unique), transactions by
      [reference] (unique index), cards by [_id].  Documents are never
      deleted by any route.
    - [doc.save()] runs the schema validators of the whole document and
      rejects (throws) when one fails; [findOneAndUpdate] runs none.
    - A route is a function from the store to a response and a store.  The
      routes of [routes/transactions.js] run inside a Mongo session: on any
      throw the session is aborted and the store is the one before the
      request.  The other routes save document by document: what was saved
      before a throw stays saved.
    - Values produced outside the program (uuid, bcrypt salt, provider
      responses, random draws, new document ids, the clock) are arguments of
      the route.
    - A member of a request has the JSON type the route expects: an amount
      is a number, or for the ledger routes, which pass it through
      [parseFloat], the text of one.  The provider-backed transfer, which
      applies [+=] to the amount as it was sent, takes it as a JSON number
      or a JSON string ([Payments.Amount]).  The members of a webhook event
      have the provider's types; that assumption is the predicate
      [Webhook.wellTyped], and a theorem that needs it has it as a
      hypothesis.  An id received in a request is a well-formed ObjectId,
      and a string is a sequence of one-byte characters. *)

From Stdlib Require Import QArith Qpower Qround Qabs Lqa Ascii String Sorted.
From Stdlib Require SpecFloat.
From stdpp Require Import base option list gmap strings pretty.

Open Scope string_scope.

(** ** JavaScript numbers: rounding to binary64 *)

Module Binary64.
#[local] Open Scope Q_scope.

(** The position of the leading bit of a positive rational [x]: the [e]
    with [2^e <= x < 2^(e+1)]. *)
Definition exponent (x : Q) : Z :=
  let e := (Z.log2 (Qnum x) - Z.log2 (Zpos (Qden x)))%Z in
  if Qle_bool (2 ^ e) x then e else (e - 1)%Z.

(** The weight of the last of the 53 significant bits of the binary64
    numbers around [x]; it is never below 2^-1074 (subnormal numbers). *)
Definition ulpExponent (x : Q) : Z :=
  Z.max (exponent (Qabs x) - 52) (-1074).

(** The nearest integer, a tie going to the even one. *)
Definition roundHalfEven (x : Q) : Z :=
  let f := Qfloor x in
  match Qcompare (x - inject_Z f) (1 # 2) with
  | Lt => f
  | Gt => (f + 1)%Z
  | Eq => if Z.even f then f else (f + 1)%Z
  end.

(** The binary64 number nearest to [x] (round to nearest, ties to even), as
    the rational it is.  Overflow is left out: the result is the one of a
    format without a largest exponent, which is the binary64 result for
    every [x] below 2^1024 in magnitude. *)
Definition round64 (x : Q) : Q :=
  let q := ulpExponent x in
  Qred (inject_Z (roundHalfEven (x / 2 ^ q)) * 2 ^ q).

(** [x + y] on numbers, as binary64 computes it. *)
Definition add (x y : Q) : Q := round64 (x + y).

(** The same operations as the library's specification of floating-point
    arithmetic computes them ([SpecFloat], precision 53 and largest exponent
    1024), to compare with. *)
Definition ofZ (n : Z) : SpecFloat.spec_float :=
  SpecFloat.binary_normalize 53 1024 n 0 false.

Definition toQ (f : SpecFloat.spec_float) : Q :=
  match f with
  | SpecFloat.S754_finite s m e =>
    Qred ((if s then - inject_Z (Zpos m) else inject_Z (Zpos m)) * 2 ^ e)
  | _ => 0
  end.

Definition SFadd := SpecFloat.SFadd 53 1024.
Definition SFmul := SpecFloat.SFmul 53 1024.
Definition SFdiv := SpecFloat.SFdiv 53 1024.

(** The binary64 number nearest to [n / d], two whole numbers that are
    binary64 numbers themselves. *)
Definition literal (n d : Z) : SpecFloat.spec_float :=
  SFdiv (ofZ n) (ofZ d).

End Binary64.

(** ** JavaScript helpers *)

(** [x < y] on numbers. *)
Definition Qlt_bool (x y : Q) : bool := negb (Qle_bool y x).

(** [!x] for a number that is present: only zero is falsy. *)
Definition falsy_number (x : Q) : bool := Qeq_bool x 0.

(** [!s] for a string: only the empty string is falsy. *)
Definition falsy_string (s : string) : bool := String.eqb s "".

(** [!x] for an optional string ([undefined] is falsy). *)
Definition falsy (x : option string) : bool :=
  match x with
  | None => true
  | Some s => falsy_string s
  end.

(** [x || d] for an optional string. *)
Definition or_else (x : option string) (d : string) : string :=
  match x with
  | Some s => if falsy_string s then d else s
  | None => d
  end.

(** ** External primitive: [bcryptjs] *)

Class Bcrypt := {
  (** [bcrypt.hash(data, salt)] *)
  bcrypt_hash : string -> string -> string;
  (** [bcrypt.compare(candidate, hash)] *)
  bcrypt_compare : string -> string -> bool
}.

(** ** Models *)

Module User.
(** [models/User.js]; the document's [_id] is its key in the collection. *)
Record t := {
  firstName : string;
  lastName : string;
  email : string;
  cecureTag : string;
  balance : Q;
  paystackCustomerCode : option string;
  paystackVirtualAccountNumber : option string;
  paystackTransferRecipientCode : option string
}.

Definition set_balance (b : Q) (u : t) : t :=
  {| firstName := firstName u; lastName := lastName u; email := email u;
     cecureTag := cecureTag u; balance := b;
     paystackCustomerCode := paystackCustomerCode u;
     paystackVirtualAccountNumber := paystackVirtualAccountNumber u;
     paystackTransferRecipientCode := paystackTransferRecipientCode u |}.

Definition set_paystackTransferRecipientCode (c : option string) (u : t) : t :=
  {| firstName := firstName u; lastName := lastName u; email := email u;
     cecureTag := cecureTag u; balance := balance u;
     paystackCustomerCode := paystackCustomerCode u;
     paystackVirtualAccountNumber := paystackVirtualAccountNumber u;
     paystackTransferRecipientCode := c |}.

(** [`${u.firstName} ${u.lastName}`] *)
Definition fullName (u : t) : string := firstName u +:+ " " +:+ lastName u.
End User.

Module Transaction.
(** The strings the routes assign to [transactionType]. *)
Inductive kind := send | receive | deposit | withdraw | wishlist | withdrawal.

(** The strings the routes assign to [status]. *)
Inductive state := pending | successful | failed | declined | reversed | cancelled.

(** [models/Transaction.js]; [reference] (required, unique) is the
    document's key in the collection, [createdAt] is left out. *)
Record t := {
  userId : string;
  transactionType : kind;
  amount : Q;
  fee : Q;
  status : state;
  recipientId : option string;
  recipientName : option string;
  recipientCecureTag : option string;
  recipientBank : option string;
  recipientAccount : option string;
  purpose : option string;
  stripePaymentIntentId : option string
}.

Definition set_status (s : state) (x : t) : t :=
  {| userId := userId x; transactionType := transactionType x;
     amount := amount x; fee := fee x; status := s;
     recipientId := recipientId x; recipientName := recipientName x;
     recipientCecureTag := recipientCecureTag x;
     recipientBank := recipientBank x;
     recipientAccount := recipientAccount x; purpose := purpose x;
     stripePaymentIntentId := stripePaymentIntentId x |}.

(** [enum: ["send", "receive", "deposit", "withdraw", "wishlist"]] *)
Definition transactionType_enum (k : kind) : bool :=
  match k with
  | send | receive | deposit | withdraw | wishlist => true
  | withdrawal => false
  end.

(** [enum: ["pending", "successful", "failed", "declined"]] *)
Definition status_enum (s : state) : bool :=
  match s with
  | pending | successful | failed | declined => true
  | reversed | cancelled => false
  end.

(** The validators [save] runs: the two enums and [reference] required
    (Mongoose's [required] rejects the empty string). *)
Definition validate (reference : string) (x : t) : bool :=
  transactionType_enum (transactionType x)
  && status_enum (status x)
  && negb (falsy_string reference).

Definition state_eqb (a b : state) : bool :=
  match a, b with
  | pending, pending | successful, successful | failed, failed
  | declined, declined | reversed, reversed | cancelled, cancelled => true
  | _, _ => false
  end.

Definition kind_eqb (a b : kind) : bool :=
  match a, b with
  | send, send | receive, receive | deposit, deposit
  | withdraw, withdraw | wishlist, wishlist | withdrawal, withdrawal => true
  | _, _ => false
  end.
End Transaction.

Module TransactionPin.
(** [models/TransactionPin.js]; [userId] (unique) is the key. *)
Record t := { pinHash : string }.
End TransactionPin.

Module Beneficiary.
Inductive transferKind := bank | cecure.

Record t := {
  userId : string;
  recipientName : option string;
  bankName : option string;
  accountNumber : option string;
  transferType : transferKind
}.

(** [recipientName] is required. *)
Definition validate (b : t) : bool := negb (falsy (recipientName b)).
End Beneficiary.

Module Card.
(** [models/Card.js], the fields the charge route reads. *)
Record t := {
  userId : string;
  paystackAuthCode : string;
  isActive : bool
}.
End Card.

(** ** The database *)

Record Store := {
  users : gmap string User.t;
  transactions : gmap string Transaction.t;
  transactionpins : gmap string TransactionPin.t;
  beneficiaries : list Beneficiary.t;
  cards : gmap string Card.t
}.

Definition with_users (us : gmap string User.t) (st : Store) : Store :=
  {| users := us; transactions := transactions st;
     transactionpins := transactionpins st;
     beneficiaries := beneficiaries st; cards := cards st |}.

Definition with_transactions (ts : gmap string Transaction.t) (st : Store) : Store :=
  {| users := users st; transactions := ts;
     transactionpins := transactionpins st;
     beneficiaries := beneficiaries st; cards := cards st |}.

Definition with_transactionpins (ps : gmap string TransactionPin.t) (st : Store) : Store :=
  {| users := users st; transactions := transactions st;
     transactionpins := ps;
     beneficiaries := beneficiaries st; cards := cards st |}.

Definition with_beneficiaries (bs : list Beneficiary.t) (st : Store) : Store :=
  {| users := users st; transactions := transactions st;
     transactionpins := transactionpins st;
     beneficiaries := bs; cards := cards st |}.

(** [User.findById(id)] *)
Definition User_findById (id : string) (st : Store) : option User.t :=
  users st !! id.

(** [user.balance = b; await user.save()]: Mongoose writes the modified path
    of the document with that [_id]. *)
Definition User_save_balance (id : string) (b : Q) (st : Store) : Store :=
  with_users (alter (User.set_balance b) id (users st)) st.

(** [user.paystackTransferRecipientCode = c; await user.save()] *)
Definition User_save_recipientCode (id : string) (c : string) (st : Store) : Store :=
  with_users (alter (User.set_paystackTransferRecipientCode (Some c)) id (users st)) st.

(** [Transaction.findOne({ reference })]; [undefined] matches no document. *)
Definition Transaction_findOne (reference : option string) (st : Store)
  : option Transaction.t :=
  match reference with
  | Some r => transactions st !! r
  | None => None
  end.

(** [await new Transaction({ ..., reference }).save()]: rejected by a failed
    validator or by the unique index on [reference]. *)
Definition Transaction_create (reference : option string) (x : Transaction.t)
    (st : Store) : option Store :=
  match reference with
  | Some r =>
      if Transaction.validate r x then
        match transactions st !! r with
        | Some _ => None
        | None => Some (with_transactions (<[r := x]> (transactions st)) st)
        end
      else None
  | None => None
  end.

(** [transaction.status = s; await transaction.save()] on a document found
    under [reference]. *)
Definition Transaction_save_status (reference : string) (x : Transaction.t)
    (s : Transaction.state) (st : Store) : option Store :=
  if Transaction.validate reference (Transaction.set_status s x) then
    Some (with_transactions
            (alter (Transaction.set_status s) reference (transactions st)) st)
  else None.

(** [Transaction.findOneAndUpdate({ reference }, { status: s })]: no
    validators run. *)
Definition Transaction_findOneAndUpdate_status (reference : option string)
    (s : Transaction.state) (st : Store) : Store :=
  match reference with
  | Some r =>
      with_transactions (alter (Transaction.set_status s) r (transactions st)) st
  | None => st
  end.

(** [await new Beneficiary({...}).save()] *)
Definition Beneficiary_create (b : Beneficiary.t) (st : Store) : option Store :=
  if Beneficiary.validate b then
    Some (with_beneficiaries (beneficiaries st ++ [b]) st)
  else None.

(** The balance of an account, if the account exists. *)
Definition balanceOf (st : Store) (id : string) : option Q :=
  User.balance <$> users st !! id.

(** The status of the record under a reference, if there is one. *)
Definition statusOf (st : Store) (reference : string) : option Transaction.state :=
  Transaction.status <$> transactions st !! reference.

(** ** Responses *)

(** The pages of the app the payment callback redirects to, under
    [process.env.APP_URL], with the values it puts in the query. *)
Inductive Page :=
| deposit_success (reference : string) (amount : Q)
    (* `/deposit-success?reference=${reference}&amount=${amountInNaira}` *)
| deposit_failed (reference : string)
    (* `/deposit-failed?reference=${reference}` *)
| deposit_failed_error.
    (* `/deposit-failed?error=server_error` *)

Inductive Response :=
| res_ok (reference : string)              (* res.json({ success: true, reference }) *)
| res_json (status : nat) (message : string) (* res.status(s).json({ message }) *)
| res_errors                               (* res.status(400).json({ errors }) *)
| res_send (status : nat) (text : string)  (* res.status(s).send(text) *)
| res_redirect (page : Page).              (* res.redirect(`${APP_URL}${page}`) *)

(** ** [routes/transactions.js]: the ledger routes *)

Module Ledger.

(** [req.body.bankDetails] *)
Record BankDetails := {
  accountName : option string;
  bankName : option string;
  accountNumber : option string;
  saveBeneficiary : bool
}.

Section routes.
Context `{Bcrypt}.

(** [TransactionPinSchema.methods.comparePin] *)
Definition comparePin (p : TransactionPin.t) (candidatePin : string) : bool :=
  bcrypt_compare candidatePin (TransactionPin.pinHash p).

(** [const fee = 25] *)
Definition fee : Q := 25.

(** End of the session: [commitTransaction] and the success response, or
    [abortTransaction] in the [catch] and the store as it was. *)
Definition commit (reference : string) (st : Store) (r : option Store)
  : Response * Store :=
  match r with
  | Some st' => (res_ok reference, st')
  | None => (res_send 500 "Server error", st)
  end.

Definition senderTransaction (uid recipientId : string) (recipient : User.t)
    (amount : Q) (purpose : string) : Transaction.t :=
  {| Transaction.userId := uid;
     Transaction.transactionType := Transaction.send;
     Transaction.amount := amount;
     Transaction.fee := fee;
     Transaction.status := Transaction.successful;
     Transaction.recipientId := Some recipientId;
     Transaction.recipientName := Some (User.fullName recipient);
     Transaction.recipientCecureTag := Some (User.cecureTag recipient);
     Transaction.recipientBank := None;
     Transaction.recipientAccount := None;
     Transaction.purpose := Some purpose;
     Transaction.stripePaymentIntentId := None |}.

Definition recipientTransaction (uid recipientId : string) (sender : User.t)
    (amount : Q) (purpose : string) : Transaction.t :=
  {| Transaction.userId := recipientId;
     Transaction.transactionType := Transaction.receive;
     Transaction.amount := amount;
     Transaction.fee := 0;
     Transaction.status := Transaction.successful;
     Transaction.recipientId := Some uid;
     Transaction.recipientName := Some (User.fullName sender);
     Transaction.recipientCecureTag := None;
     Transaction.recipientBank := None;
     Transaction.recipientAccount := None;
     Transaction.purpose := Some purpose;
     Transaction.stripePaymentIntentId := None |}.

(** [POST api/transactions/transfer]; [uid] is [req.user.id], [amount] is
    [Number.parseFloat(amount)] and [uuid] is [uuidv4()]. *)
Definition transfer (uid : string) (recipientId : option string)
    (amount : option Q) (pin purpose : option string) (uuid : string)
    (st : Store) : Response * Store :=
  match recipientId, amount, pin, purpose with
  | Some recipientId, Some amount, Some pin, Some purpose =>
    if falsy_string recipientId || falsy_string pin || falsy_string purpose
    then (res_errors, st)
    else
      match transactionpins st !! uid with
      | None => (res_json 400 "Transaction PIN not set", st)
      | Some transactionPin =>
        if negb (comparePin transactionPin pin)
        then (res_json 400 "Invalid transaction PIN", st)
        else
          match User_findById uid st with
          | None => (res_json 404 "Sender not found", st)
          | Some sender =>
            if Qlt_bool (User.balance sender) (Binary64.add amount fee)
            then (res_json 400 "Insufficient balance", st)
            else
              match User_findById recipientId st with
              | None => (res_json 404 "Recipient not found", st)
              | Some recipient =>
                let reference := "TRX-" +:+ String.substring 0 8 uuid in
                let st1 :=
                  User_save_balance uid
                    (User.balance sender - Binary64.add amount fee) st in
                let st2 :=
                  User_save_balance recipientId
                    (User.balance recipient + amount) st1 in
                commit reference st
                  (st3 ← Transaction_create (Some reference)
                           (senderTransaction uid recipientId recipient
                              amount purpose) st2;
                   Transaction_create (Some (reference +:+ "-RCV"))
                     (recipientTransaction uid recipientId sender
                        amount purpose) st3)
              end
          end
      end
  | _, _, _, _ => (res_errors, st)
  end.

Definition bankTransaction (k : Transaction.kind) (uid : string)
    (amount : Q) (bankDetails : BankDetails) (purpose : string)
  : Transaction.t :=
  {| Transaction.userId := uid;
     Transaction.transactionType := k;
     Transaction.amount := amount;
     Transaction.fee := fee;
     Transaction.status := Transaction.successful;
     Transaction.recipientId := None;
     Transaction.recipientName := accountName bankDetails;
     Transaction.recipientCecureTag := None;
     Transaction.recipientBank := bankName bankDetails;
     Transaction.recipientAccount := accountNumber bankDetails;
     Transaction.purpose := Some purpose;
     Transaction.stripePaymentIntentId := None |}.

Definition beneficiaryOf (uid : string) (bankDetails : BankDetails)
  : Beneficiary.t :=
  {| Beneficiary.userId := uid;
     Beneficiary.recipientName := accountName bankDetails;
     Beneficiary.bankName := bankName bankDetails;
     Beneficiary.accountNumber := accountNumber bankDetails;
     Beneficiary.transferType := Beneficiary.bank |}.

(** The body shared by bank-transfer and withdraw, which differ in the
    record's type and purpose and in the reference prefix. *)
Definition debitToBank (k : Transaction.kind) (purpose prefix : string)
    (uid : string) (bankDetails : option BankDetails) (amount : option Q)
    (pin : option string) (uuid : string) (st : Store)
  : Response * Store :=
  match bankDetails, amount, pin with
  | Some bankDetails, Some amount, Some pin =>
    if falsy_string pin then (res_errors, st)
    else
      match transactionpins st !! uid with
      | None => (res_json 400 "Transaction PIN not set", st)
      | Some transactionPin =>
        if negb (comparePin transactionPin pin)
        then (res_json 400 "Invalid transaction PIN", st)
        else
          match User_findById uid st with
          | None => (res_json 404 "User not found", st)
          | Some user =>
            if Qlt_bool (User.balance user) (Binary64.add amount fee)
            then (res_json 400 "Insufficient balance", st)
            else
              let reference := prefix +:+ String.substring 0 8 uuid in
              let st1 :=
                User_save_balance uid
                  (User.balance user - Binary64.add amount fee) st in
              commit reference st
                (st2 ← Transaction_create (Some reference)
                         (bankTransaction k uid amount bankDetails purpose)
                         st1;
                 if saveBeneficiary bankDetails
                 then Beneficiary_create (beneficiaryOf uid bankDetails) st2
                 else Some st2)
          end
      end
  | _, _, _ => (res_errors, st)
  end.

(** [POST api/transactions/bank-transfer] *)
Definition bankTransfer :=
  debitToBank Transaction.send "Bank Transfer" "BNK-".

(** [POST api/transactions/withdraw] *)
Definition withdraw :=
  debitToBank Transaction.withdraw "Withdrawal" "WTH-".
End routes.

Definition depositTransaction (uid : string) (amount : Q) (purpose : string)
  : Transaction.t :=
  {| Transaction.userId := uid;
     Transaction.transactionType := Transaction.deposit;
     Transaction.amount := amount;
     Transaction.fee := 0;
     Transaction.status := Transaction.successful;
     Transaction.recipientId := None;
     Transaction.recipientName := None;
     Transaction.recipientCecureTag := None;
     Transaction.recipientBank := None;
     Transaction.recipientAccount := None;
     Transaction.purpose := Some purpose;
     Transaction.stripePaymentIntentId := None |}.

(** [POST api/transactions/deposit] *)
Definition deposit (uid : string) (amount : option Q) (method : option string)
    (uuid : string) (st : Store) : Response * Store :=
  match amount, method with
  | Some amount, Some method =>
    if falsy_string method then (res_errors, st)
    else
      match User_findById uid st with
      | None => (res_json 404 "User not found", st)
      | Some user =>
        let reference := "DEP-" +:+ String.substring 0 8 uuid in
        let st1 := User_save_balance uid (User.balance user + amount) st in
        match Transaction_create (Some reference)
                (depositTransaction uid amount ("Deposit via " +:+ method))
                st1 with
        | Some st' => (res_ok reference, st')
        | None => (res_send 500 "Server error", st)
        end
      end
  | _, _ => (res_errors, st)
  end.

(** [POST api/transactions/confirm-deposit] *)
Definition confirmDeposit (uid : string) (reference : option string)
    (amount : option Q) (st : Store) : Response * Store :=
  match reference, amount with
  | Some reference, Some amount =>
    if falsy_string reference then (res_errors, st)
    else
      match User_findById uid st with
      | None => (res_json 404 "User not found", st)
      | Some user =>
        match Transaction_findOne (Some reference) st with
        | Some _ => (res_json 400 "Transaction already processed", st)
        | None =>
          let st1 := User_save_balance uid (User.balance user + amount) st in
          match Transaction_create (Some reference)
                  (depositTransaction uid amount "Deposit via Paystack")
                  st1 with
          | Some st' => (res_ok reference, st')
          | None => (res_send 500 "Server error", st)
          end
        end
      end
  | _, _ => (res_errors, st)
  end.

End Ledger.

(** ** The bank-transfer deposit routes (initiate, cancel, confirm) *)

Module BankDeposit.

Definition pendingDeposit (uid : string) (amount : Q) : Transaction.t :=
  {| Transaction.userId := uid;
     Transaction.transactionType := Transaction.deposit;
     Transaction.amount := amount;
     Transaction.fee := 0;
     Transaction.status := Transaction.pending;
     Transaction.recipientId := None;
     Transaction.recipientName := None;
     Transaction.recipientCecureTag := None;
     Transaction.recipientBank := None;
     Transaction.recipientAccount := None;
     Transaction.purpose := Some "Bank Transfer Deposit";
     Transaction.stripePaymentIntentId := None |}.

(** [POST api/payments/bank-transfer/initiate] *)
Definition initiate (uid : string) (amount : option Q)
    (reference : option string) (st : Store) : Response * Store :=
  match amount with
  | None => (res_json 400 "Valid amount is required", st)
  | Some amount =>
    if falsy_number amount || Qle_bool amount 0
    then (res_json 400 "Valid amount is required", st)
    else if falsy reference then (res_json 400 "Reference is required", st)
    else
      match User_findById uid st with
      | None => (res_json 404 "User not found", st)
      | Some user =>
        match Transaction_create reference (pendingDeposit uid amount) st with
        | Some st' => (res_ok (or_else reference ""), st')
        | None => (res_json 500 "Server error", st)
        end
      end
  end.

(** [Transaction.findOne({ reference, userId, transactionType: "deposit",
    status: "pending" })] and its variant without [userId]. *)
Definition findPendingDeposit (reference : string) (owner : option string)
    (st : Store) : option Transaction.t :=
  match transactions st !! reference with
  | Some x =>
    if Transaction.kind_eqb (Transaction.transactionType x) Transaction.deposit
       && Transaction.state_eqb (Transaction.status x) Transaction.pending
       && match owner with
          | Some uid => String.eqb (Transaction.userId x) uid
          | None => true
          end
    then Some x else None
  | None => None
  end.

(** [POST api/payments/bank-transfer/cancel] *)
Definition cancel (uid : string) (reference : option string) (st : Store)
  : Response * Store :=
  match reference with
  | None => (res_json 400 "Reference is required", st)
  | Some reference =>
    if falsy_string reference then (res_json 400 "Reference is required", st)
    else
      match findPendingDeposit reference (Some uid) st with
      | None => (res_json 404 "Transaction not found", st)
      | Some transaction =>
        match Transaction_save_status reference transaction
                Transaction.cancelled st with
        | Some st' => (res_json 200 "Bank transfer deposit cancelled", st')
        | None => (res_json 500 "Server error", st)
        end
      end
  end.

(** [POST api/payments/bank-transfer/confirm] *)
Definition confirm (reference : option string) (st : Store)
  : Response * Store :=
  match reference with
  | None => (res_json 400 "Reference is required", st)
  | Some reference =>
    if falsy_string reference then (res_json 400 "Reference is required", st)
    else
      match findPendingDeposit reference None st with
      | None => (res_json 404 "Transaction not found", st)
      | Some transaction =>
        match User_findById (Transaction.userId transaction) st with
        | None => (res_json 404 "User not found", st)
        | Some user =>
          match Transaction_save_status reference transaction
                  Transaction.successful st with
          | None => (res_json 500 "Server error", st)
          | Some st1 =>
            (res_json 200 "Bank transfer deposit confirmed",
             User_save_balance (Transaction.userId transaction)
               (User.balance user + Transaction.amount transaction) st1)
          end
        end
      end
  end.

End BankDeposit.

(** ** [routes/users.js]: setting and verifying the transaction PIN *)

Module Users.
Section routes.
Context `{Bcrypt}.

(** express-validator's [isLength({ min: 4, max: 6 })] *)
Definition pinLengthOk (pin : option string) : bool :=
  match pin with
  | Some p => (4 <=? String.length p)%nat && (String.length p <=? 6)%nat
  | None => false
  end.

(** [TransactionPinSchema.pre("save")]: the hash is taken only when
    [pinHash] is modified, that is when the assigned string differs from
    the loaded one (always, for a new document). *)
Definition preSave (loaded : option TransactionPin.t) (assigned salt : string)
  : TransactionPin.t :=
  match loaded with
  | Some old =>
    if String.eqb (TransactionPin.pinHash old) assigned then old
    else {| TransactionPin.pinHash := bcrypt_hash assigned salt |}
  | None => {| TransactionPin.pinHash := bcrypt_hash assigned salt |}
  end.

(** [POST api/users/transaction-pin]; [salt] is [bcrypt.genSalt(10)]. *)
Definition setTransactionPin (uid : string) (pin : option string)
    (salt : string) (st : Store) : Response * Store :=
  if pinLengthOk pin then
    match pin with
    | Some pin =>
      (res_json 200 "Transaction PIN set successfully",
       with_transactionpins
         (<[uid := preSave (transactionpins st !! uid) pin salt]>
            (transactionpins st)) st)
    | None => (res_errors, st)
    end
  else (res_errors, st).

(** [POST api/users/verify-pin]: [None] stands for the 404 response,
    [Some b] for [{ success: b }]. *)
Definition verifyPin (uid : string) (pin : string) (st : Store) : option bool :=
  match transactionpins st !! uid with
  | None => None
  | Some transactionPin =>
    Some (bcrypt_compare pin (TransactionPin.pinHash transactionPin))
  end.
End routes.
End Users.

(** ** The Paystack router *)

(** What [paystackRequest] gives back: it throws on a transport or HTTP
    error, otherwise it returns the provider's [{ status, data }]. *)
Inductive Paystack (A : Type) :=
| threw
| returned (status : bool) (data : A).
Arguments threw {A}.
Arguments returned {A} status data.

Module Payments.

Definition record (uid : string) (k : Transaction.kind) (amount : Q)
    (s : Transaction.state) (purpose : string) (recipientId : option string)
    (recipientName : option string) : Transaction.t :=
  {| Transaction.userId := uid;
     Transaction.transactionType := k;
     Transaction.amount := amount;
     Transaction.fee := 0;
     Transaction.status := s;
     Transaction.recipientId := recipientId;
     Transaction.recipientName := recipientName;
     Transaction.recipientCecureTag := None;
     Transaction.recipientBank := None;
     Transaction.recipientAccount := None;
     Transaction.purpose := Some purpose;
     Transaction.stripePaymentIntentId := None |}.

(** [POST api/payments/withdraw].  [recipientResponse] and
    [transferResponse] answer the two provider calls; their data are
    [recipient_code] and [transfer_code]. *)
Definition withdraw (uid : string) (amount : option Q)
    (bank_code account_number account_name narration : option string)
    (recipientResponse transferResponse : Paystack (option string))
    (st : Store) : Response * Store :=
  match amount with
  | None =>
    (res_json 400 "Amount, bank code, account number, and account name are required", st)
  | Some amount =>
    if falsy_number amount || falsy bank_code || falsy account_number
       || falsy account_name
    then (res_json 400 "Amount, bank code, account number, and account name are required", st)
    else
      match User_findById uid st with
      | None => (res_json 404 "User not found", st)
      | Some user =>
        if Qlt_bool (User.balance user) amount
        then (res_json 400 "Insufficient balance", st)
        else
          match recipientResponse with
          | threw => (res_json 500 "Server error processing withdrawal", st)
          | returned false _ =>
            (res_json 400 "Failed to create transfer recipient", st)
          | returned true _ =>
            match transferResponse with
            | threw => (res_json 500 "Server error processing withdrawal", st)
            | returned false _ =>
              (res_json 400 "Failed to initiate transfer", st)
            | returned true transfer_code =>
              let st1 :=
                User_save_balance uid (User.balance user - amount) st in
              match Transaction_create transfer_code
                      (record uid Transaction.withdrawal amount
                         Transaction.pending (or_else narration "Withdrawal")
                         None account_name) st1 with
              | Some st2 => (res_ok (or_else transfer_code ""), st2)
              | None =>
                (res_json 500 "Server error processing withdrawal", st1)
              end
            end
          end
      end
  end.

(** [Card.findOne({ _id: cardId, userId, isActive: true })] *)
Definition Card_findActive (cardId uid : string) (st : Store) : option Card.t :=
  match cards st !! cardId with
  | Some c =>
    if String.eqb (Card.userId c) uid && Card.isActive c then Some c else None
  | None => None
  end.

(** [POST api/payments/charge-card]; the data of [chargeResponse] is the
    provider's [reference]. *)
Definition chargeCard (uid : string) (amount : option Q)
    (email cardId : option string)
    (chargeResponse : Paystack (option string)) (st : Store)
  : Response * Store :=
  match amount with
  | None => (res_json 400 "Valid amount is required", st)
  | Some amount =>
    if falsy_number amount || Qle_bool amount 0
    then (res_json 400 "Valid amount is required", st)
    else if falsy email then (res_json 400 "Email is required", st)
    else
      match cardId with
      | None => (res_json 400 "Card ID is required", st)
      | Some cardId =>
        if falsy_string cardId then (res_json 400 "Card ID is required", st)
        else
          match Card_findActive cardId uid st with
          | None => (res_json 404 "Card not found", st)
          | Some card =>
            match chargeResponse with
            | threw => (res_json 500 "Server error", st)
            | returned false _ => (res_json 400 "Payment failed", st)
            | returned true reference =>
              match User_findById uid st with
              | None => (res_json 404 "User not found", st)
              | Some user =>
                let st1 :=
                  User_save_balance uid (User.balance user + amount) st in
                match Transaction_create reference
                        (record uid Transaction.deposit amount
                           Transaction.successful "Deposit via saved card"
                           None None) st1 with
                | Some st2 => (res_ok (or_else reference ""), st2)
                | None => (res_json 500 "Server error", st1)
                end
              end
            end
          end
      end
  end.

(** The data of the provider's answer to [/transaction/verify/:reference]. *)
Record Verification := {
  v_status : string;
  v_amount : Q;
  v_userId : option string
}.

(** [GET api/payments/callback]; [reference] is [req.query.reference]. *)
Definition callback (reference : option string)
    (paystackResponse : Paystack Verification) (st : Store)
  : Response * Store :=
  match reference with
  | None => (res_json 400 "Payment reference is required", st)
  | Some r =>
    if falsy_string r then (res_json 400 "Payment reference is required", st)
    else
      match paystackResponse with
      | threw => (res_redirect deposit_failed_error, st)
      | returned _ data =>
        if String.eqb (v_status data) "success" then
          let amountInNaira := (v_amount data / 100)%Q in
          match v_userId data ≫= λ userId, User_findById userId st with
          | None => (res_json 404 "User not found", st)
          | Some user =>
            match Transaction_findOne reference st with
            | Some _ =>
              (res_redirect
                 (deposit_success r (Binary64.round64 amountInNaira)), st)
            | None =>
              let userId := default "" (v_userId data) in
              let st1 :=
                User_save_balance userId (User.balance user + amountInNaira)
                  st in
              match Transaction_create reference
                      (record userId Transaction.deposit amountInNaira
                         Transaction.successful "Deposit via Paystack"
                         None None) st1 with
              | Some st2 =>
                (res_redirect
                   (deposit_success r (Binary64.round64 amountInNaira)), st2)
              | None => (res_redirect deposit_failed_error, st1)
              end
            end
          end
        else (res_redirect (deposit_failed r), st)
      end
  end.

(** What [Number(s)] makes of a string. *)
Inductive Numeric :=
| NaN
| finite (q : Q)
| Infinity
| NegInfinity.

(** [req.body.amount], which the transfer route never converts: a JSON
    number, or a JSON string [s] taken with what the conversions of the
    language make of it, [value] for [Number(s)] and [appended b] for
    [Number(String(b) + s)], the number Mongoose casts the string [b + s]
    to. *)
Inductive Amount :=
| number (q : Q)
| text (s : string) (value : Numeric) (appended : Q → Numeric).

(** [Number(amount)], the operand of [<=], [<], [*] and [-]. *)
Definition valueOf (amount : Amount) : Numeric :=
  match amount with
  | number q => finite q
  | text _ value _ => value
  end.

(** [!amount] *)
Definition falsy_amount (amount : Amount) : bool :=
  match amount with
  | number q => falsy_number q
  | text s _ _ => falsy_string s
  end.

(** [amount <= 0]; a comparison with [NaN] is false. *)
Definition nonpositive (amount : Amount) : bool :=
  match valueOf amount with
  | finite q => Qle_bool q 0
  | NegInfinity => true
  | NaN | Infinity => false
  end.

(** [balance < amount] *)
Definition below (balance : Q) (amount : Amount) : bool :=
  match valueOf amount with
  | finite q => Qlt_bool balance q
  | Infinity => true
  | NaN | NegInfinity => false
  end.

(** [balance += amount]: the sum of two numbers, or the balance's text
    followed by the string, which Mongoose casts back to a number when it is
    the text of one ([None] when it is not: the document is invalid and its
    [save] rejects); the text of an infinite number is left out. *)
Definition plusAssign (balance : Q) (amount : Amount) : option Q :=
  match amount with
  | number q => Some (balance + q)%Q
  | text _ _ appended =>
    match appended balance with
    | finite q => Some q
    | NaN | Infinity | NegInfinity => None
    end
  end.

(** [POST api/payments/transfer]; the data of the two provider answers
    are [recipient_code] and [transfer_code]. *)
Definition transfer (uid : string) (recipientId : option string)
    (amount : option Amount) (reason : option string)
    (recipientResponse transferResponse : Paystack (option string))
    (st : Store) : Response * Store :=
  match recipientId, amount with
  | Some recipientId, Some amount =>
    if falsy_string recipientId || falsy_amount amount || nonpositive amount
    then (res_json 400 "Recipient ID and valid amount are required", st)
    else
      match User_findById uid st with
      | None => (res_json 404 "Sender not found", st)
      | Some sender =>
        if below (User.balance sender) amount
        then (res_json 400 "Insufficient balance", st)
        else
          match User_findById recipientId st with
          | None => (res_json 404 "Recipient not found", st)
          | Some recipient =>
            (* Create a transfer recipient if not exists *)
            let created :=
              if falsy (User.paystackTransferRecipientCode recipient) then
                match recipientResponse with
                | threw => None
                | returned _ (Some code) =>
                  Some (User_save_recipientCode recipientId code st)
                | returned _ None => Some st
                end
              else Some st in
            match created with
            | None => (res_json 500 "Server error", st)
            | Some st1 =>
              match transferResponse with
              | threw => (res_json 500 "Server error", st1)
              | returned false _ =>
                (res_json 400 "Failed to initiate transfer", st1)
              | returned true reference =>
                match valueOf amount with
                | finite value =>
                  (* sender.balance -= amount *)
                  let st2 :=
                    User_save_balance uid (User.balance sender - value) st1 in
                  (* recipient.balance += amount *)
                  match plusAssign (User.balance recipient) amount with
                  | None => (res_json 500 "Server error", st2)
                  | Some credited =>
                    let st3 := User_save_balance recipientId credited st2 in
                    let purpose := or_else reason "Transfer" in
                    match Transaction_create reference
                            (record uid Transaction.send value
                               Transaction.successful purpose
                               (Some recipientId)
                               (Some (User.fullName recipient))) st3 with
                    | None => (res_json 500 "Server error", st3)
                    | Some st4 =>
                      match Transaction_create
                              ((λ r, r +:+ "-RCV") <$> reference)
                              (record recipientId Transaction.receive value
                                 Transaction.successful purpose (Some uid)
                                 (Some (User.fullName sender))) st4 with
                      | None => (res_json 500 "Server error", st4)
                      | Some st5 => (res_ok (or_else reference ""), st5)
                      end
                    end
                  end
                | NaN | Infinity | NegInfinity =>
                  (* [sender.balance] was assigned [NaN], which Mongoose does
                     not cast: [sender.save()] rejects *)
                  (res_json 500 "Server error", st1)
                end
              end
            end
          end
      end
  | _, _ => (res_json 400 "Recipient ID and valid amount are required", st)
  end.

End Payments.

(** ** The Stripe router: confirm-payment *)

Module Stripe.

(** [POST api/stripe/confirm-payment]; [paymentIntent] is what
    [stripe.paymentIntents.retrieve] returns ([None] when it throws), as
    its [status]. *)
Definition confirmPayment (uid : string) (paymentIntentId : option string)
    (amount : option Q) (paymentIntent : option string) (uuid : string)
    (st : Store) : Response * Store :=
  if falsy paymentIntentId
  then (res_json 400 "Payment intent ID is required", st)
  else
    match paymentIntent with
    | None => (res_send 500 "Server error", st)
    | Some status =>
      if negb (String.eqb status "succeeded")
      then (res_json 400 "Payment has not been completed", st)
      else
        match User_findById uid st with
        | None => (res_json 404 "User not found", st)
        | Some user =>
          let reference := "DEP-" +:+ String.substring 0 8 uuid in
          match amount with
          | None => (res_send 500 "Server error", st)
          | Some amount =>
            let st1 := User_save_balance uid (User.balance user + amount) st in
            match Transaction_create (Some reference)
                    {| Transaction.userId := uid;
                       Transaction.transactionType := Transaction.deposit;
                       Transaction.amount := amount;
                       Transaction.fee := 0;
                       Transaction.status := Transaction.successful;
                       Transaction.recipientId := None;
                       Transaction.recipientName := None;
                       Transaction.recipientCecureTag := None;
                       Transaction.recipientBank := None;
                       Transaction.recipientAccount := None;
                       Transaction.purpose := Some "Deposit via card";
                       Transaction.stripePaymentIntentId := paymentIntentId |}
                    st1 with
            | Some st2 => (res_ok reference, st2)
            | None => (res_send 500 "Server error", st1)
            end
          end
        end
    end.

End Stripe.

(** ** JSON values and [JSON.stringify] *)

Module JSON.

(** A parsed JSON text.  An object keeps its members, of distinct keys, in
    the order of the text; numbers are the integers, which
    [JSON.stringify] prints in full below 10^21. *)
#[local] Unset Elimination Schemes.
Inductive value :=
| JNull
| JBool (b : bool)
| JNumber (n : Z)
| JString (s : string)
| JArray (items : list value)
| JObject (members : list (string * value)).
#[local] Set Elimination Schemes.

Definition quote : string := String "034"%char "".

Definition hexdigit (n : nat) : ascii :=
  match String.get n "0123456789abcdef" with
  | Some c => c
  | None => "0"%char
  end.

(** The escapes of [JSON.stringify]. *)
Definition escape (c : ascii) : string :=
  let n := nat_of_ascii c in
  if (n =? 34)%nat then "\" +:+ quote
  else if (n =? 92)%nat then "\\"
  else if (n =? 8)%nat then "\b"
  else if (n =? 9)%nat then "\t"
  else if (n =? 10)%nat then "\n"
  else if (n =? 12)%nat then "\f"
  else if (n =? 13)%nat then "\r"
  else if (n <? 32)%nat
       then "\u00" +:+ String (hexdigit (n / 16)) (String (hexdigit (n mod 16)) "")
  else String c "".

Fixpoint escapeString (s : string) : string :=
  match s with
  | EmptyString => ""
  | String c r => escape c +:+ escapeString r
  end.

Definition quoteString (s : string) : string :=
  quote +:+ escapeString s +:+ quote.

(** [JSON.stringify(v)] *)
Fixpoint stringify (v : value) : string :=
  match v with
  | JNull => "null"
  | JBool true => "true"
  | JBool false => "false"
  | JNumber n => pretty n
  | JString s => quoteString s
  | JArray items =>
    "[" +:+
    (fix go (l : list value) : string :=
       match l with
       | [] => ""
       | x :: r =>
         stringify x +:+ match r with [] => "" | _ => "," +:+ go r end
       end) items
    +:+ "]"
  | JObject members =>
    "{" +:+
    (fix go (l : list (string * value)) : string :=
       match l with
       | [] => ""
       | (k, x) :: r =>
         quoteString k +:+ ":" +:+ stringify x
         +:+ match r with [] => "" | _ => "," +:+ go r end
       end) members
    +:+ "}"
  end.

(** Property access [v.k]; [None] is [undefined]. *)
Definition get (k : string) (v : value) : option value :=
  match v with
  | JObject members =>
    snd <$> List.find (λ kv, String.eqb (fst kv) k) members
  | _ => None
  end.

Definition asString (v : option value) : option string :=
  match v with
  | Some (JString s) => Some s
  | _ => None
  end.

Definition asNumber (v : option value) : option Q :=
  match v with
  | Some (JNumber n) => Some (inject_Z n)
  | _ => None
  end.

End JSON.

(** ** [crypto]: HMAC-SHA512 *)

(** SHA-512 (FIPS 180-4) on 64-bit words held in [Z]; a message is its list
    of bytes. *)
Module SHA512.
#[local] Open Scope Z_scope.

Definition word (x : Z) : Z := Z.land x (Z.ones 64).
Definition add (x y : Z) : Z := word (x + y).
Definition rotr (n x : Z) : Z := Z.lor (Z.shiftr x n) (word (Z.shiftl x (64 - n))).
Definition shr (n x : Z) : Z := Z.shiftr x n.
Definition xor3 (x y z : Z) : Z := Z.lxor (Z.lxor x y) z.
Definition Ch (x y z : Z) : Z := Z.lxor (Z.land x y) (Z.ldiff z x).
Definition Maj (x y z : Z) : Z := xor3 (Z.land x y) (Z.land x z) (Z.land y z).
Definition Sigma0 (x : Z) : Z := xor3 (rotr 28 x) (rotr 34 x) (rotr 39 x).
Definition Sigma1 (x : Z) : Z := xor3 (rotr 14 x) (rotr 18 x) (rotr 41 x).
Definition sigma0 (x : Z) : Z := xor3 (rotr 1 x) (rotr 8 x) (shr 7 x).
Definition sigma1 (x : Z) : Z := xor3 (rotr 19 x) (rotr 61 x) (shr 6 x).

Definition K : list Z :=
  [0x428a2f98d728ae22; 0x7137449123ef65cd; 0xb5c0fbcfec4d3b2f; 0xe9b5dba58189dbbc;
   0x3956c25bf348b538; 0x59f111f1b605d019; 0x923f82a4af194f9b; 0xab1c5ed5da6d8118;
   0xd807aa98a3030242; 0x12835b0145706fbe; 0x243185be4ee4b28c; 0x550c7dc3d5ffb4e2;
   0x72be5d74f27b896f; 0x80deb1fe3b1696b1; 0x9bdc06a725c71235; 0xc19bf174cf692694;
   0xe49b69c19ef14ad2; 0xefbe4786384f25e3; 0x0fc19dc68b8cd5b5; 0x240ca1cc77ac9c65;
   0x2de92c6f592b0275; 0x4a7484aa6ea6e483; 0x5cb0a9dcbd41fbd4; 0x76f988da831153b5;
   0x983e5152ee66dfab; 0xa831c66d2db43210; 0xb00327c898fb213f; 0xbf597fc7beef0ee4;
   0xc6e00bf33da88fc2; 0xd5a79147930aa725; 0x06ca6351e003826f; 0x142929670a0e6e70;
   0x27b70a8546d22ffc; 0x2e1b21385c26c926; 0x4d2c6dfc5ac42aed; 0x53380d139d95b3df;
   0x650a73548baf63de; 0x766a0abb3c77b2a8; 0x81c2c92e47edaee6; 0x92722c851482353b;
   0xa2bfe8a14cf10364; 0xa81a664bbc423001; 0xc24b8b70d0f89791; 0xc76c51a30654be30;
   0xd192e819d6ef5218; 0xd69906245565a910; 0xf40e35855771202a; 0x106aa07032bbd1b8;
   0x19a4c116b8d2d0c8; 0x1e376c085141ab53; 0x2748774cdf8eeb99; 0x34b0bcb5e19b48a8;
   0x391c0cb3c5c95a63; 0x4ed8aa4ae3418acb; 0x5b9cca4f7763e373; 0x682e6ff3d6b2b8a3;
   0x748f82ee5defb2fc; 0x78a5636f43172f60; 0x84c87814a1f0ab72; 0x8cc702081a6439ec;
   0x90befffa23631e28; 0xa4506cebde82bde9; 0xbef9a3f7b2c67915; 0xc67178f2e372532b;
   0xca273eceea26619c; 0xd186b8c721c0c207; 0xeada7dd6cde0eb1e; 0xf57d4f7fee6ed178;
   0x06f067aa72176fba; 0x0a637dc5a2c898a6; 0x113f9804bef90dae; 0x1b710b35131c471b;
   0x28db77f523047d84; 0x32caab7b40c72493; 0x3c9ebe0a15c9bebc; 0x431d67c49c100d4c;
   0x4cc5d4becb3e42b6; 0x597f299cfc657e2a; 0x5fcb6fab3ad6faec; 0x6c44198c4a475817].

Definition H0 : list Z :=
  [0x6a09e667f3bcc908; 0xbb67ae8584caa73b; 0x3c6ef372fe94f82b; 0xa54ff53a5f1d36f1;
   0x510e527fade682d1; 0x9b05688c2b3e6c1f; 0x1f83d9abfb41bd6b; 0x5be0cd19137e2179].

(** Big-endian bytes of a number, [n] of them. *)
Fixpoint be_bytes (n : nat) (x : Z) : list Z :=
  match n with
  | O => []
  | S m => be_bytes m (Z.shiftr x 8) ++ [Z.land x 255]
  end.

Definition be_word (bs : list Z) : Z :=
  fold_left (λ acc b, Z.lor (Z.shiftl acc 8) b) bs 0.

(** The message followed by the bit 1, zeros, and its length in bits on 128 bits. *)
Definition pad (msg : list Z) : list Z :=
  let len := Z.of_nat (List.length msg) in
  msg ++ [0x80] ++ repeat 0 (Z.to_nat ((111 - len) mod 128)) ++ be_bytes 16 (8 * len).

Fixpoint chunks {A} (fuel size : nat) (l : list A) : list (list A) :=
  match fuel with
  | O => []
  | S f =>
    match l with
    | [] => []
    | _ => firstn size l :: chunks f size (skipn size l)
    end
  end.

(** The message schedule, latest word first. *)
Fixpoint schedule (n : nat) (w : list Z) : list Z :=
  match n with
  | O => w
  | S m =>
    schedule m
      (add (add (sigma1 (nth 1 w 0)) (nth 6 w 0))
           (add (sigma0 (nth 14 w 0)) (nth 15 w 0)) :: w)
  end.

Definition round (s : list Z) (kw : Z * Z) : list Z :=
  match s with
  | [a; b; c; d; e; f; g; h] =>
    let T1 := add (add (add h (Sigma1 e)) (add (Ch e f g) (fst kw))) (snd kw) in
    let T2 := add (Sigma0 a) (Maj a b c) in
    [add T1 T2; a; b; c; add d T1; e; f; g]
  | _ => s
  end.

Definition compress (H : list Z) (block : list Z) : list Z :=
  let w := rev (schedule 64 (rev (map be_word (chunks 16 8 block)))) in
  map (λ p, add (fst p) (snd p)) (combine H (fold_left round (combine K w) H)).

Definition digest (msg : list Z) : list Z :=
  let p := pad msg in
  flat_map (be_bytes 8) (fold_left compress (chunks (List.length p) 128 p) H0).

End SHA512.

(** HMAC (RFC 2104) over SHA-512, block size 128. *)
Module HMAC.
#[local] Open Scope Z_scope.

Definition block_key (key : list Z) : list Z :=
  let k := if (128 <? List.length key)%nat then SHA512.digest key else key in
  k ++ repeat 0 (128 - List.length k)%nat.

Definition sha512 (key msg : list Z) : list Z :=
  let k := block_key key in
  SHA512.digest (map (Z.lxor 0x5c) k ++ SHA512.digest (map (Z.lxor 0x36) k ++ msg)).

Definition bytes (s : string) : list Z :=
  map (λ c, Z.of_nat (nat_of_ascii c)) (list_ascii_of_string s).

Definition hexdigit (n : Z) : ascii :=
  match String.get (Z.to_nat n) "0123456789abcdef" with
  | Some c => c
  | None => "0"%char
  end.

Definition hex (bs : list Z) : string :=
  string_of_list_ascii (flat_map (λ b, [hexdigit (Z.shiftr b 4); hexdigit (Z.land b 15)]) bs).

(** [crypto.createHmac("sha512", key).update(msg).digest("hex")] *)
Definition sha512_hex (key msg : string) : string :=
  hex (sha512 (bytes key) (bytes msg)).
End HMAC.

(** ** The webhook of the Paystack router *)

Module Webhook.

(** [data.metadata] *)
Record Metadata := {
  userId : option string;
  originalReference : option string
}.

(** [event.data], as the handlers read it from an event of the provider:
    [reference], [reason] and the two members of [metadata] are strings,
    [amount] is a number and [metadata] an object, each of them possibly
    absent. *)
Record Data := {
  reference : option string;
  amount : option Q;
  metadata : option Metadata;
  reason : option string
}.

Definition readMetadata (v : option JSON.value) : option Metadata :=
  match v with
  | Some (JSON.JObject members) =>
    Some {| userId := JSON.asString (JSON.get "userId" (JSON.JObject members));
            originalReference :=
              JSON.asString (JSON.get "originalReference" (JSON.JObject members)) |}
  | _ => None
  end.

Definition readData (v : option JSON.value) : option Data :=
  match v with
  | Some (JSON.JObject members) =>
    let d := JSON.JObject members in
    Some {| reference := JSON.asString (JSON.get "reference" d);
            amount := JSON.asNumber (JSON.get "amount" d);
            metadata := readMetadata (JSON.get "metadata" d);
            reason := JSON.asString (JSON.get "reason" d) |}
  | _ => None
  end.





(** [handleSuccessfulPayment]; every throw is caught and logged by the
    handler itself. *)
Definition handleSuccessfulPayment (data : option Data) (st : Store) : Store :=
  match data with
  | None => st
  | Some data =>
    match metadata data with
    | None => st
    | Some metadata =>
      if falsy (userId metadata) then st
      else
        let userId := default "" (userId metadata) in
        match User_findById userId st with
        | None => st
        | Some user =>
          match Transaction_findOne (reference data) st with
          | Some _ => st
          | None =>
            match amount data with
            | None => st
            | Some amount =>
              let amountInNaira := (amount / 100)%Q in
              let st1 :=
                User_save_balance userId
                  (User.balance user + amountInNaira) st in
              match Transaction_create (reference data)
                      (Payments.record userId Transaction.deposit
                         amountInNaira Transaction.successful
                         "Deposit via Paystack" None None) st1 with
              | Some st2 => st2
              | None => st1
              end
            end
          end
        end
    end
  end.

(** [handleSuccessfulTransfer] *)
Definition handleSuccessfulTransfer (data : option Data) (st : Store) : Store :=
  match data with
  | None => st
  | Some data =>
    match metadata data with
    | None => st
    | Some metadata =>
      if falsy (userId metadata) then st
      else
        Transaction_findOneAndUpdate_status (originalReference metadata)
          Transaction.successful st
    end
  end.

(** The block [// Refund the sender] of the two compensating handlers. *)
Definition refundSender (transaction : Transaction.t) (st : Store) : Store :=
  match User_findById (Transaction.userId transaction) st with
  | Some sender =>
    User_save_balance (Transaction.userId transaction)
      (User.balance sender + Transaction.amount transaction) st
  | None => st
  end.

(** The block [// Deduct from recipient] of the reversal handler. *)
Definition deductFromRecipient (transaction : Transaction.t) (st : Store)
  : Store :=
  match Transaction.recipientId transaction with
  | Some recipientId =>
    match User_findById recipientId st with
    | Some recipient =>
      User_save_balance recipientId
        (User.balance recipient - Transaction.amount transaction) st
    | None => st
    end
  | None => st
  end.

(** [handleFailedTransfer] *)
Definition handleFailedTransfer (data : option Data) (st : Store) : Store :=
  match data with
  | None => st
  | Some data =>
    match reference data with
    | None => st
    | Some reference =>
      match Transaction_findOne (Some reference) st with
      | None => st
      | Some transaction =>
        match Transaction_save_status reference transaction
                Transaction.failed st with
        | None => st
        | Some st1 => refundSender transaction st1
        end
      end
    end
  end.

(** [handleReversedTransfer] *)
Definition handleReversedTransfer (data : option Data) (st : Store) : Store :=
  match data with
  | None => st
  | Some data =>
    match reference data with
    | None => st
    | Some reference =>
      match Transaction_findOne (Some reference) st with
      | None => st
      | Some transaction =>
        match Transaction_save_status reference transaction
                Transaction.reversed st with
        | None => st
        | Some st1 =>
          deductFromRecipient transaction (refundSender transaction st1)
        end
      end
    end
  end.

(** The [switch (event.event)] of the route. *)
Definition dispatch (event : JSON.value) (st : Store) : Store :=
  let data := readData (JSON.get "data" event) in
  match JSON.asString (JSON.get "event" event) with
  | Some name =>
    if String.eqb name "charge.success" then handleSuccessfulPayment data st
    else if String.eqb name "transfer.success" then handleSuccessfulTransfer data st
    else if String.eqb name "transfer.failed" then handleFailedTransfer data st
    else if String.eqb name "transfer.reversed" then handleReversedTransfer data st
    else st
  | None => st
  end.

(** The request as the route sees it: [body] is [req.body], the object
    [express.json()] (mounted before the routers) parsed from the bytes
    [rawBody]; [express.raw] then leaves the parsed body in place. *)
Record Request := {
  rawBody : string;
  body : JSON.value;
  x_paystack_signature : option string
}.

Section route.
(** [process.env.PAYSTACK_SECRET_KEY] *)
Variable PAYSTACK_SECRET_KEY : string.

(** The [hash] the route compares with the header. *)
Definition hash (req : Request) : string :=
  HMAC.sha512_hex PAYSTACK_SECRET_KEY (JSON.stringify (body req)).

(** [hash !== req.headers["x-paystack-signature"]] *)
Definition signatureMismatch (req : Request) : bool :=
  match x_paystack_signature req with
  | Some s => negb (String.eqb (hash req) s)
  | None => true
  end.

(** [POST api/payments/webhook] *)
Definition webhook (req : Request) (st : Store) : Response * Store :=
  if signatureMismatch req then (res_send 400 "Invalid signature", st)
  else (res_send 200 "Webhook received", dispatch (body req) st).
End route.

End Webhook.

(** ** The API as a transition system *)

(** A request to one of the routes, with the values the route draws from
    outside (uuid, salt, provider answers). *)
Inductive Call :=
| LedgerTransfer (uid : string) (recipientId : option string)
    (amount : option Q) (pin purpose : option string) (uuid : string)
| LedgerBankTransfer (uid : string) (bankDetails : option Ledger.BankDetails)
    (amount : option Q) (pin : option string) (uuid : string)
| LedgerWithdraw (uid : string) (bankDetails : option Ledger.BankDetails)
    (amount : option Q) (pin : option string) (uuid : string)
| LedgerDeposit (uid : string) (amount : option Q) (method : option string)
    (uuid : string)
| LedgerConfirmDeposit (uid : string) (reference : option string)
    (amount : option Q)
| DepositInitiate (uid : string) (amount : option Q) (reference : option string)
| DepositCancel (uid : string) (reference : option string)
| DepositConfirm (reference : option string)
| PaymentsWithdraw (uid : string) (amount : option Q)
    (bank_code account_number account_name narration : option string)
    (recipientResponse transferResponse : Paystack (option string))
| PaymentsChargeCard (uid : string) (amount : option Q)
    (email cardId : option string) (chargeResponse : Paystack (option string))
| PaymentsCallback (reference : option string)
    (paystackResponse : Paystack Payments.Verification)
| PaymentsTransfer (uid : string) (recipientId : option string)
    (amount : option Payments.Amount) (reason : option string)
    (recipientResponse transferResponse : Paystack (option string))
| PaymentsWebhook (req : Webhook.Request)
| StripeConfirmPayment (uid : string) (paymentIntentId : option string)
    (amount : option Q) (paymentIntent : option string) (uuid : string)
| UsersSetTransactionPin (uid : string) (pin : option string) (salt : string).

(** The route a call reaches; [secret] is [process.env.PAYSTACK_SECRET_KEY]. *)
Definition run `{Bcrypt} (secret : string) (c : Call) (st : Store)
  : Response * Store :=
  match c with
  | LedgerTransfer uid recipientId amount pin purpose uuid =>
    Ledger.transfer uid recipientId amount pin purpose uuid st
  | LedgerBankTransfer uid bankDetails amount pin uuid =>
    Ledger.bankTransfer uid bankDetails amount pin uuid st
  | LedgerWithdraw uid bankDetails amount pin uuid =>
    Ledger.withdraw uid bankDetails amount pin uuid st
  | LedgerDeposit uid amount method uuid =>
    Ledger.deposit uid amount method uuid st
  | LedgerConfirmDeposit uid reference amount =>
    Ledger.confirmDeposit uid reference amount st
  | DepositInitiate uid amount reference =>
    BankDeposit.initiate uid amount reference st
  | DepositCancel uid reference => BankDeposit.cancel uid reference st
  | DepositConfirm reference => BankDeposit.confirm reference st
  | PaymentsWithdraw uid amount bank_code account_number account_name
      narration recipientResponse transferResponse =>
    Payments.withdraw uid amount bank_code account_number account_name
      narration recipientResponse transferResponse st
  | PaymentsChargeCard uid amount email cardId chargeResponse =>
    Payments.chargeCard uid amount email cardId chargeResponse st
  | PaymentsCallback reference paystackResponse =>
    Payments.callback reference paystackResponse st
  | PaymentsTransfer uid recipientId amount reason recipientResponse
      transferResponse =>
    Payments.transfer uid recipientId amount reason recipientResponse
      transferResponse st
  | PaymentsWebhook req => Webhook.webhook secret req st
  | StripeConfirmPayment uid paymentIntentId amount paymentIntent uuid =>
    Stripe.confirmPayment uid paymentIntentId amount paymentIntent uuid st
  | UsersSetTransactionPin uid pin salt =>
    Users.setTransactionPin uid pin salt st
  end.

(** The stores the API reaches from a database with accounts and cards but
    no transaction record, PIN or beneficiary yet. *)
Inductive reachable `{Bcrypt} (secret : string) : Store → Prop :=
| reachable_initial st :
    transactions st = ∅ → transactionpins st = ∅ → beneficiaries st = [] →
    reachable secret st
| reachable_run c st :
    reachable secret st → reachable secret (snd (run secret c st)).

(** Every stored record passes the schema's validators. *)
Definition recordsValid (st : Store) : Prop :=
  ∀ reference x, transactions st !! reference = Some x →
    Transaction.validate reference x = true.

(** The shape of every write the routes make, but for the PIN route: an
    account is rewritten, a beneficiary is appended, a valid record is
    inserted under a free reference, or the status of the record under a
    reference is set to successful or to failed. *)
Inductive evolves (st : Store) : Store → Prop :=
| evolves_refl : evolves st st
| evolves_users st' us : evolves st st' → evolves st (with_users us st')
| evolves_beneficiaries st' bs :
    evolves st st' → evolves st (with_beneficiaries bs st')
| evolves_create st' r x :
    evolves st st' →
    transactions st' !! r = None →
    Transaction.validate r x = true →
    evolves st (with_transactions (<[r := x]> (transactions st')) st')
| evolves_status st' r s :
    evolves st st' →
    s = Transaction.successful ∨ s = Transaction.failed →
    evolves st
      (with_transactions
         (alter (Transaction.set_status s) r (transactions st')) st').

(** ** The state machine of the specification *)

(** The transitions section 4.3 of the specification lists:
    pending to successful, failed, declined or cancelled, and successful to
    reversed. *)
Definition allowedTransition (from to : Transaction.state) : bool :=
  match from, to with
  | Transaction.pending, Transaction.successful
  | Transaction.pending, Transaction.failed
  | Transaction.pending, Transaction.declined
  | Transaction.pending, Transaction.cancelled
  | Transaction.successful, Transaction.reversed => true
  | _, _ => false
  end.

(** A record is created between two stores under a reference. *)
Definition created (st st' : Store) (reference : string) (x : Transaction.t) : Prop :=
  transactions st !! reference = None ∧ transactions st' !! reference = Some x.

(** Every record created between two stores has the given status. *)
Definition createsOnly (s : Transaction.state) (st st' : Store) : Prop :=
  ∀ reference x, created st st' reference x → Transaction.status x = s.

(** Every stored PIN credential is a bcrypt digest. *)
Definition pinsHashed `{Bcrypt} (st : Store) : Prop :=
  ∀ uid p, transactionpins st !! uid = Some p →
    ∃ pin salt, TransactionPin.pinHash p = bcrypt_hash pin salt.

(** Two records agree on every field but [status]. *)
Definition sameExceptStatus (x y : Transaction.t) : Prop :=
  Transaction.userId x = Transaction.userId y
  ∧ Transaction.transactionType x = Transaction.transactionType y
  ∧ Transaction.amount x = Transaction.amount y
  ∧ Transaction.fee x = Transaction.fee y
  ∧ Transaction.recipientId x = Transaction.recipientId y
  ∧ Transaction.recipientName x = Transaction.recipientName y
  ∧ Transaction.recipientCecureTag x = Transaction.recipientCecureTag y
  ∧ Transaction.recipientBank x = Transaction.recipientBank y
  ∧ Transaction.recipientAccount x = Transaction.recipientAccount y
  ∧ Transaction.purpose x = Transaction.purpose y
  ∧ Transaction.stripePaymentIntentId x = Transaction.stripePaymentIntentId y.

(** [data.metadata.userId] and [data.metadata.originalReference] of an
    event, when present. *)
Definition userIdOf (data : option Webhook.Data) : option string :=
  d ← data; m ← Webhook.metadata d; Webhook.userId m.

Definition originalReferenceOf (data : option Webhook.Data) : option string :=
  d ← data; m ← Webhook.metadata d; Webhook.originalReference m.

(** ** Sample data for the examples *)

Module Sample.

(** A stand-in for bcryptjs, used to run the examples: the digest is a
    prefix, the salt and the data; comparing looks at the digest's end. *)
Definition bcrypt : Bcrypt :=
  {| bcrypt_hash data salt := "$2a$10$" +:+ salt +:+ data;
     bcrypt_compare candidate digest :=
       String.eqb
         (String.substring (String.length digest - String.length candidate)
            (String.length candidate) digest)
         candidate |}.

Definition user (first last : string) (b : Q) : User.t :=
  {| User.firstName := first; User.lastName := last;
     User.email := first +:+ "@example.com";
     User.cecureTag := "@" +:+ first +:+ last;
     User.balance := b;
     User.paystackCustomerCode := None;
     User.paystackVirtualAccountNumber := None;
     User.paystackTransferRecipientCode := None |}.

Definition A : string := "5f0000000000000000000a01".
Definition B : string := "5f0000000000000000000b02".

(** Accounts [A] and [B] with the given balances and nothing else. *)
Definition base (a b : Q) : Store :=
  {| users := <[A := user "Ada" "Obi" a]> (<[B := user "Bayo" "Eze" b]> ∅);
     transactions := ∅;
     transactionpins := ∅;
     beneficiaries := [];
     cards := ∅ |}.

(** Accounts [A] and [B] with the given balances, [A]'s PIN set to 1234,
    and the given transaction records. *)
Definition store (a b : Q) (ts : list (string * Transaction.t)) : Store :=
  {| users := <[A := user "Ada" "Obi" a]> (<[B := user "Bayo" "Eze" b]> ∅);
     transactions := list_to_map ts;
     transactionpins :=
       <[A := {| TransactionPin.pinHash := "$2a$10$saltsaltsalt1234" |}]> ∅;
     beneficiaries := [];
     cards := ∅ |}.

Definition bankDetails : Ledger.BankDetails :=
  {| Ledger.accountName := Some "Ada Obi";
     Ledger.bankName := Some "Access Bank";
     Ledger.accountNumber := Some "0123456789";
     Ledger.saveBeneficiary := false |}.

Definition uuid : string := "3f2a9c1e-7b4d-4e8a-9c0f-1a2b3c4d5e6f".


Definition secret : string := "sk_test_0123456789abcdef".

(** The body of a transfer event for a reference, with a payload amount. *)
Definition transferEvent (name reference : string) (amount : Z) : JSON.value :=
  JSON.JObject
    [("event", JSON.JString name);
     ("data", JSON.JObject
                [("reference", JSON.JString reference);
                 ("amount", JSON.JNumber amount);
                 ("reason", JSON.JString "Could not be processed")])].

(** The body of a charge event crediting an account. *)
Definition chargeEvent (reference userId : string) (amount : Z) : JSON.value :=
  JSON.JObject
    [("event", JSON.JString "charge.success");
     ("data", JSON.JObject
                [("reference", JSON.JString reference);
                 ("amount", JSON.JNumber amount);
                 ("metadata", JSON.JObject [("userId", JSON.JString userId)])])].

(** A request whose header is the digest the route computes. *)
Definition signed (event : JSON.value) : Webhook.Request :=
  {| Webhook.rawBody := JSON.stringify event;
     Webhook.body := event;
     Webhook.x_paystack_signature :=
       Some (HMAC.sha512_hex secret (JSON.stringify event)) |}.

Definition newline : string := String "010"%char "".

(** A request whose bytes end with a line feed after the JSON text and
    whose header is the digest of those bytes. *)
Definition signedOverBytes (event : JSON.value) : Webhook.Request :=
  {| Webhook.rawBody := JSON.stringify event +:+ newline;
     Webhook.body := event;
     Webhook.x_paystack_signature :=
       Some (HMAC.sha512_hex secret (JSON.stringify event +:+ newline)) |}.

(** The same bytes, with the digest of the re-serialized body as header. *)
Definition signedOverStringify (event : JSON.value) : Webhook.Request :=
  {| Webhook.rawBody := JSON.stringify event +:+ newline;
     Webhook.body := event;
     Webhook.x_paystack_signature :=
       Some (HMAC.sha512_hex secret (JSON.stringify event)) |}.

(** The body of a transfer.success event naming the record it settles. *)
Definition successEvent (reference userId originalReference : string)
  : JSON.value :=
  JSON.JObject
    [("event", JSON.JString "transfer.success");
     ("data", JSON.JObject
                [("reference", JSON.JString reference);
                 ("metadata", JSON.JObject
                    [("userId", JSON.JString userId);
                     ("originalReference", JSON.JString originalReference)])])].

(** The store after [A] sent 100 to [B] through the Paystack router, the
    provider answering with the transfer code TRF_1: [A] holds 400, [B]
    holds 600, the records TRF_1 and TRF_1-RCV are successful. *)
Definition afterTransfer : Store :=
  snd (Payments.transfer A (Some B) (Some (Payments.number 100)) None
         (returned true (Some "RCP_1")) (returned true (Some "TRF_1"))
         (store 500 500 [])).

(** One delivery of an event to the webhook. *)
Definition deliver (req : Webhook.Request) (st : Store) : Store :=
  snd (Webhook.webhook secret req st).

End Sample.

(** ** Sequences of requests *)

(** The store after a sequence of calls, served one after the other. *)
Definition runAll `{Bcrypt} (secret : string) (cs : list Call) (st : Store)
  : Store :=
  foldl (λ st c, snd (run secret c st)) st cs.

(** A record is created successful or pending. *)
Definition createsLive (st st' : Store) : Prop :=
  ∀ reference x, created st st' reference x →
    Transaction.status x = Transaction.successful
    ∨ Transaction.status x = Transaction.pending.

(** ** [routes/users.js]: deactivating a saved card *)

Definition with_cards (cs : gmap string Card.t) (st : Store) : Store :=
  {| users := users st; transactions := transactions st;
     transactionpins := transactionpins st;
     beneficiaries := beneficiaries st; cards := cs |}.

Module SavedCards.

Definition set_isActive (b : bool) (c : Card.t) : Card.t :=
  {| Card.userId := Card.userId c;
     Card.paystackAuthCode := Card.paystackAuthCode c;
     Card.isActive := b |}.

(** [PUT api/users/cards/:id/deactivate]; [id] is [req.params.id], a
    well-formed ObjectId. *)
Definition deactivate (uid id : string) (st : Store) : Response * Store :=
  match cards st !! id with
  | Some card =>
    if String.eqb (Card.userId card) uid then
      (res_json 200 "Card deactivated successfully",
       with_cards (alter (set_isActive false) id (cards st)) st)
    else (res_json 404 "Card not found", st)
  | None => (res_json 404 "Card not found", st)
  end.

End SavedCards.

(** ** More sample data *)

Module Fixtures.

Definition card : Card.t :=
  {| Card.userId := Sample.A; Card.paystackAuthCode := "AUTH_8dfhjjdt";
     Card.isActive := true |}.

Definition cardId : string := "64b000000000000000000c01".

(** The sample store with a saved, active card of [A]. *)
Definition storeWithCard : Store :=
  with_cards (<[cardId := card]> ∅) (Sample.store 500 500 []).

End Fixtures.

(** ** The Paystack router: initialize *)

Module Initialize.

(** [{ ...v }]: the own enumerable properties of a JSON value (the members
    of an object, the items of an array and the characters of a string under
    their indexes, nothing for the other values). *)
Definition spread (v : JSON.value) : list (string * JSON.value) :=
  match v with
  | JSON.JObject members => members
  | JSON.JArray items => imap (λ i x, (pretty i, x)) items
  | JSON.JString s =>
    imap (λ i c, (pretty i, JSON.JString (String c "")))
      (list_ascii_of_string s)
  | _ => []
  end.

(** [{ ...members, k: v }]: a property that exists keeps its place. *)
Fixpoint assign (k : string) (v : JSON.value)
    (members : list (string * JSON.value)) : list (string * JSON.value) :=
  match members with
  | [] => [(k, v)]
  | (k', v') :: r =>
    if String.eqb k' k then (k', v) :: r else (k', v') :: assign k v r
  end.

(** What the route posts to [/transaction/initialize]. *)
Record PaymentData := {
  amount : Q;
  email : string;
  metadata : JSON.value;
  callback_url : string
}.

(** [paymentData]; [metadata] is [req.body.metadata], [{}] when absent, and
    [API_BASE_URL] the environment's. *)
Definition paymentData (uid : string) (amount : Q) (email : string)
    (metadata : option JSON.value) (API_BASE_URL : string) : PaymentData :=
  {| amount := amount;
     email := email;
     metadata :=
       JSON.JObject
         (assign "userId" (JSON.JString uid)
            (spread (default (JSON.JObject []) metadata)));
     callback_url := API_BASE_URL +:+ "/api/payments/callback" |}.

(** [POST api/payments/initialize]; [paystack] answers the request to the
    provider with its body, or throws ([None]).  The route answers with an
    error of its own or forwards the provider's body. *)
Definition initialize (uid : string) (amount : option Q)
    (email : option string) (metadata : option JSON.value)
    (API_BASE_URL : string) (paystack : PaymentData → option JSON.value)
  : Response + JSON.value :=
  match amount with
  | None => inl (res_json 400 "Valid amount is required")
  | Some amount =>
    if falsy_number amount || Qle_bool amount 0
    then inl (res_json 400 "Valid amount is required")
    else if falsy email then inl (res_json 400 "Email is required")
    else
      match paystack (paymentData uid amount (default "" email) metadata
                        API_BASE_URL) with
      | Some response => inr response
      | None => inl (res_json 500 "Server error")
      end
  end.

End Initialize.

(** ** [models/Card.js] and the card routes of [routes/users.js] written
    for it (cards entered by number) *)

Module Cards.

(** [models/Card.js]; [createdAt] is left out. *)
Record t := {
  userId : string;
  cardNumber : string;
  cardHolder : string;
  expiryDate : string;
  cardType : string;
  isPrimary : bool;
  isActive : bool
}.

Definition set_isPrimary (b : bool) (c : t) : t :=
  {| userId := userId c; cardNumber := cardNumber c;
     cardHolder := cardHolder c; expiryDate := expiryDate c;
     cardType := cardType c; isPrimary := b; isActive := isActive c |}.

Definition set_isActive (b : bool) (c : t) : t :=
  {| userId := userId c; cardNumber := cardNumber c;
     cardHolder := cardHolder c; expiryDate := expiryDate c;
     cardType := cardType c; isPrimary := isPrimary c; isActive := b |}.

Definition set_cardNumber (n : string) (c : t) : t :=
  {| userId := userId c; cardNumber := n;
     cardHolder := cardHolder c; expiryDate := expiryDate c;
     cardType := cardType c; isPrimary := isPrimary c;
     isActive := isActive c |}.

(** [s.slice(-n)]: the last [n] characters, all of [s] when it is shorter. *)
Definition slice_last (n : nat) (s : string) : string :=
  String.substring (String.length s - n) n s.

(** [s.padStart(n, c)] for a filler of one character. *)
Definition padStart (n : nat) (c : ascii) (s : string) : string :=
  string_of_list_ascii (repeat c (n - String.length s)) +:+ s.

(** [this.cardNumber.slice(-4).padStart(16, "*")] *)
Definition mask (cardNumber : string) : string :=
  padStart 16 "*" (slice_last 4 cardNumber).

(** [CardSchema.pre("save")]: the number is masked when it was modified,
    as it is on a new document. *)
Definition preSave (modifiedCardNumber : bool) (c : t) : t :=
  if modifiedCardNumber then set_cardNumber (mask (cardNumber c)) c else c.

(** The validators of the schema: the four required strings. *)
Definition validate (c : t) : bool :=
  negb (falsy_string (cardNumber c)) && negb (falsy_string (cardHolder c))
  && negb (falsy_string (expiryDate c)) && negb (falsy_string (cardType c)).

(** The collection: the documents with their [_id], in insertion order. *)
Definition collection := list (string * t).

(** [check("cardNumber").isLength({ min: 16, max: 16 })] *)
Definition cardNumberOk (s : option string) : bool :=
  match s with
  | Some s => (String.length s =? 16)%nat
  | None => false
  end.

Definition between (lo hi : nat) (c : ascii) : bool :=
  (lo <=? nat_of_ascii c)%nat && (nat_of_ascii c <=? hi)%nat.

(** [\d] *)
Definition isDigit (c : ascii) : bool := between 48 57 c.

(** [check("expiryDate").matches(/^(0[1-9]|1[0-2])\/\d{2}$/)] *)
Definition expiryDateOk (s : option string) : bool :=
  match s with
  | Some (String m1 (String m2 (String sep (String y1 (String y2 "")))))  =>
    ((Ascii.eqb m1 "0" && between 49 57 m2)
     || (Ascii.eqb m1 "1" && between 48 50 m2))
    && Ascii.eqb sep "/" && isDigit y1 && isDigit y2
  | _ => false
  end.

(** [Card.updateMany({ userId }, { $set: { isPrimary: false } })] *)
Definition demote (uid : string) (cs : collection) : collection :=
  map (λ kc, if String.eqb (userId kc.2) uid
             then (kc.1, set_isPrimary false kc.2) else kc) cs.

(** [GET api/users/cards]: [Card.find({ userId, isActive: true })] *)
Definition list (uid : string) (cs : collection) : collection :=
  List.filter (λ kc, String.eqb (userId kc.2) uid && isActive kc.2) cs.

(** [POST api/users/cards]; [isPrimary] is the flag of the body ([false]
    when absent) and [newId] the [_id] of the new document.  The answer is
    an error or the saved document. *)
Definition add (uid : string)
    (cardNumber cardHolder expiryDate cardType : option string)
    (isPrimary : bool) (newId : string) (cs : collection)
  : (Response + string * t) * collection :=
  if cardNumberOk cardNumber && negb (falsy cardHolder)
     && expiryDateOk expiryDate && negb (falsy cardType)
  then
    let cs1 := if isPrimary then demote uid cs else cs in
    let card :=
      {| userId := uid;
         cardNumber := default "" cardNumber;
         cardHolder := default "" cardHolder;
         expiryDate := default "" expiryDate;
         cardType := default "" cardType;
         isPrimary := isPrimary;
         isActive := true |} in
    if validate card then
      let saved := preSave true card in
      match List.find (λ kc, String.eqb kc.1 newId) cs1 with
      | Some _ => (inl (res_send 500 "Server error"), cs1)
      | None => (inr (newId, saved), (cs1 ++ [(newId, saved)])%list)
      end
    else (inl (res_send 500 "Server error"), cs1)
  else (inl res_errors, cs).

(** [PUT api/users/cards/:id/deactivate]; [id] is a well-formed ObjectId. *)
Definition deactivate (uid id : string) (cs : collection)
  : Response * collection :=
  match List.find (λ kc, String.eqb kc.1 id && String.eqb (userId kc.2) uid) cs
  with
  | None => (res_json 404 "Card not found", cs)
  | Some _ =>
    (res_json 200 "Card deactivated successfully",
     map (λ kc, if String.eqb kc.1 id
                then (kc.1, preSave false (set_isActive false kc.2)) else kc)
       cs)
  end.

(** A request to one of the two writing routes. *)
Inductive Call :=
| Add (uid : string) (cardNumber cardHolder expiryDate cardType : option string)
    (isPrimary : bool) (newId : string)
| Deactivate (uid id : string).

Definition run (c : Call) (cs : collection) : collection :=
  match c with
  | Add uid cardNumber cardHolder expiryDate cardType isPrimary newId =>
    snd (add uid cardNumber cardHolder expiryDate cardType isPrimary newId cs)
  | Deactivate uid id => snd (deactivate uid id cs)
  end.

(** The collection after a sequence of calls, from the empty one. *)
Definition reached (calls : Datatypes.list Call) : collection :=
  foldl (λ cs c, run c cs) [] calls.

(** The primary cards of a user. *)
Definition primaries (uid : string) (cs : collection) : collection :=
  List.filter (λ kc, String.eqb (userId kc.2) uid && isPrimary kc.2) cs.

(** Every stored card number is twelve asterisks and four characters. *)
Definition masked (cs : collection) : Prop :=
  Forall (λ kc, ∃ last4, String.length last4 = 4%nat
                         ∧ cardNumber kc.2 = "************" +:+ last4) cs.

End Cards.

(** ** [routes/auth.js] with [middleware/auth.js] and the hooks of
    [models/User.js] *)

(** What [jwt.verify] gives: the [id] of the payload's [user], or a throw
    that is a [TokenExpiredError] or another error. *)
Inductive JwtVerdict :=
| jwt_user (id : string)
| jwt_TokenExpiredError
| jwt_error.

(** External primitives: [jsonwebtoken] under [process.env.JWT_SECRET], at
    the time of the call, validator.js's [isEmail] and the lower-casing of
    strings. *)
Class Jwt := {
  (** [jwt.sign({ user: { id } }, JWT_SECRET, { expiresIn: "7d" })] *)
  jwt_sign : string → Z → string;
  (** [jwt.verify(token, JWT_SECRET)] *)
  jwt_verify : string → Z → JwtVerdict
}.

Class Validator := {
  isEmail : string → bool
}.

(** External primitive: [String.prototype.toLowerCase]. *)
Class StringPrototype := {
  toLowerCase : string → string
}.

Module Auth.

(** A user document: the fields the ledger reads ([User.t]) and those of
    [models/User.js] that only the auth routes read. *)
Record Account := {
  profile : User.t;
  password : string;
  phoneNumber : string;
  accountNumber : string;
  isVerified : bool
}.

(** The collection: the documents with their [_id], in insertion order. *)
Definition accounts := list (string * Account).

Definition email (a : Account) : string := User.email (profile a).
Definition cecureTag (a : Account) : string := User.cecureTag (profile a).

(** The second pre-save hook; [random] is what [Math.random()] returned, a
    binary64 number from 0 up to but excluding 1.  The product and the sum
    are rounded as binary64 does before [Math.floor] takes the whole part,
    which a number prints as its decimal digits. *)
Definition generatedTag `{StringPrototype} (firstName lastName : string)
    (random : Q) : string :=
  "@" +:+ toLowerCase firstName +:+ toLowerCase lastName
  +:+ pretty (Qfloor (Binary64.round64 (random * 1000))).

Definition generatedAccountNumber (random : Q) : string :=
  pretty (Qfloor (Binary64.add 10000000
                    (Binary64.round64 (random * 90000000)))).

(** The answers of the routes. *)
Inductive Reply :=
| validationError              (* 400 { success: false, message: "Validation error", errors } *)
| failure (status : nat) (message : string)   (* { success: false, message } *)
| registered (token : string)  (* { success: true, token } *)
| loggedIn (token id email firstName lastName : string)
| me_user (id : string) (profile : User.t) (phoneNumber accountNumber : string)
    (isVerified : bool).

Section routes.
Context `{Bcrypt} `{Jwt} `{Validator} `{StringPrototype}.

(** [UserSchema.methods.comparePassword] *)
Definition comparePassword (a : Account) (candidatePassword : string) : bool :=
  bcrypt_compare candidatePassword (password a).

(** [User.findOne({ email })] and [User.findOne({ phoneNumber })] *)
Definition findByEmail (e : string) (db : accounts) : option (string * Account) :=
  List.find (λ ka, String.eqb (email ka.2) e) db.

Definition findByPhone (p : string) (db : accounts) : option (string * Account) :=
  List.find (λ ka, String.eqb (phoneNumber ka.2) p) db.

(** A value is already held under one of the unique indexes. *)
Definition taken (field : Account → string) (v : string) (db : accounts) : bool :=
  existsb (λ ka, String.eqb (field ka.2) v) db.

(** [await user.save()] of a new document: the hooks hash the password and
    generate the tag and the account number, then the insertion fails on a
    value held under a unique index. *)
Definition create (firstName lastName email password phoneNumber : string)
    (salt : string) (random1 random2 : Q) (newId : string) (db : accounts)
  : option accounts :=
  let a :=
    {| profile :=
         {| User.firstName := firstName; User.lastName := lastName;
            User.email := email;
            User.cecureTag := generatedTag firstName lastName random1;
            User.balance := 0;
            User.paystackCustomerCode := None;
            User.paystackVirtualAccountNumber := None;
            User.paystackTransferRecipientCode := None |};
       password := bcrypt_hash password salt;
       phoneNumber := phoneNumber;
       accountNumber := generatedAccountNumber random2;
       isVerified := true |} in
  if existsb (λ ka, String.eqb ka.1 newId) db
     || taken Auth.email email db
     || taken Auth.phoneNumber phoneNumber db
     || taken cecureTag (cecureTag a) db
     || taken accountNumber (accountNumber a) db
  then None
  else Some (db ++ [(newId, a)])%list.

(** [POST api/auth/register]; [salt] is [bcrypt.genSalt(10)], [random1]
    and [random2] the two draws of [Math.random()], [newId] the [_id] of the
    new document and [now] the time. *)
Definition register (firstName lastName email password phoneNumber : option string)
    (salt : string) (random1 random2 : Q) (newId : string) (now : Z)
    (db : accounts) : Reply * accounts :=
  match firstName, lastName, email, password, phoneNumber with
  | Some firstName, Some lastName, Some email, Some password, Some phoneNumber =>
    if falsy_string firstName || falsy_string lastName || negb (isEmail email)
       || (String.length password <? 6)%nat || falsy_string phoneNumber
    then (validationError, db)
    else
      match findByEmail email db with
      | Some _ => (failure 400 "User already exists with this email", db)
      | None =>
        match findByPhone phoneNumber db with
        | Some _ =>
          (failure 400 "User already exists with this phone number", db)
        | None =>
          match create firstName lastName email password phoneNumber salt
                  random1 random2 newId db with
          | None => (failure 500 "Server error during registration", db)
          | Some db' => (registered (jwt_sign newId now), db')
          end
        end
      end
  | _, _, _, _, _ => (validationError, db)
  end.

(** The tail shared by the two login routes. *)
Definition signIn (found : string * Account) (password : string) (now : Z)
  : Reply :=
  if comparePassword found.2 password then
    loggedIn (jwt_sign found.1 now) found.1 (Auth.email found.2)
      (User.firstName (profile found.2)) (User.lastName (profile found.2))
  else failure 400 "Invalid credentials".

(** [POST api/auth/login] *)
Definition login (email password : option string) (now : Z) (db : accounts)
  : Reply :=
  match email, password with
  | Some email, Some password =>
    if negb (isEmail email) then validationError
    else
      match findByEmail email db with
      | None => failure 400 "Invalid credentials"
      | Some found => signIn found password now
      end
  | _, _ => validationError
  end.

(** [POST api/auth/login-phone] *)
Definition loginPhone (phoneNumber password : option string) (now : Z)
    (db : accounts) : Reply :=
  match phoneNumber, password with
  | Some phoneNumber, Some password =>
    if falsy_string phoneNumber then validationError
    else
      match findByPhone phoneNumber db with
      | None => failure 400 "User not found with this phone number"
      | Some found => signIn found password now
      end
  | _, _ => validationError
  end.

(** [middleware/auth.js]: the reply that ends the request, or the [id] the
    route runs under; [token] is the header [x-auth-token]. *)
Definition authenticate (token : option string) (now : Z) : Reply + string :=
  if falsy token
  then inl (failure 401 "No authentication token, authorization denied")
  else
    match jwt_verify (default "" token) now with
    | jwt_user id => inr id
    | jwt_TokenExpiredError =>
      inl (failure 401 "Token has expired, please login again")
    | jwt_error => inl (failure 401 "Token is not valid")
    end.

(** [GET api/auth/me] behind the middleware. *)
Definition me (token : option string) (now : Z) (db : accounts) : Reply :=
  match authenticate token now with
  | inl reply => reply
  | inr id =>
    match List.find (λ ka, String.eqb ka.1 id) db with
    | None => failure 404 "User not found"
    | Some found =>
      me_user found.1 (profile found.2) (phoneNumber found.2)
        (accountNumber found.2) (isVerified found.2)
    end
  end.

(** One registration request with what it draws from outside. *)
Record Registration := {
  r_firstName : option string;
  r_lastName : option string;
  r_email : option string;
  r_password : option string;
  r_phoneNumber : option string;
  r_salt : string;
  r_random1 : Q;
  r_random2 : Q;
  r_newId : string;
  r_now : Z
}.

(** The collection after a sequence of registrations, from the empty one. *)
Definition reached (rs : Datatypes.list Registration) : accounts :=
  foldl (λ db r,
           snd (register (r_firstName r) (r_lastName r) (r_email r)
                  (r_password r) (r_phoneNumber r) (r_salt r) (r_random1 r)
                  (r_random2 r) (r_newId r) (r_now r) db))
    [] rs.

End routes.

(** No two documents agree on a field. *)
Definition distinct (field : string * Account → string) (db : accounts) : Prop :=
  NoDup (map field db).

(** Ids, emails, phone numbers, tags and account numbers are pairwise
    distinct. *)
Definition identified (db : accounts) : Prop :=
  distinct fst db
  ∧ distinct (λ ka, email ka.2) db
  ∧ distinct (λ ka, phoneNumber ka.2) db
  ∧ distinct (λ ka, cecureTag ka.2) db
  ∧ distinct (λ ka, accountNumber ka.2) db.

End Auth.

(** Stand-ins for jsonwebtoken, for [isEmail] and for [toLowerCase], used to
    run the examples: a token is a prefix, the 24 characters of the id and
    the time of issue; an email is a string with an at sign; lower-casing
    maps the letters A to Z. *)
Module AuthFixtures.

Definition lower (c : ascii) : ascii :=
  let n := nat_of_ascii c in
  if (65 <=? n)%nat && (n <=? 90)%nat then ascii_of_nat (n + 32) else c.

Fixpoint lowerAscii (s : string) : string :=
  match s with
  | EmptyString => EmptyString
  | String c r => String (lower c) (lowerAscii r)
  end.

Definition strings : StringPrototype := {| toLowerCase := lowerAscii |}.

Definition jwt : Jwt :=
  {| jwt_sign id now := "jwt." +:+ id +:+ "." +:+ pretty now;
     jwt_verify token now :=
       if String.prefix "jwt." token
       then jwt_user (String.substring 4 24 token)
       else jwt_error |}.

Definition validator : Validator :=
  {| isEmail s := existsb (Ascii.eqb "@") (list_ascii_of_string s) |}.

Definition registration : Auth.Registration :=
  {| Auth.r_firstName := Some "Chidi"; Auth.r_lastName := Some "Okafor";
     Auth.r_email := Some "chidi@example.com";
     Auth.r_password := Some "s3cret-pass";
     Auth.r_phoneNumber := Some "+2348012345678";
     Auth.r_salt := "saltsaltsalt";
     Auth.r_random1 := Binary64.round64 (417 # 1000);
     Auth.r_random2 := Binary64.round64 (1 # 3);
     Auth.r_newId := "650000000000000000000d01"; Auth.r_now := 1700000000 |}.

End AuthFixtures.

(** ** [routes/transactions.js]: the search route *)

(** External primitive: the regular expressions of the database, matched
    without regard to case ([$options: "i"]); a pattern that does not compile
    has no matcher and makes the query fail. *)
Class Regex := {
  regex_i : string → option (string → bool)
}.

Module Search.

(** The string stored for a transaction type. *)
Definition kind_name (k : Transaction.kind) : string :=
  match k with
  | Transaction.send => "send"
  | Transaction.receive => "receive"
  | Transaction.deposit => "deposit"
  | Transaction.withdraw => "withdraw"
  | Transaction.wishlist => "wishlist"
  | Transaction.withdrawal => "withdrawal"
  end.

(** [req.query] *)
Record Query := {
  query : option string;
  type : option string;
  dateRange : option string;
  amountRange : option string
}.

(** The three dates the route derives from the clock: the start of today,
    seven days ago and one month ago. *)
Record Clock := {
  today : Z;
  weekAgo : Z;
  monthAgo : Z
}.

(** The [filter] object the route builds. *)
Record Filter := {
  userId : string;
  or_regex : option string;        (* $or of four $regex on one pattern *)
  transactionType : option string;
  createdAt_gte : option Z;
  amount_gte : option Q;
  amount_lt : option Q
}.

(** A stored record with its reference and its creation date. *)
Record Doc := {
  reference : string;
  record : Transaction.t;
  createdAt : Z
}.

(** [x === v] *)
Definition equals (x : option string) (v : string) : bool :=
  match x with
  | Some s => String.eqb s v
  | None => false
  end.

(** [x && x !== "all"] *)
Definition given (x : option string) : bool :=
  negb (falsy x) && negb (equals x "all").

Definition filterOf (uid : string) (q : Query) (clock : Clock) : Filter :=
  {| userId := uid;
     or_regex := if falsy (query q) then None else query q;
     transactionType := if given (type q) then type q else None;
     createdAt_gte :=
       if given (dateRange q) then
         if equals (dateRange q) "today" then Some (today clock)
         else if equals (dateRange q) "week" then Some (weekAgo clock)
         else if equals (dateRange q) "month" then Some (monthAgo clock)
         else None
       else None;
     amount_gte :=
       if given (amountRange q) then
         if equals (amountRange q) "small" then None
         else if equals (amountRange q) "medium" then Some 1000%Q
         else if equals (amountRange q) "large" then Some 5000%Q
         else None
       else None;
     amount_lt :=
       if given (amountRange q) then
         if equals (amountRange q) "small" then Some 1000%Q
         else if equals (amountRange q) "medium" then Some 5000%Q
         else None
       else None |}.

(** A [$regex] condition on a field that may be missing. *)
Definition fieldMatches (m : string → bool) (field : option string) : bool :=
  match field with
  | Some s => m s
  | None => false
  end.

(** The documents a filter selects; [m] is the matcher of [or_regex]. *)
Definition selects (m : option (string → bool)) (f : Filter) (d : Doc) : bool :=
  String.eqb (Transaction.userId (record d)) (userId f)
  && match m with
     | Some m =>
       fieldMatches m (Transaction.purpose (record d))
       || fieldMatches m (Transaction.recipientName (record d))
       || fieldMatches m (Transaction.recipientCecureTag (record d))
       || m (reference d)
     | None => true
     end
  && match transactionType f with
     | Some t =>
       String.eqb (kind_name (Transaction.transactionType (record d))) t
     | None => true
     end
  && match createdAt_gte f with
     | Some t => (t <=? createdAt d)%Z
     | None => true
     end
  && match amount_gte f with
     | Some a => Qle_bool a (Transaction.amount (record d))
     | None => true
     end
  && match amount_lt f with
     | Some a => Qlt_bool (Transaction.amount (record d)) a
     | None => true
     end.

(** [.sort({ createdAt: -1 })]: latest first; documents of one date keep
    their order. *)
Fixpoint insertByDate (d : Doc) (l : list Doc) : list Doc :=
  match l with
  | [] => [d]
  | x :: r =>
    if (createdAt x <=? createdAt d)%Z then d :: x :: r else x :: insertByDate d r
  end.

Definition sortLatestFirst (l : list Doc) : list Doc :=
  foldr insertByDate [] l.

(** The order of the answer: latest first. *)
Definition latestFirst (a b : Doc) : Prop := (createdAt b ≤ createdAt a)%Z.

(** [GET api/transactions/search] *)
Definition search `{Regex} (uid : string) (q : Query) (clock : Clock)
    (docs : list Doc) : Response + list Doc :=
  let filter := filterOf uid q clock in
  match or_regex filter with
  | Some pattern =>
    match regex_i pattern with
    | Some m => inr (sortLatestFirst (List.filter (selects (Some m) filter) docs))
    | None => inl (res_send 500 "Server error")
    end
  | None => inr (sortLatestFirst (List.filter (selects None filter) docs))
  end.

(** A search by amount range only. *)
Definition byAmount (range : option string) : Query :=
  {| query := None; type := None; dateRange := None; amountRange := range |}.

End Search.

(** A stand-in for the database's regular expressions, used to run the
    examples: a pattern with an opening parenthesis does not compile, any
    other matches the texts that contain it. *)
Module SearchFixtures.

Definition regex : Regex :=
  {| regex_i pattern :=
       match String.index 0 "(" pattern with
       | Some _ => None
       | None =>
         Some (λ text, match String.index 0 pattern text with
                       | Some _ => true
                       | None => false
                       end)
       end |}.

Definition doc (reference owner : string) (amount : Q) (createdAt : Z)
  : Search.Doc :=
  {| Search.reference := reference;
     Search.record :=
       Payments.record owner Transaction.deposit amount Transaction.successful
         "Deposit via Paystack" None None;
     Search.createdAt := createdAt |}.

Definition docs : list Search.Doc :=
  [doc "PAY-1" Sample.A 250 1700000100; doc "PAY-2" Sample.B 990 1700000200;
   doc "PAY-3" Sample.A 1000 1700000300; doc "PAY-4" Sample.A 7500 1700000400].

Definition clock : Search.Clock :=
  {| Search.today := 1699999200; Search.weekAgo := 1699395600;
     Search.monthAgo := 1697321200 |}.

End SearchFixtures.

(** * Properties *)

Example stringify_transfer_event :
  JSON.stringify (Sample.transferEvent "transfer.failed" "TRF_1" 10000)
  = "{" +:+ JSON.quote +:+ "event" +:+ JSON.quote +:+ ":"
    +:+ JSON.quote +:+ "transfer.failed" +:+ JSON.quote +:+ ","
    +:+ JSON.quote +:+ "data" +:+ JSON.quote +:+ ":{"
    +:+ JSON.quote +:+ "reference" +:+ JSON.quote +:+ ":"
    +:+ JSON.quote +:+ "TRF_1" +:+ JSON.quote +:+ ","
    +:+ JSON.quote +:+ "amount" +:+ JSON.quote +:+ ":10000,"
    +:+ JSON.quote +:+ "reason" +:+ JSON.quote +:+ ":"
    +:+ JSON.quote +:+ "Could not be processed" +:+ JSON.quote +:+ "}}".
Proof. vm_compute. reflexivity. Qed.

(** The digest agrees with the published test vector of HMAC-SHA512. *)
Example hmac_sha512_test_vector :
  HMAC.sha512_hex "key" "The quick brown fox jumps over the lazy dog"
  = "b42af09057bac1e2d41708e48a902e09b5ff7f12ab428a4fe86653c73dd248fb"
    +:+ "82f948a549f7b791a5b41915ee4d1ec3935357e4e2317250d0372afa2ebeeb3a".
Proof. vm_compute. reflexivity. Qed.

Example sha512_abc :
  HMAC.hex (SHA512.digest (HMAC.bytes "abc"))
  = "ddaf35a193617abacc417349ae20413112e6fa4e89a97ea20a9eeee64b55d39a"
    +:+ "2192992a274fc1a836ba3c23a3feebbd454d4423643ce80e2a9ac94fa54ca49f".
Proof. vm_compute. reflexivity. Qed.

(** ** Rounding to binary64 *)

Section binary64.
#[local] Open Scope Q_scope.

Lemma pow2_pos (e : Z) : 0 < 2 ^ e.
Proof. now apply Qpower_0_lt. Qed.

Lemma pow2_plus (a b : Z) : 2 ^ (a + b) == 2 ^ a * 2 ^ b.
Proof. now apply Qpower_plus. Qed.

Lemma pow2_le (a b : Z) : (a <= b)%Z -> 2 ^ a <= 2 ^ b.
Proof. intros L. now apply Qpower_le_compat_l. Qed.

Lemma pow2_lt (a b : Z) : (a < b)%Z -> 2 ^ a < 2 ^ b.
Proof. intros L. now apply Qpower_lt_compat_l. Qed.

Lemma pow2_lt_inv (a b : Z) : 2 ^ a < 2 ^ b -> (a < b)%Z.
Proof. intros L. now apply (Qpower_lt_compat_l_inv 2). Qed.

Lemma pow2_Z (a : Z) : (0 <= a)%Z -> 2 ^ a == inject_Z (2 ^ a).
Proof. intros L. now rewrite Zpower_Qpower. Qed.

Lemma pow2_minus (a b : Z) : 2 ^ (a - b) == 2 ^ a / 2 ^ b.
Proof.
  unfold Z.sub. rewrite pow2_plus, Qpower_opp. reflexivity.
Qed.

(** Dividing by a power of two is multiplying by the opposite power. *)
Lemma div_pow2 (x : Q) (q : Z) : x / 2 ^ q == x * 2 ^ (- q).
Proof. now rewrite Qpower_opp. Qed.

Lemma Qmake_div (n : Z) (d : positive) : n # d == inject_Z n / inject_Z (Zpos d).
Proof. now rewrite Qmake_Qdiv. Qed.

(** The leading bit of a positive rational. *)
Lemma exponent_spec (x : Q) :
  0 < x -> 2 ^ Binary64.exponent x <= x /\ x < 2 ^ (Binary64.exponent x + 1).
Proof.
  intros Px. unfold Binary64.exponent.
  destruct x as [n d]. cbn [Qnum Qden].
  assert (Pn : (0 < n)%Z).
  { unfold Qlt in Px. simpl in Px. lia. }
  set (a := Z.log2 n). set (b := Z.log2 (Zpos d)).
  assert (A : (2 ^ a <= n < 2 ^ (a + 1))%Z).
  { unfold a. replace (Z.log2 n + 1)%Z with (Z.succ (Z.log2 n)) by lia.
    now apply Z.log2_spec. }
  assert (B : (2 ^ b <= Zpos d < 2 ^ (b + 1))%Z).
  { unfold b. replace (Z.log2 (Zpos d) + 1)%Z with (Z.succ (Z.log2 (Zpos d))) by lia.
    now apply Z.log2_spec. }
  assert (Na : (0 <= a)%Z) by apply Z.log2_nonneg.
  assert (Nb : (0 <= b)%Z) by apply Z.log2_nonneg.
  assert (Pd : 0 < inject_Z (Zpos d)) by reflexivity.
  assert (Ea : 2 ^ a == 2 ^ (a - b) * 2 ^ b).
  { rewrite <- pow2_plus. now replace (a - b + b)%Z with a by lia. }
  assert (Ea1 : 2 ^ (a + 1) == 2 ^ (a - b + 1) * 2 ^ b).
  { rewrite <- pow2_plus. now replace (a - b + 1 + b)%Z with (a + 1)%Z by lia. }
  assert (Ea' : 2 ^ a == 2 ^ (a - b - 1) * 2 ^ (b + 1)).
  { rewrite <- pow2_plus. now replace (a - b - 1 + (b + 1))%Z with a by lia. }
  assert (Qa : 2 ^ a <= inject_Z n /\ inject_Z n < 2 ^ (a + 1)).
  { rewrite !pow2_Z by lia. rewrite <- Zle_Qle, <- Zlt_Qlt. exact A. }
  assert (Qb : 2 ^ b <= inject_Z (Zpos d) /\ inject_Z (Zpos d) < 2 ^ (b + 1)).
  { rewrite !pow2_Z by lia. rewrite <- Zle_Qle, <- Zlt_Qlt. exact B. }
  assert (X : n # d == inject_Z n / inject_Z (Zpos d)) by apply Qmake_div.
  assert (Up : n # d < 2 ^ (a - b + 1)).
  { rewrite X. apply Qlt_shift_div_r; [exact Pd|].
    eapply Qlt_le_trans; [apply Qa|]. rewrite Ea1.
    apply Qmult_le_l; [apply pow2_pos | apply Qb]. }
  assert (Lo : 2 ^ (a - b - 1) < n # d).
  { rewrite X. apply Qlt_shift_div_l; [exact Pd|].
    eapply Qlt_le_trans; [|apply Qa]. rewrite Ea'.
    apply Qmult_lt_l; [apply pow2_pos | apply Qb]. }
  destruct (Qle_bool (2 ^ (a - b)) (n # d)) eqn:E.
  - apply Qle_bool_iff in E. split; [exact E | exact Up].
  - split; [now apply Qlt_le_weak|].
    replace (a - b - 1 + 1)%Z with (a - b)%Z by lia.
    apply Qnot_le_lt. intros L. apply Qle_bool_iff in L. congruence.
Qed.

Lemma exponent_unique (x : Q) (e : Z) :
  2 ^ e <= x -> x < 2 ^ (e + 1) -> Binary64.exponent x = e.
Proof.
  intros Lo Up.
  assert (Px : 0 < x) by (eapply Qlt_le_trans; [apply (pow2_pos e) | exact Lo]).
  destruct (exponent_spec x Px) as [Lo' Up'].
  assert (e < Binary64.exponent x + 1)%Z.
  { apply pow2_lt_inv. eapply Qle_lt_trans; [exact Lo | exact Up']. }
  assert (Binary64.exponent x < e + 1)%Z.
  { apply pow2_lt_inv. eapply Qle_lt_trans; [exact Lo' | exact Up]. }
  lia.
Qed.

Lemma exponent_le (x y : Q) :
  0 < x -> x <= y -> (Binary64.exponent x <= Binary64.exponent y)%Z.
Proof.
  intros Px L.
  assert (Py : 0 < y) by (eapply Qlt_le_trans; eassumption).
  destruct (exponent_spec x Px) as [Lx _], (exponent_spec y Py) as [_ Uy].
  assert (Binary64.exponent x < Binary64.exponent y + 1)%Z; [|lia].
  apply pow2_lt_inv. eapply Qle_lt_trans; [exact Lx|].
  eapply Qle_lt_trans; [exact L | exact Uy].
Qed.

Lemma Qfloor_unique (x : Q) (z : Z) :
  inject_Z z <= x -> x < inject_Z (z + 1) -> Qfloor x = z.
Proof.
  intros Lo Up.
  pose proof (Qfloor_le x) as Fl. pose proof (Qlt_floor x) as Fu.
  assert (z < Qfloor x + 1)%Z.
  { rewrite Zlt_Qlt. eapply Qle_lt_trans; eassumption. }
  assert (Qfloor x < z + 1)%Z.
  { rewrite Zlt_Qlt. eapply Qle_lt_trans; eassumption. }
  lia.
Qed.

(** The fractional part of a number, from 0 up to 1. *)
Lemma fraction_bounds (x : Q) :
  0 <= x - inject_Z (Qfloor x) /\ x - inject_Z (Qfloor x) < 1.
Proof.
  pose proof (Qfloor_le x) as Fl. pose proof (Qlt_floor x) as Fu.
  rewrite inject_Z_plus in Fu. change (inject_Z 1) with 1 in Fu. lra.
Qed.

Lemma roundHalfEven_cases (x : Q) :
  Binary64.roundHalfEven x = Qfloor x
  \/ Binary64.roundHalfEven x = (Qfloor x + 1)%Z.
Proof.
  unfold Binary64.roundHalfEven.
  destruct (Qcompare _ _); [destruct (Z.even _)| |]; auto.
Qed.

Lemma roundHalfEven_comp (x y : Q) :
  x == y -> Binary64.roundHalfEven x = Binary64.roundHalfEven y.
Proof.
  intros E. unfold Binary64.roundHalfEven.
  assert (F : Qfloor x = Qfloor y) by now apply Qfloor_comp.
  rewrite F.
  assert (C : Qcompare (x - inject_Z (Qfloor y)) (1 # 2)
              = Qcompare (y - inject_Z (Qfloor y)) (1 # 2)).
  { apply Qcompare_comp; [|reflexivity]. now rewrite E. }
  now rewrite C.
Qed.

Lemma roundHalfEven_Z (n : Z) : Binary64.roundHalfEven (inject_Z n) = n.
Proof.
  unfold Binary64.roundHalfEven. rewrite Qfloor_Z.
  assert (E : inject_Z n - inject_Z n < 1 # 2) by lra.
  rewrite Qlt_alt in E. now rewrite E.
Qed.

Lemma roundHalfEven_mono (x y : Q) :
  x <= y -> (Binary64.roundHalfEven x <= Binary64.roundHalfEven y)%Z.
Proof.
  intros L. pose proof (Qfloor_resp_le x y L) as F.
  destruct (Z.eq_dec (Qfloor x) (Qfloor y)) as [E|N].
  - unfold Binary64.roundHalfEven. rewrite <- E.
    destruct (Qcompare_spec (x - inject_Z (Qfloor x)) (1 # 2)) as [Cx|Cx|Cx];
      destruct (Qcompare_spec (y - inject_Z (Qfloor x)) (1 # 2)) as [Cy|Cy|Cy];
      try destruct (Z.even (Qfloor x)); try lia; lra.
  - destruct (roundHalfEven_cases x) as [-> | ->],
      (roundHalfEven_cases y) as [-> | ->]; lia.
Qed.

Lemma roundHalfEven_opp (x : Q) :
  Binary64.roundHalfEven (- x) = (- Binary64.roundHalfEven x)%Z.
Proof.
  destruct (fraction_bounds x) as [F0 F1].
  set (f := Qfloor x) in *.
  destruct (Qeq_dec (x - inject_Z f) 0) as [Z0|NZ].
  - (* x is an integer *)
    assert (Ex : x == inject_Z f) by lra.
    assert (Eo : - x == inject_Z (- f)) by (rewrite inject_Z_opp; lra).
    unfold Binary64.roundHalfEven at 2. fold f.
    assert (C : x - inject_Z f < 1 # 2) by lra.
    rewrite Qlt_alt in C. rewrite C.
    rewrite (roundHalfEven_comp _ _ Eo). apply roundHalfEven_Z.
  - assert (Ei : inject_Z (- f - 1) == - inject_Z f - 1).
    { unfold Z.sub. rewrite inject_Z_plus, !inject_Z_opp. reflexivity. }
    assert (G : Qfloor (- x) = (- f - 1)%Z).
    { apply Qfloor_unique.
      - rewrite Ei. lra.
      - replace (- f - 1 + 1)%Z with (- f)%Z by lia. rewrite inject_Z_opp. lra. }
    unfold Binary64.roundHalfEven. rewrite G. fold f.
    destruct (Qcompare_spec (x - inject_Z f) (1 # 2)) as [Cx|Cx|Cx];
      destruct (Qcompare_spec (- x - inject_Z (- f - 1)) (1 # 2)) as [Cy|Cy|Cy];
      rewrite ?Ei in Cy; try lra; try lia.
    replace (- f - 1)%Z with (- (f + 1))%Z by lia.
    rewrite Z.even_opp.
    replace (f + 1)%Z with (Z.succ f) by lia. rewrite Z.even_succ.
    rewrite <- Z.negb_even. destruct (Z.even f); simpl; lia.
Qed.

Lemma roundHalfEven_nonneg (x : Q) : 0 <= x -> (0 <= Binary64.roundHalfEven x)%Z.
Proof.
  intros L. rewrite <- (roundHalfEven_Z 0). now apply roundHalfEven_mono.
Qed.

Lemma roundHalfEven_le_pow2 (x : Q) (k : Z) :
  (0 <= k)%Z -> x <= 2 ^ k -> inject_Z (Binary64.roundHalfEven x) <= 2 ^ k.
Proof.
  intros Nk L. rewrite pow2_Z in L |- * by exact Nk.
  rewrite <- Zle_Qle. rewrite <- (roundHalfEven_Z (2 ^ k)).
  now apply roundHalfEven_mono.
Qed.

Lemma roundHalfEven_ge_pow2 (x : Q) (k : Z) :
  (0 <= k)%Z -> 2 ^ k <= x -> 2 ^ k <= inject_Z (Binary64.roundHalfEven x).
Proof.
  intros Nk L. rewrite pow2_Z in L |- * by exact Nk.
  rewrite <- Zle_Qle. rewrite <- (roundHalfEven_Z (2 ^ k)) at 1.
  now apply roundHalfEven_mono.
Qed.

Lemma Qabs_pos_eq (x : Q) : 0 < x -> Qabs x = x.
Proof.
  destruct x as [n d]. unfold Qlt, Qabs. simpl. intros P.
  f_equal. apply Z.abs_eq. lia.
Qed.

Lemma Qabs_opp_eq (x : Q) : Qabs (- x) = Qabs x.
Proof. destruct x as [n d]. unfold Qabs, Qopp. simpl. now rewrite Z.abs_opp. Qed.

Lemma round64_eq (x : Q) :
  Binary64.round64 x
  == inject_Z (Binary64.roundHalfEven (x / 2 ^ Binary64.ulpExponent x))
     * 2 ^ Binary64.ulpExponent x.
Proof. unfold Binary64.round64. apply Qred_correct. Qed.

Lemma round64_zero (x : Q) : x == 0 -> Binary64.round64 x = 0.
Proof.
  intros E. unfold Binary64.round64.
  change 0 with (Qred 0). apply Qred_complete.
  assert (Z0 : x / 2 ^ Binary64.ulpExponent x == inject_Z 0).
  { generalize (2 ^ Binary64.ulpExponent x). intros c.
    rewrite E. unfold Qdiv. now rewrite Qmult_0_l. }
  rewrite (roundHalfEven_comp _ _ Z0), roundHalfEven_Z.
  now rewrite Qmult_0_l.
Qed.

Lemma ulpExponent_pos (x : Q) :
  0 < x -> Binary64.ulpExponent x = Z.max (Binary64.exponent x - 52) (-1074).
Proof. intros P. unfold Binary64.ulpExponent. now rewrite Qabs_pos_eq. Qed.

Lemma exponent_comp (x y : Q) :
  0 < x -> x == y -> Binary64.exponent x = Binary64.exponent y.
Proof.
  intros P E. assert (Py : 0 < y) by now rewrite <- E.
  destruct (exponent_spec y Py) as [Lo Up].
  apply exponent_unique; now rewrite E.
Qed.

Lemma ulpExponent_comp (x y : Q) :
  ~ x == 0 -> x == y -> Binary64.ulpExponent x = Binary64.ulpExponent y.
Proof.
  intros NZ E. unfold Binary64.ulpExponent. f_equal. f_equal.
  assert (Ea : Qabs x == Qabs y) by now rewrite E.
  apply exponent_comp; [|exact Ea].
  destruct (Q_dec x 0) as [[L|G]|Z0]; [| |contradiction].
  - rewrite Qabs_neg by lra. lra.
  - rewrite Qabs_pos by lra. lra.
Qed.

(** Rounding does not depend on how the rational is written. *)
Lemma round64_comp (x y : Q) : x == y -> Binary64.round64 x = Binary64.round64 y.
Proof.
  intros E. destruct (Qeq_dec x 0) as [Z0|NZ].
  - rewrite (round64_zero x Z0). symmetry. apply round64_zero. now rewrite <- E.
  - unfold Binary64.round64. apply Qred_complete.
    rewrite <- (ulpExponent_comp x y NZ E).
    assert (D : x / 2 ^ Binary64.ulpExponent x == y / 2 ^ Binary64.ulpExponent x).
    { generalize (2 ^ Binary64.ulpExponent x). intros c. now rewrite E. }
    now rewrite (roundHalfEven_comp _ _ D).
Qed.

#[global] Instance round64_wd : Proper (Qeq ==> Qeq) Binary64.round64.
Proof. intros x y E. now rewrite (round64_comp x y E). Qed.

Lemma round64_opp (x : Q) : Binary64.round64 (- x) == - Binary64.round64 x.
Proof.
  rewrite !round64_eq.
  assert (Eu : Binary64.ulpExponent (- x) = Binary64.ulpExponent x).
  { unfold Binary64.ulpExponent. now rewrite Qabs_opp_eq. }
  rewrite Eu.
  assert (D : - x / 2 ^ Binary64.ulpExponent x
              == - (x / 2 ^ Binary64.ulpExponent x)).
  { unfold Qdiv. ring. }
  rewrite (roundHalfEven_comp _ _ D), roundHalfEven_opp, inject_Z_opp. ring.
Qed.

Lemma round64_nonneg (x : Q) : 0 <= x -> 0 <= Binary64.round64 x.
Proof.
  intros P. rewrite round64_eq. apply Qmult_le_0_compat.
  - change 0 with (inject_Z 0). rewrite <- Zle_Qle.
    apply roundHalfEven_nonneg. apply Qle_shift_div_l; [apply pow2_pos|].
    now rewrite Qmult_0_l.
  - apply Qlt_le_weak, pow2_pos.
Qed.

Lemma round64_mono_pos (x y : Q) :
  0 < x -> x <= y -> Binary64.round64 x <= Binary64.round64 y.
Proof.
  intros Px L. assert (Py : 0 < y) by (eapply Qlt_le_trans; eassumption).
  rewrite !round64_eq, (ulpExponent_pos x Px), (ulpExponent_pos y Py).
  pose proof (exponent_le x y Px L) as Le.
  destruct (exponent_spec x Px) as [_ Ux], (exponent_spec y Py) as [Ly _].
  set (ex := Binary64.exponent x) in *. set (ey := Binary64.exponent y) in *.
  set (qx := Z.max (ex - 52) (-1074)). set (qy := Z.max (ey - 52) (-1074)).
  assert (Lq : (qx <= qy)%Z) by lia.
  destruct (Z.eq_dec qx qy) as [E|N].
  - rewrite <- E. apply Qmult_le_compat_r; [|apply Qlt_le_weak, pow2_pos].
    rewrite <- Zle_Qle. apply roundHalfEven_mono.
    apply Qmult_le_compat_r; [exact L|].
    apply Qlt_le_weak, Qinv_lt_0_compat, pow2_pos.
  - assert (Eqy : qy = (ey - 52)%Z) by lia.
    assert (Lt : (ex < ey)%Z) by lia.
    apply Qle_trans with (2 ^ ey).
    + (* the smaller number rounds to at most the next power of two *)
      assert (Ey : 2 ^ ey == 2 ^ (ey - qx) * 2 ^ qx).
      { rewrite <- pow2_plus. now replace (ey - qx + qx)%Z with ey by lia. }
      rewrite Ey.
      apply Qmult_le_compat_r; [|apply Qlt_le_weak, pow2_pos].
      apply roundHalfEven_le_pow2; [lia|].
      rewrite pow2_minus. apply Qmult_le_compat_r;
        [|apply Qlt_le_weak, Qinv_lt_0_compat, pow2_pos].
      apply Qlt_le_weak. eapply Qlt_le_trans; [exact Ux|].
      apply pow2_le. lia.
    + (* the larger one to at least its leading power of two *)
      assert (Ey : 2 ^ ey == 2 ^ (ey - qy) * 2 ^ qy).
      { rewrite <- pow2_plus. now replace (ey - qy + qy)%Z with ey by lia. }
      rewrite Ey.
      apply Qmult_le_compat_r; [|apply Qlt_le_weak, pow2_pos].
      apply roundHalfEven_ge_pow2; [lia|].
      rewrite pow2_minus. apply Qmult_le_compat_r;
        [exact Ly | apply Qlt_le_weak, Qinv_lt_0_compat, pow2_pos].
Qed.

(** Rounding is monotone. *)
Theorem round64_mono (x y : Q) :
  x <= y -> Binary64.round64 x <= Binary64.round64 y.
Proof.
  intros L.
  destruct (Qlt_le_dec 0 x) as [Px|Nx]; [now apply round64_mono_pos|].
  destruct (Qlt_le_dec y 0) as [Ny|Py].
  - (* both negative: by symmetry *)
    assert (M : Binary64.round64 (- y) <= Binary64.round64 (- x)).
    { apply round64_mono_pos; lra. }
    rewrite !round64_opp in M. lra.
  - apply Qle_trans with 0; [|now apply round64_nonneg].
    assert (M : 0 <= Binary64.round64 (- x)) by (apply round64_nonneg; lra).
    rewrite round64_opp in M. lra.
Qed.

(** A number of at most 53 significant bits, with an exponent the format
    has, rounds to itself. *)
Theorem round64_exact (m k : Z) :
  (Z.abs m < 2 ^ 53)%Z -> (-1074 <= k)%Z ->
  Binary64.round64 (inject_Z m * 2 ^ k) == inject_Z m * 2 ^ k.
Proof.
  assert (P : forall m, (0 < m < 2 ^ 53)%Z -> (-1074 <= k)%Z ->
            Binary64.round64 (inject_Z m * 2 ^ k) == inject_Z m * 2 ^ k).
  { clear m. intros m [Pm Lm] Lk.
    set (x := inject_Z m * 2 ^ k).
    assert (Px : 0 < x).
    { apply Qmult_lt_0_compat; [|apply pow2_pos].
      change 0 with (inject_Z 0). now rewrite <- Zlt_Qlt. }
    rewrite round64_eq, (ulpExponent_pos x Px).
    destruct (exponent_spec x Px) as [Lo _].
    set (e := Binary64.exponent x) in *. set (q := Z.max (e - 52) (-1074)).
    assert (Ux : x < 2 ^ (53 + k)).
    { unfold x. rewrite pow2_plus. apply Qmult_lt_compat_r; [apply pow2_pos|].
      rewrite pow2_Z by lia. now rewrite <- Zlt_Qlt. }
    assert (Le : (e < 53 + k)%Z).
    { apply pow2_lt_inv. eapply Qle_lt_trans; eassumption. }
    assert (Lq : (q <= k)%Z) by lia.
    assert (D : x / 2 ^ q == inject_Z (m * 2 ^ (k - q))).
    { unfold x. rewrite inject_Z_mult, <- pow2_Z by lia.
      rewrite pow2_minus. unfold Qdiv. ring. }
    rewrite (roundHalfEven_comp _ _ D), roundHalfEven_Z.
    rewrite inject_Z_mult, <- pow2_Z by lia. rewrite pow2_minus.
    unfold x. field. apply Qnot_eq_sym, Qlt_not_eq, pow2_pos. }
  intros Lm Lk. destruct (Z.lt_trichotomy m 0) as [N|[->|Pm]].
  - assert (E : inject_Z m * 2 ^ k == - (inject_Z (- m) * 2 ^ k)).
    { rewrite inject_Z_opp. ring. }
    rewrite E, round64_opp. apply Qopp_comp. apply P; lia.
  - rewrite Qmult_0_l. now rewrite round64_zero.
  - apply P; lia.
Qed.

(** The whole numbers up to 2^53 are binary64 numbers. *)
Corollary round64_Z (n : Z) :
  (Z.abs n <= 2 ^ 53)%Z -> Binary64.round64 (inject_Z n) == inject_Z n.
Proof.
  intros L. destruct (Z.eq_dec (Z.abs n) (2 ^ 53)%Z) as [E|N].
  - assert (En : n = (Z.sgn n * 2 ^ 52 * 2)%Z) by lia.
    assert (X : inject_Z n == inject_Z (Z.sgn n * 2 ^ 52) * 2 ^ 1).
    { rewrite En at 1. rewrite inject_Z_mult. reflexivity. }
    rewrite X. apply round64_exact; lia.
  - assert (X : inject_Z n == inject_Z n * 2 ^ 0) by (simpl; ring).
    rewrite X at 1. rewrite round64_exact by lia. simpl. ring.
Qed.

(** What rounding gives is a number of the format: at most 53 significant
    bits, times a power of two from 2^-1074 on. *)
Lemma round64_mantissa (x : Q) :
  0 < x ->
  exists m : Z,
    (0 <= m <= 2 ^ 53)%Z
    /\ Binary64.round64 x == inject_Z m * 2 ^ Binary64.ulpExponent x.
Proof.
  intros Px. exists (Binary64.roundHalfEven (x / 2 ^ Binary64.ulpExponent x)).
  split; [|apply round64_eq].
  rewrite (ulpExponent_pos x Px).
  destruct (exponent_spec x Px) as [_ Ux].
  set (e := Binary64.exponent x) in *. set (q := Z.max (e - 52) (-1074)).
  split.
  - apply roundHalfEven_nonneg. apply Qle_shift_div_l; [apply pow2_pos|].
    rewrite Qmult_0_l. now apply Qlt_le_weak.
  - rewrite Zle_Qle, <- pow2_Z by lia. apply roundHalfEven_le_pow2; [lia|].
    apply Qle_shift_div_r; [apply pow2_pos|]. rewrite <- pow2_plus.
    apply Qlt_le_weak. eapply Qlt_le_trans; [exact Ux|]. apply pow2_le. lia.
Qed.

(** Rounding twice is rounding once. *)
Theorem round64_idempotent (x : Q) :
  Binary64.round64 (Binary64.round64 x) == Binary64.round64 x.
Proof.
  assert (P : forall x, 0 < x ->
            Binary64.round64 (Binary64.round64 x) == Binary64.round64 x).
  { clear x. intros x Px. destruct (round64_mantissa x Px) as (m & [M0 M1] & E).
    assert (Lq : (-1074 <= Binary64.ulpExponent x)%Z).
    { unfold Binary64.ulpExponent. lia. }
    rewrite E. destruct (Z.eq_dec m (2 ^ 53)%Z) as [->|N].
    - assert (X : inject_Z (2 ^ 53) * 2 ^ Binary64.ulpExponent x
                  == inject_Z (2 ^ 52) * 2 ^ (Binary64.ulpExponent x + 1)).
      { rewrite pow2_plus. change (inject_Z (2 ^ 53)) with (inject_Z (2 ^ 52) * 2).
        change (2 ^ 1) with 2. ring. }
      rewrite X. apply round64_exact; lia.
    - apply round64_exact; lia. }
  destruct (Q_dec x 0) as [[N|Px]|Z0].
  - assert (M : Binary64.round64 (Binary64.round64 (- x))
                == Binary64.round64 (- x)) by (apply P; lra).
    rewrite !round64_opp in M. lra.
  - now apply P.
  - rewrite (round64_zero x Z0). reflexivity.
Qed.

(** The binary64 numbers below 1 end at 1 - 2^-53. *)
Lemma binary64_below_one (x : Q) :
  Binary64.round64 x == x -> x < 1 -> x <= 1 - 2 ^ (-53).
Proof.
  intros R L. destruct (Qlt_le_dec x (1 # 2)) as [S|G].
  - apply Qlt_le_weak. eapply Qlt_le_trans; [exact S|]. now vm_compute.
  - assert (Px : 0 < x) by lra.
    assert (Ee : Binary64.exponent x = (-1)%Z).
    { apply exponent_unique; [exact G | exact L]. }
    destruct (round64_mantissa x Px) as (m & [M0 M1] & E).
    rewrite (ulpExponent_pos x Px), Ee in E. change (Z.max (-1 - 52) (-1074)) with (-53)%Z in E.
    rewrite R in E.
    assert (Lm : (m < 2 ^ 53)%Z).
    { rewrite Zlt_Qlt. rewrite E in L.
      apply Qmult_lt_r with (2 ^ (-53)); [apply pow2_pos|].
      eapply Qlt_le_trans; [exact L|]. now vm_compute. }
    rewrite E.
    assert (T : 1 - 2 ^ (-53) == inject_Z (2 ^ 53 - 1) * 2 ^ (-53)) by now vm_compute.
    rewrite T. apply Qmult_le_compat_r; [|apply Qlt_le_weak, pow2_pos].
    rewrite <- Zle_Qle. lia.
Qed.

End binary64.

(** [Binary64.round64] against the library's binary64 operations, on the
    numbers of the scenarios below: the sum 2^53 - 24 + 25, the literals
    0.57, 0.417, 1/3 and 10^-18, and the products and sums the user schema
    computes from a draw. *)
Example round64_agrees_with_SpecFloat :
  Binary64.toQ (Binary64.SFadd (Binary64.ofZ 9007199254740968) (Binary64.ofZ 25))
  = Binary64.add 9007199254740968 25
  ∧ Binary64.toQ (Binary64.literal 57 100) = Binary64.round64 (57 # 100)
  ∧ Binary64.toQ (Binary64.literal 417 1000) = Binary64.round64 (417 # 1000)
  ∧ Binary64.toQ (Binary64.literal 1 3) = Binary64.round64 (1 # 3)
  ∧ Binary64.toQ (Binary64.SFmul (Binary64.literal 57 100) (Binary64.ofZ 1000))
    = Binary64.round64 (Binary64.round64 (57 # 100) * 1000)
  ∧ Binary64.toQ
      (Binary64.SFadd (Binary64.ofZ 10000000)
         (Binary64.SFmul (Binary64.literal 57 100) (Binary64.ofZ 90000000)))
    = Binary64.add 10000000
        (Binary64.round64 (Binary64.round64 (57 # 100) * 90000000))
  ∧ Binary64.toQ
      (Binary64.SFadd (Binary64.literal 1 1000000000000000000)
         (Binary64.ofZ 25))
    = Binary64.add (Binary64.round64 (1 # 1000000000000000000)) 25
  ∧ Binary64.toQ
      (Binary64.SFadd (Binary64.literal 1 10) (Binary64.literal 2 10))
    = Binary64.add (Binary64.round64 (1 # 10)) (Binary64.round64 (2 # 10))
  ∧ Binary64.add (Binary64.round64 (1 # 10)) (Binary64.round64 (2 # 10))
    = (1351079888211149 # 4503599627370496)%Q.
Proof. vm_compute. repeat split; reflexivity. Qed.

(** ** Numbers and strings *)

Lemma Qlt_bool_true (x y : Q) : Qlt_bool x y = true ↔ (x < y)%Q.
Proof.
  unfold Qlt_bool. rewrite negb_true_iff. split.
  - intros E. apply Qnot_le_lt. intros L.
    apply Qle_bool_iff in L. congruence.
  - intros L. destruct (Qle_bool y x) eqn:E; [|reflexivity].
    apply Qle_bool_iff in E. exfalso. exact (Qlt_not_le _ _ L E).
Qed.

Lemma falsy_string_false (s : string) : falsy_string s = false ↔ s ≠ "".
Proof.
  unfold falsy_string. split.
  - intros E ->. discriminate.
  - intros N. destruct (String.eqb s "") eqn:E; [|reflexivity].
    apply String.eqb_eq in E. contradiction.
Qed.

Lemma length_append (s t : string) :
  String.length (s +:+ t) = (String.length s + String.length t)%nat.
Proof. induction s as [|c s IH]; simpl; [reflexivity | now rewrite IH]. Qed.

Lemma append_suffix_ne (s t : string) : t ≠ "" → s +:+ t ≠ s.
Proof.
  intros N E. apply (f_equal String.length) in E.
  rewrite length_append in E. destruct t; [contradiction | simpl in E; lia].
Qed.

(** ** The store operations *)

Lemma users_save_balance id b st :
  users (User_save_balance id b st) = alter (User.set_balance b) id (users st).
Proof. reflexivity. Qed.

Lemma balanceOf_save_balance id b st u :
  users st !! id = Some u → balanceOf (User_save_balance id b st) id = Some b.
Proof.
  intros E. unfold balanceOf. rewrite users_save_balance, lookup_alter_eq, E.
  reflexivity.
Qed.

Lemma balanceOf_save_balance_ne id id' b st :
  id ≠ id' → balanceOf (User_save_balance id b st) id' = balanceOf st id'.
Proof.
  intros N. unfold balanceOf.
  now rewrite users_save_balance, lookup_alter_ne.
Qed.


Lemma Transaction_create_Some reference x st st' :
  Transaction_create reference x st = Some st' →
  ∃ r, reference = Some r ∧ Transaction.validate r x = true
       ∧ transactions st !! r = None
       ∧ st' = with_transactions (<[r := x]> (transactions st)) st.
Proof.
  unfold Transaction_create. intros E.
  destruct reference as [r|]; [|discriminate].
  destruct (Transaction.validate r x) eqn:V; [|discriminate].
  destruct (transactions st !! r) eqn:L; [discriminate|].
  injection E as <-. exists r. repeat split; done.
Qed.

Lemma Transaction_create_created reference x st st' :
  Transaction_create reference x st = Some st' →
  ∃ r, reference = Some r ∧ created st st' r x
       ∧ users st' = users st
       ∧ ∀ k, k ≠ r → transactions st' !! k = transactions st !! k.
Proof.
  intros E. apply Transaction_create_Some in E as (r & -> & _ & F & ->).
  exists r. repeat split; simpl; try done.
  - apply lookup_insert_eq.
  - intros k N. now apply lookup_insert_ne.
Qed.

(** A status outside the schema's enum is never saved. *)
Lemma Transaction_save_status_enum reference x s st :
  Transaction.status_enum s = false →
  Transaction_save_status reference x s st = None.
Proof.
  intros E. unfold Transaction_save_status, Transaction.validate. simpl.
  rewrite E. now rewrite andb_false_r.
Qed.


Lemma set_status_sameExceptStatus s x :
  sameExceptStatus x (Transaction.set_status s x).
Proof. repeat split. Qed.

(** Inversion of the saves a route chains. *)
Ltac saves :=
  repeat match goal with
  | E : _ ≫= _ = Some _ |- _ => apply bind_Some in E as (? & ? & E)
  | E : Transaction_create _ _ _ = Some _ |- _ =>
      apply Transaction_create_Some in E as (? & ? & ? & ? & ->)
  | E : Beneficiary_create _ _ = Some _ |- _ =>
      unfold Beneficiary_create in E
  | E : (if ?b then _ else _) = Some _ |- _ => destruct b eqn:?
  | E : Some _ = Some _ |- _ => injection E as <-
  | E : None = Some _ |- _ => discriminate E
  end.

(** ** Invariants of the API *)

Lemma validate_set_status r s x :
  Transaction.validate r (Transaction.set_status s x) = true →
  Transaction.status_enum s = true.
Proof.
  unfold Transaction.validate. simpl. intros V.
  apply andb_true_iff in V as [V _]. now apply andb_true_iff in V as [_ V].
Qed.

(** Builds the [evolves] derivation of an unfolded route. *)
Ltac evolution :=
  unfold Transaction_save_status, Transaction_findOneAndUpdate_status,
    Webhook.refundSender, Webhook.deductFromRecipient;
  repeat case_match; cbn [fst snd]; saves;
  try match goal with
      | V : Transaction.validate _ (Transaction.set_status _ _) = true |- _ =>
          apply validate_set_status in V; discriminate V
      end;
  unfold User_save_balance, User_save_recipientCode in *;
  repeat lazymatch goal with
  | |- evolves ?st ?st => apply evolves_refl
  | |- evolves _ (with_users _ _) => apply evolves_users
  | |- evolves _ (with_beneficiaries _ _) => apply evolves_beneficiaries
  | |- evolves ?st (with_transactions (<[?r := ?x]> _) ?st') =>
      apply (evolves_create st st' r x); [ | assumption | assumption ]
  | |- evolves ?st (with_transactions (alter (Transaction.set_status ?s) ?r _) ?st') =>
      apply (evolves_status st st' r s);
      [ | first [ left; reflexivity | right; reflexivity ] ]
  end.

Lemma Ledger_transfer_evolves `{Bcrypt} uid recipientId amount pin purpose
    uuid st :
  evolves st (snd (Ledger.transfer uid recipientId amount pin purpose uuid st)).
Proof. unfold Ledger.transfer, Ledger.commit. evolution. Qed.

Lemma debitToBank_evolves `{Bcrypt} k purpose prefix uid bankDetails amount
    pin uuid st :
  evolves st
    (snd (Ledger.debitToBank k purpose prefix uid bankDetails amount pin uuid st)).
Proof. unfold Ledger.debitToBank, Ledger.commit. evolution. Qed.

Lemma Ledger_deposit_evolves uid amount method uuid st :
  evolves st (snd (Ledger.deposit uid amount method uuid st)).
Proof. unfold Ledger.deposit. evolution. Qed.

Lemma Ledger_confirmDeposit_evolves uid reference amount st :
  evolves st (snd (Ledger.confirmDeposit uid reference amount st)).
Proof. unfold Ledger.confirmDeposit. evolution. Qed.

Lemma BankDeposit_initiate_evolves uid amount reference st :
  evolves st (snd (BankDeposit.initiate uid amount reference st)).
Proof. unfold BankDeposit.initiate. evolution. Qed.

(** The schema's enum has no "cancelled": the cancellation never saves. *)
Lemma BankDeposit_cancel_unchanged uid reference st :
  snd (BankDeposit.cancel uid reference st) = st.
Proof.
  unfold BankDeposit.cancel.
  repeat case_match; try done.
  match goal with E : Transaction_save_status _ _ _ _ = Some _ |- _ =>
    rewrite Transaction_save_status_enum in E by reflexivity; discriminate
  end.
Qed.

Lemma BankDeposit_confirm_evolves reference st :
  evolves st (snd (BankDeposit.confirm reference st)).
Proof. unfold BankDeposit.confirm. evolution. Qed.

Lemma Payments_withdraw_evolves uid amount bank_code account_number
    account_name narration recipientResponse transferResponse st :
  evolves st
    (snd (Payments.withdraw uid amount bank_code account_number account_name
            narration recipientResponse transferResponse st)).
Proof. unfold Payments.withdraw. evolution. Qed.

Lemma Payments_chargeCard_evolves uid amount email cardId chargeResponse st :
  evolves st (snd (Payments.chargeCard uid amount email cardId chargeResponse st)).
Proof. unfold Payments.chargeCard. evolution. Qed.

Lemma Payments_callback_evolves reference paystackResponse st :
  evolves st (snd (Payments.callback reference paystackResponse st)).
Proof. unfold Payments.callback. evolution. Qed.

Lemma Payments_transfer_evolves uid recipientId amount reason
    recipientResponse transferResponse st :
  evolves st
    (snd (Payments.transfer uid recipientId amount reason recipientResponse
            transferResponse st)).
Proof. unfold Payments.transfer. evolution. Qed.

Lemma Webhook_dispatch_evolves event st :
  evolves st (Webhook.dispatch event st).
Proof.
  unfold Webhook.dispatch, Webhook.handleSuccessfulPayment,
    Webhook.handleSuccessfulTransfer, Webhook.handleFailedTransfer,
    Webhook.handleReversedTransfer.
  evolution.
Qed.

Lemma Webhook_webhook_evolves secret req st :
  evolves st (snd (Webhook.webhook secret req st)).
Proof.
  unfold Webhook.webhook. destruct (Webhook.signatureMismatch secret req).
  - apply evolves_refl.
  - apply Webhook_dispatch_evolves.
Qed.

Lemma Stripe_confirmPayment_evolves uid paymentIntentId amount paymentIntent
    uuid st :
  evolves st
    (snd (Stripe.confirmPayment uid paymentIntentId amount paymentIntent uuid st)).
Proof. unfold Stripe.confirmPayment. evolution. Qed.

(** Every route but the PIN route evolves the store. *)
Lemma run_evolves `{Bcrypt} secret c st :
  (∀ uid pin salt, c ≠ UsersSetTransactionPin uid pin salt) →
  evolves st (snd (run secret c st)).
Proof.
  intros N. destruct c; simpl.
  - apply Ledger_transfer_evolves.
  - apply debitToBank_evolves.
  - apply debitToBank_evolves.
  - apply Ledger_deposit_evolves.
  - apply Ledger_confirmDeposit_evolves.
  - apply BankDeposit_initiate_evolves.
  - rewrite BankDeposit_cancel_unchanged. apply evolves_refl.
  - apply BankDeposit_confirm_evolves.
  - apply Payments_withdraw_evolves.
  - apply Payments_chargeCard_evolves.
  - apply Payments_callback_evolves.
  - apply Payments_transfer_evolves.
  - apply Webhook_webhook_evolves.
  - apply Stripe_confirmPayment_evolves.
  - now destruct (N uid pin salt).
Qed.

Lemma evolves_transactionpins st st' :
  evolves st st' → transactionpins st' = transactionpins st.
Proof. induction 1; simpl; done. Qed.

Lemma evolves_cards st st' : evolves st st' → cards st' = cards st.
Proof. induction 1; simpl; done. Qed.

Lemma sameExceptStatus_refl x : sameExceptStatus x x.
Proof. repeat split. Qed.

Lemma sameExceptStatus_trans x y z :
  sameExceptStatus x y → sameExceptStatus y z → sameExceptStatus x z.
Proof.
  unfold sameExceptStatus. intros A B.
  destruct A as (?&?&?&?&?&?&?&?&?&?&?), B as (?&?&?&?&?&?&?&?&?&?&?).
  repeat split; congruence.
Qed.

(** Records are never deleted and only their status ever changes, to
    successful or to failed. *)
Lemma evolves_records st st' :
  evolves st st' →
  ∀ r x, transactions st !! r = Some x →
    ∃ x', transactions st' !! r = Some x' ∧ sameExceptStatus x x'
          ∧ (Transaction.status x' = Transaction.status x
             ∨ Transaction.status x' = Transaction.successful
             ∨ Transaction.status x' = Transaction.failed).
Proof.
  induction 1 as [|st' us _ IH|st' bs _ IH|st' k y _ IH F V|st' k s _ IH E];
    intros r x Ex; simpl.
  - exists x. split; [done|]. split; [apply sameExceptStatus_refl|now left].
  - now apply IH.
  - now apply IH.
  - destruct (IH r x Ex) as (x' & Ex' & S & D).
    exists x'. rewrite lookup_insert_ne by congruence. done.
  - destruct (IH r x Ex) as (x' & Ex' & S & D).
    destruct (decide (k = r)) as [->|N].
    + exists (Transaction.set_status s x'). rewrite lookup_alter_eq, Ex'.
      split; [done|]. split; [|right; exact E].
      eapply sameExceptStatus_trans; [exact S|].
      apply set_status_sameExceptStatus.
    + exists x'. rewrite lookup_alter_ne by done. done.
Qed.

Lemma evolves_recordsValid st st' :
  evolves st st' → recordsValid st → recordsValid st'.
Proof.
  induction 1 as [|st' us _ IH|st' bs _ IH|st' k y _ IH F V|st' k s _ IH E];
    intros Rv; try (now apply IH); [done| |].
  - intros r x. simpl. destruct (decide (k = r)) as [->|N].
    + rewrite lookup_insert_eq. now intros [= <-].
    + rewrite lookup_insert_ne by done. now apply IH.
  - intros r x. simpl. destruct (decide (k = r)) as [->|N].
    + rewrite lookup_alter_eq.
      destruct (transactions st' !! r) as [y|] eqn:Ey; [|discriminate].
      intros [= <-]. pose proof (IH Rv r y Ey) as Vy.
      unfold Transaction.validate in Vy |- *. simpl.
      apply andb_true_iff in Vy as [Vy Vr].
      apply andb_true_iff in Vy as [Vt _].
      rewrite Vt, Vr. now destruct E as [-> | ->].
    + rewrite lookup_alter_ne by done. now apply IH.
Qed.

Section reachability.
Context `{Bcrypt} (secret : string).

(** In every reachable store each record passes the schema's validators:
    in particular none is reversed or cancelled. *)
Lemma reachable_recordsValid st : reachable secret st → recordsValid st.
Proof.
  induction 1 as [st E _ _|c st _ IH].
  - intros r x. now rewrite E, lookup_empty.
  - destruct c;
      try (eapply evolves_recordsValid; [apply run_evolves; discriminate|done]).
    intros r x. simpl. unfold Users.setTransactionPin.
    repeat case_match; simpl; apply IH.
Qed.

Lemma reachable_never_reversed_or_cancelled st r x :
  reachable secret st → transactions st !! r = Some x →
  Transaction.status x ≠ Transaction.reversed
  ∧ Transaction.status x ≠ Transaction.cancelled.
Proof.
  intros R Ex. pose proof (reachable_recordsValid st R r x Ex) as V.
  unfold Transaction.validate in V.
  apply andb_true_iff in V as [V _]. apply andb_true_iff in V as [_ V].
  split; intros E; rewrite E in V; discriminate.
Qed.

Lemma setTransactionPin_pinsHashed uid pin salt st :
  pinsHashed st → pinsHashed (snd (Users.setTransactionPin uid pin salt st)).
Proof.
  intros Hs. unfold Users.setTransactionPin.
  destruct (Users.pinLengthOk pin); [|done].
  destruct pin as [pin|]; [|done].
  intros u q. simpl. destruct (decide (uid = u)) as [->|N].
  - rewrite lookup_insert_eq. intros [= <-]. unfold Users.preSave.
    destruct (transactionpins st !! u) as [old|] eqn:Eo; [|simpl; eauto].
    destruct (String.eqb _ _); [|simpl; eauto].
    now apply (Hs u).
  - rewrite lookup_insert_ne by done. apply Hs.
Qed.

(** Whatever the call, a record stays under its reference with its fields
    but the status, and its status stays or becomes successful or failed:
    no call moves a record to declined, cancelled or reversed. *)
Lemma run_status_transitions c st r x :
  transactions st !! r = Some x →
  ∃ x', transactions (snd (run secret c st)) !! r = Some x'
        ∧ sameExceptStatus x x'
        ∧ (Transaction.status x' = Transaction.status x
           ∨ Transaction.status x' = Transaction.successful
           ∨ Transaction.status x' = Transaction.failed).
Proof.
  intros Ex.
  destruct c; try (eapply evolves_records; [apply run_evolves; discriminate|done]).
  exists x. simpl. unfold Users.setTransactionPin.
  repeat case_match; simpl;
    (split; [done|]; split; [apply sameExceptStatus_refl|now left]).
Qed.

(** Only the PIN route writes the PIN collection. *)
Lemma run_keeps_pins c st :
  (∀ uid pin salt, c ≠ UsersSetTransactionPin uid pin salt) →
  transactionpins (snd (run secret c st)) = transactionpins st.
Proof. intros N. now apply evolves_transactionpins, run_evolves. Qed.

(** In every reachable store each PIN credential is a bcrypt digest. *)
Lemma reachable_pinsHashed st : reachable secret st → pinsHashed st.
Proof.
  induction 1 as [st _ E _|c st _ IH].
  - intros u q. now rewrite E, lookup_empty.
  - destruct c;
      try (unfold pinsHashed; rewrite run_keeps_pins by discriminate;
           exact IH).
    now apply setTransactionPin_pinsHashed.
Qed.

End reachability.

(** The sample stores are reachable: [A] sets the PIN 1234, then sends 100
    to [B] through the Paystack router. *)
Lemma Sample_store_reachable a b :
  reachable (H := Sample.bcrypt) Sample.secret (Sample.store a b []).
Proof.
  change (Sample.store a b [])
    with (snd (run (H := Sample.bcrypt) Sample.secret
                 (UsersSetTransactionPin Sample.A (Some "1234") "saltsaltsalt")
                 (Sample.base a b))).
  apply reachable_run. now apply reachable_initial.
Qed.

Lemma Sample_afterTransfer_reachable :
  reachable (H := Sample.bcrypt) Sample.secret Sample.afterTransfer.
Proof.
  change Sample.afterTransfer
    with (snd (run (H := Sample.bcrypt) Sample.secret
                 (PaymentsTransfer Sample.A (Some Sample.B)
                    (Some (Payments.number 100)) None
                    (returned true (Some "RCP_1"))
                    (returned true (Some "TRF_1")))
                 (Sample.store 500 500 []))).
  apply reachable_run, Sample_store_reachable.
Qed.

Lemma Sample_bcrypt_long d s :
  (6 < String.length (bcrypt_hash (Bcrypt := Sample.bcrypt) d s))%nat.
Proof. simpl. lia. Qed.

(** ** The ledger routes *)

Section ledger.
Context `{Bcrypt}.

(** What a committed transfer did. *)
Lemma Ledger_transfer_ok uid recipientId amount pin purpose uuid st r st' :
  Ledger.transfer uid recipientId amount pin purpose uuid st = (res_ok r, st') →
  ∃ rid a p sender recipient,
    recipientId = Some rid ∧ amount = Some a ∧ purpose = Some p
    ∧ users st !! uid = Some sender ∧ users st !! rid = Some recipient
    ∧ r = "TRX-" +:+ String.substring 0 8 uuid
    ∧ users st' =
        alter (User.set_balance (User.balance recipient + a)) rid
          (alter (User.set_balance
                    (User.balance sender - Binary64.add a Ledger.fee))
             uid (users st))
    ∧ transactions st !! r = None
    ∧ transactions st !! (r +:+ "-RCV") = None
    ∧ transactions st' =
        <[r +:+ "-RCV" := Ledger.recipientTransaction uid rid sender a p]>
          (<[r := Ledger.senderTransaction uid rid recipient a p]>
             (transactions st)).
Proof.
  unfold Ledger.transfer, Ledger.commit, User_findById. intros E.
  destruct recipientId as [rid|], amount as [a|], pin as [pin|],
    purpose as [p|]; try discriminate.
  destruct (_ || _); [discriminate|].
  destruct (transactionpins st !! uid); [|discriminate].
  destruct (negb _); [discriminate|].
  destruct (users st !! uid) as [sender|] eqn:Es; [|discriminate].
  destruct (Qlt_bool _ _); [discriminate|].
  destruct (users st !! rid) as [recipient|] eqn:Er; [|discriminate].
  destruct (Transaction_create _ _ _ ≫= _) as [st4|] eqn:C; [|discriminate].
  injection E as <- <-.
  apply bind_Some in C as (st3 & C1 & C2).
  apply Transaction_create_Some in C1 as (k1 & K1 & _ & F1 & ->).
  apply Transaction_create_Some in C2 as (k2 & K2 & _ & F2 & ->).
  injection K1 as <-. injection K2 as <-. simpl in *.
  exists rid, a, p, sender, recipient. repeat split; try done.
  rewrite lookup_insert_ne in F2; [done|].
  intros E. symmetry in E. now apply append_suffix_ne in E.
Qed.

(** Below the balance check, a debit to a bank changes nothing and reports
    an error; with a valid PIN the error is the insufficient balance.  The
    check compares the balance with the sum as binary64 computes it. *)
Lemma debitToBank_insufficient k purpose prefix uid bankDetails amount pin
    uuid st user :
  users st !! uid = Some user →
  (User.balance user < Binary64.add amount Ledger.fee)%Q →
  snd (Ledger.debitToBank k purpose prefix uid bankDetails (Some amount) pin
         uuid st) = st
  ∧ (∀ r, fst (Ledger.debitToBank k purpose prefix uid bankDetails
                 (Some amount) pin uuid st) ≠ res_ok r)
  ∧ (∀ d c p, bankDetails = Some d → pin = Some c → c ≠ "" →
       transactionpins st !! uid = Some p → Ledger.comparePin p c = true →
       Ledger.debitToBank k purpose prefix uid bankDetails (Some amount) pin
         uuid st = (res_json 400 "Insufficient balance", st)).
Proof.
  intros Eu L. apply Qlt_bool_true in L.
  assert (G : ∀ d c p, bankDetails = Some d → pin = Some c → c ≠ "" →
            transactionpins st !! uid = Some p → Ledger.comparePin p c = true →
            Ledger.debitToBank k purpose prefix uid bankDetails (Some amount)
              pin uuid st = (res_json 400 "Insufficient balance", st)).
  { intros d c p -> -> Nc Ep Ecmp. apply falsy_string_false in Nc.
    unfold Ledger.debitToBank, User_findById.
    now rewrite Nc, Ep, Ecmp, Eu, L. }
  split; [|split]; [| |exact G];
    unfold Ledger.debitToBank, User_findById;
    destruct bankDetails as [d|], pin as [c|]; simpl; try done;
    destruct (falsy_string c); try done;
    destruct (transactionpins st !! uid) as [p|]; try done;
    destruct (negb (Ledger.comparePin p c)); try done;
    now rewrite Eu, L.
Qed.

End ledger.

(** The provider-backed withdrawal, whose fee is 0, below the balance
    check. *)
Lemma Payments_withdraw_insufficient uid amount bank_code account_number
    account_name narration recipientResponse transferResponse st user :
  users st !! uid = Some user →
  (User.balance user < amount)%Q →
  snd (Payments.withdraw uid (Some amount) bank_code account_number
         account_name narration recipientResponse transferResponse st) = st
  ∧ (∀ r, fst (Payments.withdraw uid (Some amount) bank_code account_number
                 account_name narration recipientResponse transferResponse st)
          ≠ res_ok r)
  ∧ (falsy_number amount = false → falsy bank_code = false →
     falsy account_number = false → falsy account_name = false →
     Payments.withdraw uid (Some amount) bank_code account_number account_name
       narration recipientResponse transferResponse st
     = (res_json 400 "Insufficient balance", st)).
Proof.
  intros Eu L. apply Qlt_bool_true in L.
  unfold Payments.withdraw, User_findById. cbn beta iota. rewrite Eu, L.
  destruct (falsy_number amount), (falsy bank_code), (falsy account_number),
    (falsy account_name); simpl; repeat split; done.
Qed.

(** The sum of a whole amount and the fee is computed exactly as long as it
    stays within 2^53. *)
Lemma plus_fee_whole (n : Z) :
  (Z.abs (n + 25) ≤ 2 ^ 53)%Z →
  (Binary64.add (inject_Z n) Ledger.fee == inject_Z n + Ledger.fee)%Q.
Proof.
  intros L. unfold Binary64.add.
  assert (E : (inject_Z n + Ledger.fee == inject_Z (n + 25))%Q).
  { rewrite inject_Z_plus. reflexivity. }
  rewrite E. now apply round64_Z.
Qed.

(** C5: a withdrawal whose account holds less than the sum of amount and
    fee, as the route computes that sum in binary64, changes nothing (balance
    kept, no record) and is answered with an error, never with a success;
    when the PIN checks pass the error is the insufficient balance one.  The
    computed sum is amount plus fee itself whenever that is a binary64
    number, as it is for every whole amount up to 2^53 - 25.  The same holds
    of the provider-backed withdrawal, which charges no fee and compares the
    balance with the amount itself, when its required fields are present. *)
Theorem C5_withdraw_insufficient_balance `{Bcrypt} uid bankDetails amount pin
    uuid st user :
  users st !! uid = Some user →
  let refused :=
    snd (Ledger.withdraw uid bankDetails (Some amount) pin uuid st) = st
    ∧ (∀ r, fst (Ledger.withdraw uid bankDetails (Some amount) pin uuid st)
            ≠ res_ok r)
    ∧ (∀ d c p, bankDetails = Some d → pin = Some c → c ≠ "" →
         transactionpins st !! uid = Some p → Ledger.comparePin p c = true →
         Ledger.withdraw uid bankDetails (Some amount) pin uuid st
         = (res_json 400 "Insufficient balance", st)) in
  ((User.balance user < Binary64.add amount Ledger.fee)%Q → refused)
  ∧ ((Binary64.add amount Ledger.fee == amount + Ledger.fee)%Q →
     (User.balance user < amount + Ledger.fee)%Q → refused)
  ∧ (∀ n : Z, amount = inject_Z n → (Z.abs (n + 25) ≤ 2 ^ 53)%Z →
       (User.balance user < amount + Ledger.fee)%Q → refused)
  ∧ (∀ bank_code account_number account_name narration recipientResponse
       transferResponse,
       (User.balance user < amount)%Q →
       snd (Payments.withdraw uid (Some amount) bank_code account_number
              account_name narration recipientResponse transferResponse st)
       = st
       ∧ (falsy_number amount = false → falsy bank_code = false →
          falsy account_number = false → falsy account_name = false →
          Payments.withdraw uid (Some amount) bank_code account_number
            account_name narration recipientResponse transferResponse st
          = (res_json 400 "Insufficient balance", st))).
Proof.
  intros Eu refused.
  assert (R : (User.balance user < Binary64.add amount Ledger.fee)%Q → refused).
  { intros L. now apply (debitToBank_insufficient _ _ _ _ _ _ _ _ _ user). }
  split; [exact R|]. split; [|split].
  - intros E L. apply R. now rewrite E.
  - intros n -> Ln L. apply R. now rewrite plus_fee_whole.
  - intros bank_code account_number account_name narration recipientResponse
      transferResponse L0.
    destruct (Payments_withdraw_insufficient uid amount bank_code account_number
                account_name narration recipientResponse transferResponse st
                user Eu L0) as (A & _ & B).
    split; [exact A | exact B].
Qed.

(** The scenario of C5: balance 100, amount 150, fee 25, valid PIN. *)
Lemma C5_scenario :
  Ledger.fee = 25%Q
  ∧ Ledger.withdraw (H := Sample.bcrypt) Sample.A (Some Sample.bankDetails)
      (Some 150%Q) (Some "1234") Sample.uuid (Sample.store 100 0 [])
    = (res_json 400 "Insufficient balance", Sample.store 100 0 []).
Proof.
  split; [reflexivity|].
  refine (proj2 (proj2 (proj1 (proj2 (proj2 (C5_withdraw_insufficient_balance
            (H := Sample.bcrypt)
            Sample.A (Some Sample.bankDetails) 150%Q (Some "1234") Sample.uuid
            (Sample.store 100 0 []) (Sample.user "Ada" "Obi" 100) _)))
            150%Z _ _ _))
          Sample.bankDetails "1234"
          {| TransactionPin.pinHash := "$2a$10$saltsaltsalt1234" |} _ _ _ _ _).
  - vm_compute. reflexivity.
  - reflexivity.
  - vm_compute. discriminate.
  - vm_compute. reflexivity.
  - reflexivity.
  - reflexivity.
  - discriminate.
  - vm_compute. reflexivity.
  - vm_compute. reflexivity.
Defined.

(** The claim C5 as the specification states it, with the exact sum, fails:
    an account holding 2^53 withdraws 2^53 - 24.  The balance is below amount
    plus fee, 2^53 + 1, which is no binary64 number; the route computes the
    sum as 2^53, finds the balance sufficient and commits: the withdrawal is
    answered with success, the account is left with 0 and the record is
    created.  The same happens to an account holding 25 that withdraws the
    binary64 number nearest to 10^-18. *)
Lemma C5_counterexample :
  let withdrawal balance amount :=
    Ledger.withdraw (H := Sample.bcrypt) Sample.A (Some Sample.bankDetails)
      (Some amount) (Some "1234") Sample.uuid (Sample.store balance 0 []) in
  let large := withdrawal 9007199254740992%Q 9007199254740968%Q in
  let tiny :=
    withdrawal 25%Q (Binary64.round64 (1 # 1000000000000000000)) in
  ((9007199254740992 < 9007199254740968 + Ledger.fee)%Q
   ∧ fst large = res_ok "WTH-3f2a9c1e"
   ∧ balanceOf (snd large) Sample.A = Some 0%Q
   ∧ Transaction.status <$> transactions (snd large) !! "WTH-3f2a9c1e"
     = Some Transaction.successful)
  ∧ ((25 < Binary64.round64 (1 # 1000000000000000000) + Ledger.fee)%Q
     ∧ fst tiny = res_ok "WTH-3f2a9c1e"
     ∧ balanceOf (snd tiny) Sample.A = Some 0%Q
     ∧ Transaction.status <$> transactions (snd tiny) !! "WTH-3f2a9c1e"
       = Some Transaction.successful).
Proof. vm_compute. repeat split; reflexivity. Qed.

(** C6: after a committed transfer of 200 from A to B, both holding 500,
    A holds 275 (amount and the fee of 25 debited) and B holds 700 (amount
    credited, the fee credited to nobody: no other account changes); exactly
    two records are created, both successful, the recipient's under the
    sender's reference followed by "-RCV". *)
Theorem C6_transfer_scenario `{Bcrypt} a b pin purpose uuid st r st' ua ub :
  a ≠ b →
  users st !! a = Some ua → users st !! b = Some ub →
  User.balance ua = 500%Q → User.balance ub = 500%Q →
  Ledger.transfer a (Some b) (Some 200%Q) pin purpose uuid st = (res_ok r, st') →
  balanceOf st' a = Some 275%Q
  ∧ balanceOf st' b = Some 700%Q
  ∧ (∀ c, c ≠ a → c ≠ b → users st' !! c = users st !! c)
  ∧ ∃ x y,
      created st st' r x ∧ created st st' (r +:+ "-RCV") y
      ∧ (∀ k, k ≠ r → k ≠ r +:+ "-RCV" →
           transactions st' !! k = transactions st !! k)
      ∧ Transaction.status x = Transaction.successful
      ∧ Transaction.status y = Transaction.successful
      ∧ Transaction.userId x = a ∧ Transaction.userId y = b
      ∧ Transaction.amount x = 200%Q ∧ Transaction.fee x = 25%Q
      ∧ Transaction.amount y = 200%Q ∧ Transaction.fee y = 0%Q.
Proof.
  intros N Ea Eb Ba Bb E.
  apply Ledger_transfer_ok in E
    as (rid & am & p & sender & recipient & [= <-] & [= <-] & -> & Es & Er
        & -> & Eu & F1 & F2 & Et).
  rewrite Ea in Es. injection Es as <-. rewrite Eb in Er. injection Er as <-.
  set (r := "TRX-" +:+ String.substring 0 8 uuid) in *.
  assert (NR : r +:+ "-RCV" ≠ r) by now apply append_suffix_ne.
  split; [|split; [|split]].
  - unfold balanceOf. rewrite Eu, lookup_alter_ne, lookup_alter_eq, Ea by done.
    simpl. now rewrite Ba.
  - unfold balanceOf. rewrite Eu, lookup_alter_eq, lookup_alter_ne, Eb by done.
    simpl. now rewrite Bb.
  - intros c Na Nb. now rewrite Eu, !lookup_alter_ne.
  - eexists _, _. unfold created. rewrite Et.
    rewrite lookup_insert_ne, !lookup_insert_eq by done.
    repeat split; try done.
    intros k N1 N2. now rewrite !lookup_insert_ne.
Qed.

(** The scenario of C6 run on the sample store, where the transfer commits
    and the two records are the only ones. *)
Lemma C6_scenario :
  let result :=
    Ledger.transfer (H := Sample.bcrypt) Sample.A (Some Sample.B) (Some 200%Q)
      (Some "1234") (Some "rent") Sample.uuid (Sample.store 500 500 []) in
  fst result = res_ok "TRX-3f2a9c1e"
  ∧ balanceOf (snd result) Sample.A = Some 275%Q
  ∧ balanceOf (snd result) Sample.B = Some 700%Q
  ∧ size (transactions (snd result)) = 2%nat.
Proof.
  intros result. split; [vm_compute; reflexivity|].
  destruct (C6_transfer_scenario (H := Sample.bcrypt) Sample.A Sample.B
              (Some "1234") (Some "rent") Sample.uuid
              (Sample.store 500 500 []) "TRX-3f2a9c1e" (snd result)
              (Sample.user "Ada" "Obi" 500) (Sample.user "Bayo" "Eze" 500))
    as (Ca & Cb & _); try (vm_compute; reflexivity).
  - discriminate.
  - split; [exact Ca|]. split; [exact Cb|]. vm_compute. reflexivity.
Defined.

(** A PIN of 4 to 6 characters is shorter than any digest longer than 6. *)
Lemma pinLengthOk_short (pin : string) :
  Users.pinLengthOk (Some pin) = true → (String.length pin ≤ 6)%nat.
Proof.
  unfold Users.pinLengthOk. intros E.
  apply andb_true_iff in E as [_ E]. now apply Nat.leb_le in E.
Qed.

(** The ledger's guard: on its transfer, bank transfer and withdrawal, a
    caller without a stored PIN is answered "Transaction PIN not set" and a caller whose candidate
    does not match the stored digest "Invalid transaction PIN"; in both
    cases the store is the one before the request.  The PIN route stores the
    bcrypt digest of the PIN under a fresh salt, which is not the PIN
    itself, and keeps every stored credential a bcrypt digest, as it is in
    every reachable store. *)
Lemma Ledger_pin_guard `{Bcrypt} uid st recipientId amount pin purpose
    bankDetails uuid :
  recipientId ≠ "" → pin ≠ "" → purpose ≠ "" →
  (transactionpins st !! uid = None →
     Ledger.transfer uid (Some recipientId) (Some amount) (Some pin)
       (Some purpose) uuid st
     = (res_json 400 "Transaction PIN not set", st)
     ∧ Ledger.bankTransfer uid (Some bankDetails) (Some amount) (Some pin)
         uuid st
       = (res_json 400 "Transaction PIN not set", st)
     ∧ Ledger.withdraw uid (Some bankDetails) (Some amount) (Some pin) uuid st
       = (res_json 400 "Transaction PIN not set", st))
  ∧ (∀ p, transactionpins st !! uid = Some p →
       Ledger.comparePin p pin = false →
       Ledger.transfer uid (Some recipientId) (Some amount) (Some pin)
         (Some purpose) uuid st
       = (res_json 400 "Invalid transaction PIN", st)
       ∧ Ledger.bankTransfer uid (Some bankDetails) (Some amount) (Some pin)
           uuid st
         = (res_json 400 "Invalid transaction PIN", st)
       ∧ Ledger.withdraw uid (Some bankDetails) (Some amount) (Some pin)
           uuid st
         = (res_json 400 "Invalid transaction PIN", st))
  ∧ (∀ salt,
       Users.pinLengthOk (Some pin) = true →
       (∀ d s, (6 < String.length (bcrypt_hash d s))%nat) →
       pinsHashed st →
       let st' := snd (Users.setTransactionPin uid (Some pin) salt st) in
       transactionpins st' !! uid
       = Some {| TransactionPin.pinHash := bcrypt_hash pin salt |}
       ∧ bcrypt_hash pin salt ≠ pin
       ∧ pinsHashed st')
  ∧ (∀ secret, reachable secret st → pinsHashed st).
Proof.
  intros Nr Np Nu.
  apply falsy_string_false in Nr, Np, Nu.
  split; [|split; [|split]].
  - intros E.
    unfold Ledger.bankTransfer, Ledger.withdraw, Ledger.debitToBank,
      Ledger.transfer.
    now rewrite Nr, Np, Nu, E.
  - intros p E C.
    unfold Ledger.bankTransfer, Ledger.withdraw, Ledger.debitToBank,
      Ledger.transfer.
    now rewrite Nr, Np, Nu, E, C.
  - intros salt L Long Hs st'.
    assert (Short := pinLengthOk_short pin L).
    assert (Ne : bcrypt_hash pin salt ≠ pin).
    { intros E. specialize (Long pin salt). rewrite E in Long. lia. }
    assert (Es : transactionpins st' !! uid
                 = Some {| TransactionPin.pinHash := bcrypt_hash pin salt |}).
    { subst st'. unfold Users.setTransactionPin. rewrite L. simpl.
      rewrite lookup_insert_eq. f_equal. unfold Users.preSave.
      destruct (transactionpins st !! uid) as [old|] eqn:Eo; [|reflexivity].
      destruct (String.eqb (TransactionPin.pinHash old) pin) eqn:Q;
        [|reflexivity].
      apply String.eqb_eq in Q.
      destruct (Hs _ _ Eo) as (d & s & Ed).
      specialize (Long d s). rewrite <- Ed, Q in Long. lia. }
    split; [exact Es|]. split; [exact Ne|].
    now apply setTransactionPin_pinsHashed.
  - intros secret. apply reachable_pinsHashed.
Qed.

(** The guard on the sample store: [B] has no PIN, [A] has PIN 1234 and offers
    0000; then [A] sets the PIN 4321. *)
Lemma Ledger_pin_guard_scenario :
  Ledger.withdraw (H := Sample.bcrypt) Sample.B (Some Sample.bankDetails)
    (Some 50%Q) (Some "0000") Sample.uuid (Sample.store 500 500 [])
  = (res_json 400 "Transaction PIN not set", Sample.store 500 500 [])
  ∧ Ledger.transfer (H := Sample.bcrypt) Sample.A (Some Sample.B)
      (Some 50%Q) (Some "0000") (Some "rent") Sample.uuid
      (Sample.store 500 500 [])
    = (res_json 400 "Invalid transaction PIN", Sample.store 500 500 [])
  ∧ transactionpins
      (snd (Users.setTransactionPin (H := Sample.bcrypt) Sample.A
              (Some "4321") "pepperpepper" (Sample.store 500 500 [])))
    !! Sample.A
    = Some {| TransactionPin.pinHash := "$2a$10$pepperpepper4321" |}.
Proof.
  split; [|split].
  - refine (proj2 (proj2 (proj1 (Ledger_pin_guard (H := Sample.bcrypt) Sample.B
              (Sample.store 500 500 []) Sample.A 50%Q "0000" "rent"
              Sample.bankDetails Sample.uuid _ _ _) _)));
      try discriminate.
    vm_compute. reflexivity.
  - refine (proj1 (proj1 (proj2 (Ledger_pin_guard (H := Sample.bcrypt) Sample.A
              (Sample.store 500 500 []) Sample.B 50%Q "0000" "rent"
              Sample.bankDetails Sample.uuid _ _ _))
              {| TransactionPin.pinHash := "$2a$10$saltsaltsalt1234" |} _ _));
      try discriminate; vm_compute; reflexivity.
  - refine (proj1 (proj1 (proj2 (proj2 (Ledger_pin_guard (H := Sample.bcrypt)
              Sample.A (Sample.store 500 500 []) Sample.B 50%Q "4321" "rent"
              Sample.bankDetails Sample.uuid _ _ _)))
              "pepperpepper" _ _ _)); try discriminate.
    + reflexivity.
    + apply Sample_bcrypt_long.
    + apply (reachable_pinsHashed (H := Sample.bcrypt) Sample.secret).
      apply Sample_store_reachable.
Defined.

Lemma Transaction_create_pins r x ps s :
  Transaction_create r x (with_transactionpins ps s)
  = with_transactionpins ps <$> Transaction_create r x s.
Proof.
  unfold Transaction_create.
  destruct r as [r|]; [|reflexivity].
  destruct (Transaction.validate r x); [|reflexivity]. simpl.
  destruct (transactions s !! r); reflexivity.
Qed.

(** The provider-backed transfer and withdrawal never read the PIN
    collection: with any other stored PINs they answer the same and write
    the same. *)
Lemma Payments_transfer_reads_no_pin uid recipientId amount reason
    recipientResponse transferResponse st ps :
  Payments.transfer uid recipientId amount reason recipientResponse
    transferResponse (with_transactionpins ps st)
  = (fst (Payments.transfer uid recipientId amount reason recipientResponse
            transferResponse st),
     with_transactionpins ps
       (snd (Payments.transfer uid recipientId amount reason recipientResponse
               transferResponse st))).
Proof.
  unfold Payments.transfer, User_findById.
  destruct recipientId as [rid|], amount as [a|]; try reflexivity.
  destruct (_ || _); [reflexivity|]. cbn [users with_transactionpins].
  destruct (users st !! uid) as [sender|]; [|reflexivity].
  destruct (Payments.below _ _); [reflexivity|].
  destruct (users st !! rid) as [recipient|]; [|reflexivity].
  set (created := if falsy (User.paystackTransferRecipientCode recipient) then _ else _).
  set (created' := if falsy (User.paystackTransferRecipientCode recipient) then _ else _).
  assert (Ec : created = with_transactionpins ps <$> created').
  { subst created created'.
    destruct (falsy _); [|reflexivity].
    destruct recipientResponse as [|b [code|]]; reflexivity. }
  rewrite Ec. destruct created' as [st1|]; [|reflexivity].
  cbn [fmap option_fmap option_map].
  destruct transferResponse as [|[|] reference]; try reflexivity.
  destruct (Payments.valueOf a) as [|value| |]; try reflexivity.
  destruct (Payments.plusAssign (User.balance recipient) a) as [credited|];
    [|reflexivity].
  change (User_save_balance rid credited
            (User_save_balance uid (User.balance sender - value)
               (with_transactionpins ps st1)))
    with (with_transactionpins ps
            (User_save_balance rid credited
               (User_save_balance uid (User.balance sender - value) st1))).
  rewrite Transaction_create_pins.
  destruct (Transaction_create reference _ _) as [st4|]; [|reflexivity].
  cbn [fmap option_fmap option_map]. rewrite Transaction_create_pins.
  destruct (Transaction_create _ _ st4); reflexivity.
Qed.

Lemma Payments_withdraw_reads_no_pin uid amount bank_code account_number
    account_name narration recipientResponse transferResponse st ps :
  Payments.withdraw uid amount bank_code account_number account_name narration
    recipientResponse transferResponse (with_transactionpins ps st)
  = (fst (Payments.withdraw uid amount bank_code account_number account_name
            narration recipientResponse transferResponse st),
     with_transactionpins ps
       (snd (Payments.withdraw uid amount bank_code account_number
               account_name narration recipientResponse transferResponse st))).
Proof.
  unfold Payments.withdraw, User_findById.
  destruct amount as [a|]; [|reflexivity].
  destruct (_ || _); [reflexivity|]. cbn [users with_transactionpins].
  destruct (users st !! uid) as [user|]; [|reflexivity].
  destruct (Qlt_bool _ _); [reflexivity|].
  destruct recipientResponse as [|[|] ?]; try reflexivity.
  destruct transferResponse as [|[|] transfer_code]; try reflexivity.
  unfold Transaction_create, Transaction.validate.
  destruct transfer_code; reflexivity.
Qed.

(** C7: the provider-backed transfer and withdrawal move money without any
    PIN.  On the sample store, where nobody has set a PIN, the transfer of
    100 from A to B through the Paystack router is answered with success and
    leaves A with 400 and B with 600, and the withdrawal of 100 debits A,
    where the ledger's transfer, bank transfer and withdrawal of the same
    caller are refused with "Transaction PIN not set" and change nothing.
    Whatever the store and the request, the two provider-backed routes do not
    depend on the stored PINs, and their requests carry no PIN. *)
Theorem C7_provider_routes_ask_no_pin :
  let st := Sample.base 500 500 in
  let t :=
    Payments.transfer Sample.A (Some Sample.B) (Some (Payments.number 100))
      None
      (returned true (Some "RCP_1")) (returned true (Some "TRF_1")) st in
  let w :=
    Payments.withdraw Sample.A (Some 100%Q) (Some "044") (Some "0123456789")
      (Some "Ada Obi") None (returned true (Some "RCP_1"))
      (returned true (Some "TRF_2")) st in
  transactionpins st = ∅
  ∧ (fst t = res_ok "TRF_1"
     ∧ balanceOf (snd t) Sample.A = Some 400%Q
     ∧ balanceOf (snd t) Sample.B = Some 600%Q)
  ∧ balanceOf (snd w) Sample.A = Some 400%Q
  ∧ Ledger.transfer (H := Sample.bcrypt) Sample.A (Some Sample.B)
      (Some 100%Q) (Some "1234") (Some "rent") Sample.uuid st
    = (res_json 400 "Transaction PIN not set", st)
  ∧ Ledger.bankTransfer (H := Sample.bcrypt) Sample.A
      (Some Sample.bankDetails) (Some 100%Q) (Some "1234") Sample.uuid st
    = (res_json 400 "Transaction PIN not set", st)
  ∧ Ledger.withdraw (H := Sample.bcrypt) Sample.A (Some Sample.bankDetails)
      (Some 100%Q) (Some "1234") Sample.uuid st
    = (res_json 400 "Transaction PIN not set", st)
  ∧ (∀ uid recipientId amount reason recipientResponse transferResponse st ps,
       Payments.transfer uid recipientId amount reason recipientResponse
         transferResponse (with_transactionpins ps st)
       = (fst (Payments.transfer uid recipientId amount reason
                 recipientResponse transferResponse st),
          with_transactionpins ps
            (snd (Payments.transfer uid recipientId amount reason
                    recipientResponse transferResponse st))))
  ∧ (∀ uid amount bank_code account_number account_name narration
       recipientResponse transferResponse st ps,
       Payments.withdraw uid amount bank_code account_number account_name
         narration recipientResponse transferResponse
         (with_transactionpins ps st)
       = (fst (Payments.withdraw uid amount bank_code account_number
                 account_name narration recipientResponse transferResponse st),
          with_transactionpins ps
            (snd (Payments.withdraw uid amount bank_code account_number
                    account_name narration recipientResponse transferResponse
                    st)))).
Proof.
  intros st t w.
  split; [reflexivity|]. split; [vm_compute; repeat split; reflexivity|].
  split; [vm_compute; reflexivity|].
  split; [vm_compute; reflexivity|].
  split; [vm_compute; reflexivity|].
  split; [vm_compute; reflexivity|].
  split.
  - intros. apply Payments_transfer_reads_no_pin.
  - intros. apply Payments_withdraw_reads_no_pin.
Qed.

(** The sibling route of the Paystack router refuses a non-positive amount,
    sent as a number or as the text of one, before it reads or writes
    anything. *)
Lemma Payments_transfer_rejects_nonpositive uid recipientId amount value
    reason recipientResponse transferResponse st :
  Payments.valueOf amount = Payments.finite value →
  (value <= 0)%Q →
  Payments.transfer uid recipientId (Some amount) reason
    recipientResponse transferResponse st
  = (res_json 400 "Recipient ID and valid amount are required", st).
Proof.
  intros V L. apply Qle_bool_iff in L.
  unfold Payments.transfer, Payments.nonpositive.
  destruct recipientId as [rid|]; [|reflexivity].
  now rewrite V, L, !orb_true_r.
Qed.

(** The deposit route never looks at the sign of the amount: with an
    account, a method and a free reference it commits any amount. *)
Lemma Ledger_deposit_commits_any_amount uid amount method uuid st user :
  users st !! uid = Some user → method ≠ "" →
  transactions st !! ("DEP-" +:+ String.substring 0 8 uuid) = None →
  let result := Ledger.deposit uid (Some amount) (Some method) uuid st in
  fst result = res_ok ("DEP-" +:+ String.substring 0 8 uuid)
  ∧ balanceOf (snd result) uid = Some (User.balance user + amount)%Q
  ∧ Transaction.amount
      <$> transactions (snd result) !! ("DEP-" +:+ String.substring 0 8 uuid)
    = Some amount.
Proof.
  intros Eu Nm F result. subst result. apply falsy_string_false in Nm.
  unfold Ledger.deposit, User_findById, Transaction_create,
    Transaction.validate.
  rewrite Nm, Eu. simpl. rewrite F. simpl.
  rewrite lookup_insert_eq. repeat split.
  unfold balanceOf. simpl. now rewrite lookup_alter_eq, Eu.
Qed.

(** C4: the ledger routes commit a transfer of -100 from A to B (both at
    500): the request is answered with success, A ends at 575, B at 400 and
    the two records carry the amount -100; a deposit of -100 is committed
    and debits the account, and a transfer of 0 is committed with the fee
    debited. *)
Theorem C4_nonpositive_amounts_commit :
  let t :=
    Ledger.transfer (H := Sample.bcrypt) Sample.A (Some Sample.B)
      (Some (-100)%Q) (Some "1234") (Some "rent") Sample.uuid
      (Sample.store 500 500 []) in
  let d :=
    Ledger.deposit Sample.A (Some (-100)%Q) (Some "card") Sample.uuid
      (Sample.store 500 500 []) in
  let z :=
    Ledger.transfer (H := Sample.bcrypt) Sample.A (Some Sample.B)
      (Some 0%Q) (Some "1234") (Some "rent") Sample.uuid
      (Sample.store 500 500 []) in
  (fst t = res_ok "TRX-3f2a9c1e"
   ∧ balanceOf (snd t) Sample.A = Some 575%Q
   ∧ balanceOf (snd t) Sample.B = Some 400%Q
   ∧ Transaction.amount <$> transactions (snd t) !! "TRX-3f2a9c1e"
     = Some (-100)%Q
   ∧ Transaction.amount <$> transactions (snd t) !! "TRX-3f2a9c1e-RCV"
     = Some (-100)%Q)
  ∧ (fst d = res_ok "DEP-3f2a9c1e"
     ∧ balanceOf (snd d) Sample.A = Some 400%Q
     ∧ Transaction.amount <$> transactions (snd d) !! "DEP-3f2a9c1e"
       = Some (-100)%Q)
  ∧ (fst z = res_ok "TRX-3f2a9c1e"
     ∧ balanceOf (snd z) Sample.A = Some 475%Q
     ∧ balanceOf (snd z) Sample.B = Some 500%Q).
Proof. vm_compute. repeat split; reflexivity. Qed.

(** ** The webhook *)


(** The route refuses exactly the requests whose header is not the digest
    of the re-serialized body. *)
Lemma signatureMismatch_true secret req :
  Webhook.signatureMismatch secret req = true
  ↔ Webhook.x_paystack_signature req
    ≠ Some (HMAC.sha512_hex secret (JSON.stringify (Webhook.body req))).
Proof.
  unfold Webhook.signatureMismatch, Webhook.hash.
  destruct (Webhook.x_paystack_signature req) as [s|]; [|split; done].
  rewrite negb_true_iff. split.
  - intros E [= ->]. now rewrite String.eqb_refl in E.
  - intros N. destruct (String.eqb _ s) eqn:E; [|reflexivity].
    apply String.eqb_eq in E. congruence.
Qed.

(** Fail-closed: a request the signature check refuses is answered 400 and
    nothing is read, written or dispatched. *)
Lemma webhook_fail_closed secret req st :
  Webhook.x_paystack_signature req
  ≠ Some (HMAC.sha512_hex secret (JSON.stringify (Webhook.body req))) →
  Webhook.webhook secret req st = (res_send 400 "Invalid signature", st).
Proof.
  intros N. apply signatureMismatch_true in N.
  unfold Webhook.webhook. now rewrite N.
Qed.

(** The bytes received play no part in the route. *)
Lemma webhook_ignores_rawBody secret raw1 raw2 body signature st :
  Webhook.webhook secret
    {| Webhook.rawBody := raw1; Webhook.body := body;
       Webhook.x_paystack_signature := signature |} st
  = Webhook.webhook secret
      {| Webhook.rawBody := raw2; Webhook.body := body;
         Webhook.x_paystack_signature := signature |} st.
Proof. reflexivity. Qed.

(** C3: the route verifies the digest of [JSON.stringify(req.body)], not of
    the bytes received.  For the transfer.failed event of TRF_1 sent as its
    JSON text followed by a line feed: the bytes differ from the
    re-serialized body; with the digest of the bytes as header the request
    is refused (400, store unchanged); with the digest of the re-serialized
    body as header, which is not the digest of the bytes, the event is
    processed and [A] is refunded. *)
Theorem C3_digest_of_reserialized_body :
  let event := Sample.transferEvent "transfer.failed" "TRF_1" 10000 in
  let st := Sample.afterTransfer in
  Webhook.rawBody (Sample.signedOverBytes event) ≠ JSON.stringify event
  ∧ Webhook.x_paystack_signature (Sample.signedOverBytes event)
    = Some (HMAC.sha512_hex Sample.secret
              (Webhook.rawBody (Sample.signedOverBytes event)))
  ∧ Webhook.webhook Sample.secret (Sample.signedOverBytes event) st
    = (res_send 400 "Invalid signature", st)
  ∧ Webhook.x_paystack_signature (Sample.signedOverStringify event)
    ≠ Some (HMAC.sha512_hex Sample.secret
              (Webhook.rawBody (Sample.signedOverStringify event)))
  ∧ fst (Webhook.webhook Sample.secret (Sample.signedOverStringify event) st)
    = res_send 200 "Webhook received"
  ∧ balanceOf st Sample.A = Some 400%Q
  ∧ balanceOf
      (snd (Webhook.webhook Sample.secret (Sample.signedOverStringify event) st))
      Sample.A
    = Some 500%Q.
Proof.
  intros event st.
  split; [vm_compute; discriminate|].
  split; [reflexivity|].
  split; [vm_compute; reflexivity|].
  split; [vm_compute; discriminate|].
  vm_compute. repeat split; reflexivity.
Qed.


Lemma handleSuccessfulTransfer_eq data st :
  Webhook.handleSuccessfulTransfer data st
  = if falsy (userIdOf data) then st
    else Transaction_findOneAndUpdate_status (originalReferenceOf data)
           Transaction.successful st.
Proof.
  unfold Webhook.handleSuccessfulTransfer, userIdOf, originalReferenceOf.
  destruct data as [d|]; simpl; [|reflexivity].
  destruct (Webhook.metadata d) as [m|]; simpl; reflexivity.
Qed.



(** The schema's enum has no "reversed": the save of the reversal handler
    is rejected, the handler logs the error and the store is unchanged. *)
Lemma handleReversedTransfer_rejected data st :
  Webhook.handleReversedTransfer data st = st.
Proof.
  unfold Webhook.handleReversedTransfer.
  destruct data as [d|]; [|reflexivity].
  destruct (Webhook.reference d) as [r|]; [|reflexivity].
  destruct (Transaction_findOne (Some r) st) as [x|]; [|reflexivity].
  now rewrite Transaction_save_status_enum.
Qed.

Lemma handleFailedTransfer_found d r x st :
  Webhook.reference d = Some r →
  transactions st !! r = Some x →
  Webhook.handleFailedTransfer (Some d) st
  = if Transaction.validate r (Transaction.set_status Transaction.failed x)
    then
      let st1 :=
        with_transactions
          (alter (Transaction.set_status Transaction.failed) r
             (transactions st)) st in
      match users st !! Transaction.userId x with
      | Some sender =>
        User_save_balance (Transaction.userId x)
          (User.balance sender + Transaction.amount x) st1
      | None => st1
      end
    else st.
Proof.
  intros Er Ex. unfold Webhook.handleFailedTransfer, Transaction_findOne.
  rewrite Er, Ex. unfold Transaction_save_status.
  destruct (Transaction.validate _ _); reflexivity.
Qed.

Lemma handleFailedTransfer_absent d st :
  Transaction_findOne (Webhook.reference d) st = None →
  Webhook.handleFailedTransfer (Some d) st = st.
Proof.
  unfold Webhook.handleFailedTransfer, Transaction_findOne.
  destruct (Webhook.reference d) as [r|]; [|reflexivity].
  now intros ->.
Qed.

(** The refund credits the record's owner the stored amount and touches no
    other balance. *)
Lemma refundSender_balance x st u :
  balanceOf (Webhook.refundSender x st) u
  = if decide (u = Transaction.userId x)
    then (λ b, (b + Transaction.amount x)%Q) <$> balanceOf st u
    else balanceOf st u.
Proof.
  unfold Webhook.refundSender, User_findById.
  destruct (users st !! Transaction.userId x) as [sender|] eqn:Es.
  - destruct (decide (u = Transaction.userId x)) as [->|N].
    + rewrite (balanceOf_save_balance _ _ _ sender) by done.
      unfold balanceOf. now rewrite Es.
    + now rewrite balanceOf_save_balance_ne.
  - destruct (decide (u = Transaction.userId x)) as [->|N]; [|done].
    unfold balanceOf. now rewrite Es.
Qed.

(** The deduction debits the record's counterparty the stored amount and
    touches no other balance. *)
Lemma deductFromRecipient_balance x st u :
  balanceOf (Webhook.deductFromRecipient x st) u
  = if decide (Transaction.recipientId x = Some u)
    then (λ b, (b - Transaction.amount x)%Q) <$> balanceOf st u
    else balanceOf st u.
Proof.
  unfold Webhook.deductFromRecipient, User_findById.
  destruct (Transaction.recipientId x) as [rid|]; [|now rewrite decide_False].
  destruct (users st !! rid) as [recipient|] eqn:Er.
  - destruct (decide (Some rid = Some u)) as [[= <-]|N].
    + rewrite (balanceOf_save_balance _ _ _ recipient) by done.
      unfold balanceOf. now rewrite Er.
    + rewrite balanceOf_save_balance_ne; [done|congruence].
  - destruct (decide (Some rid = Some u)) as [[= <-]|N]; [|done].
    unfold balanceOf. now rewrite Er.
Qed.

(** An accepted transfer.failed credits the record's owner the stored amount
    and moves no other balance. *)
Lemma handleFailedTransfer_balance d r x st u :
  Webhook.reference d = Some r →
  transactions st !! r = Some x →
  Transaction.validate r (Transaction.set_status Transaction.failed x) = true →
  balanceOf (Webhook.handleFailedTransfer (Some d) st) u
  = if decide (u = Transaction.userId x)
    then (λ b, (b + Transaction.amount x)%Q) <$> balanceOf st u
    else balanceOf st u.
Proof.
  intros Er Ex V. rewrite (handleFailedTransfer_found _ _ _ _ Er Ex), V.
  change (balanceOf
            (Webhook.refundSender x
               (with_transactions
                  (alter (Transaction.set_status Transaction.failed) r
                     (transactions st)) st)) u
          = if decide (u = Transaction.userId x)
            then (λ b, (b + Transaction.amount x)%Q) <$> balanceOf st u
            else balanceOf st u).
  now rewrite refundSender_balance.
Qed.

(** C9: the reversal handler applies no compensation.  On the store after
    the transfer TRF_1 of 100 from A to B, a verified transfer.reversed event
    for TRF_1 leaves the store as it was: A keeps 400, B keeps 600 and the
    record stays successful, where the specification has A refunded and B
    debited the stored 100.  The handler assigns the status "reversed", which
    the schema does not list: the save is rejected and the two blocks that
    compensate,
    each of which would move exactly the record's stored amount, are never
    reached, for any event and any store.  The transfer.failed half of the
    claim holds: two events naming the same record are handled alike whatever
    their amount fields, and an accepted one credits the record's owner
    exactly the stored amount and moves no other balance. *)
Theorem C9_reversal_applies_no_compensation :
  let reversed :=
    Sample.deliver
      (Sample.signed (Sample.transferEvent "transfer.reversed" "TRF_1" 10000))
      Sample.afterTransfer in
  (Transaction.amount <$> transactions Sample.afterTransfer !! "TRF_1"
   = Some 100%Q
   ∧ Transaction.recipientId <$> transactions Sample.afterTransfer !! "TRF_1"
     = Some (Some Sample.B)
   ∧ reversed = Sample.afterTransfer
   ∧ balanceOf reversed Sample.A = Some 400%Q
   ∧ balanceOf reversed Sample.B = Some 600%Q
   ∧ statusOf reversed "TRF_1" = Some Transaction.successful)
  ∧ (∀ data st, Webhook.handleReversedTransfer data st = st)
  ∧ (∀ x st u,
       balanceOf (Webhook.refundSender x st) u
       = if decide (u = Transaction.userId x)
         then (λ b, (b + Transaction.amount x)%Q) <$> balanceOf st u
         else balanceOf st u)
  ∧ (∀ x st u,
       balanceOf (Webhook.deductFromRecipient x st) u
       = if decide (Transaction.recipientId x = Some u)
         then (λ b, (b - Transaction.amount x)%Q) <$> balanceOf st u
         else balanceOf st u)
  ∧ (∀ d1 d2 st,
       Webhook.reference d1 = Webhook.reference d2 →
       Webhook.handleFailedTransfer (Some d1) st
       = Webhook.handleFailedTransfer (Some d2) st)
  ∧ (∀ d r x st u,
       Webhook.reference d = Some r →
       transactions st !! r = Some x →
       Transaction.validate r (Transaction.set_status Transaction.failed x)
       = true →
       balanceOf (Webhook.handleFailedTransfer (Some d) st) u
       = if decide (u = Transaction.userId x)
         then (λ b, (b + Transaction.amount x)%Q) <$> balanceOf st u
         else balanceOf st u).
Proof.
  intros reversed.
  split; [vm_compute; repeat split; reflexivity|].
  split; [apply handleReversedTransfer_rejected|].
  split; [apply refundSender_balance|].
  split; [apply deductFromRecipient_balance|].
  split.
  - intros d1 d2 st E. unfold Webhook.handleFailedTransfer. now rewrite E.
  - intros. now apply (handleFailedTransfer_balance d r x).
Qed.

(** ** Duplicate deliveries *)

Lemma alter_set_status_twice s r (m : gmap string Transaction.t) :
  alter (Transaction.set_status s) r (alter (Transaction.set_status s) r m)
  = alter (Transaction.set_status s) r m.
Proof.
  apply map_eq. intros k. destruct (decide (r = k)) as [<-|N].
  - rewrite !lookup_alter_eq. now destruct (m !! r).
  - now rewrite !lookup_alter_ne.
Qed.

(** A second transfer.success changes nothing more. *)
Lemma handleSuccessfulTransfer_idempotent data st :
  Webhook.handleSuccessfulTransfer data
    (Webhook.handleSuccessfulTransfer data st)
  = Webhook.handleSuccessfulTransfer data st.
Proof.
  rewrite !handleSuccessfulTransfer_eq.
  destruct (falsy (userIdOf data)); [reflexivity|].
  unfold Transaction_findOneAndUpdate_status.
  destruct (originalReferenceOf data) as [r|]; [|reflexivity].
  unfold with_transactions. simpl. now rewrite alter_set_status_twice.
Qed.

(** A second charge.success under a non-empty reference finds the record of
    the first and changes nothing more. *)
Lemma handleSuccessfulPayment_idempotent d r st :
  Webhook.reference d = Some r → r ≠ "" →
  Webhook.handleSuccessfulPayment (Some d)
    (Webhook.handleSuccessfulPayment (Some d) st)
  = Webhook.handleSuccessfulPayment (Some d) st.
Proof.
  intros Er Nr. apply falsy_string_false in Nr.
  unfold Webhook.handleSuccessfulPayment at 2 3.
  destruct (Webhook.metadata d) as [m|] eqn:Em; [|unfold Webhook.handleSuccessfulPayment; now rewrite Em].
  destruct (falsy (Webhook.userId m)) eqn:Ef; [unfold Webhook.handleSuccessfulPayment; now rewrite Em, Ef|].
  set (uid := default "" (Webhook.userId m)).
  unfold User_findById, Transaction_findOne. rewrite Er.
  destruct (users st !! uid) as [user|] eqn:Eu;
    [|unfold Webhook.handleSuccessfulPayment, User_findById;
      rewrite Em, Ef; fold uid; now rewrite Eu].
  destruct (transactions st !! r) as [x|] eqn:Ex;
    [unfold Webhook.handleSuccessfulPayment, User_findById,
       Transaction_findOne; rewrite Em, Ef, Er; fold uid; now rewrite Eu, Ex|].
  destruct (Webhook.amount d) as [a|] eqn:Ea;
    [|unfold Webhook.handleSuccessfulPayment, User_findById,
       Transaction_findOne; rewrite Em, Ef, Er, Ea; fold uid; now rewrite Eu, Ex].
  unfold Transaction_create, Transaction.validate. simpl.
  rewrite Nr, Ex. simpl.
  unfold Webhook.handleSuccessfulPayment, User_findById, Transaction_findOne.
  rewrite Em, Ef, Er. fold uid. simpl.
  now rewrite lookup_alter_eq, Eu, lookup_insert_eq.
Qed.

(** A second transfer.reversed changes nothing more (neither did the first). *)
Lemma handleReversedTransfer_idempotent data st :
  Webhook.handleReversedTransfer data
    (Webhook.handleReversedTransfer data st)
  = Webhook.handleReversedTransfer data st.
Proof. now rewrite !handleReversedTransfer_rejected. Qed.

(** Every accepted delivery of a transfer.failed event credits the owner of
    the record the stored amount again: after two deliveries the owner holds
    the amount twice over. *)
Lemma handleFailedTransfer_twice d r x owner st :
  Webhook.reference d = Some r →
  transactions st !! r = Some x →
  Transaction.validate r (Transaction.set_status Transaction.failed x) = true →
  users st !! Transaction.userId x = Some owner →
  let once := Webhook.handleFailedTransfer (Some d) st in
  let twice := Webhook.handleFailedTransfer (Some d) once in
  balanceOf once (Transaction.userId x)
  = Some (User.balance owner + Transaction.amount x)%Q
  ∧ balanceOf twice (Transaction.userId x)
    = Some (User.balance owner + Transaction.amount x + Transaction.amount x)%Q.
Proof.
  intros Er Ex V Eo once twice.
  assert (E1 : once
               = User_save_balance (Transaction.userId x)
                   (User.balance owner + Transaction.amount x)
                   (with_transactions
                      (alter (Transaction.set_status Transaction.failed) r
                         (transactions st)) st)).
  { subst once. rewrite (handleFailedTransfer_found _ _ _ _ Er Ex), V.
    cbn zeta. now rewrite Eo. }
  assert (B1 : balanceOf once (Transaction.userId x)
               = Some (User.balance owner + Transaction.amount x)%Q).
  { rewrite E1. now apply (balanceOf_save_balance _ _ _ owner). }
  split; [exact B1|].
  assert (Ex1 : transactions once !! r
                = Some (Transaction.set_status Transaction.failed x)).
  { rewrite E1. simpl. now rewrite lookup_alter_eq, Ex. }
  assert (Eo1 : users once !! Transaction.userId x
                = Some (User.set_balance
                          (User.balance owner + Transaction.amount x) owner)).
  { rewrite E1. simpl. now rewrite lookup_alter_eq, Eo. }
  subst twice. rewrite (handleFailedTransfer_found _ _ _ _ Er Ex1).
  change (Transaction.set_status Transaction.failed
            (Transaction.set_status Transaction.failed x))
    with (Transaction.set_status Transaction.failed x).
  rewrite V. cbn zeta. change (Transaction.userId (Transaction.set_status
    Transaction.failed x)) with (Transaction.userId x).
  rewrite Eo1. simpl.
  eapply balanceOf_save_balance. simpl. exact Eo1.
Qed.

(** C1: the transfer.failed event of TRF_1, verified, delivered twice to the
    store reached after [A] sent 100 to [B]: the first delivery marks the
    record failed and refunds [A] from 400 to 500, the second refunds [A]
    again, to 600, while [B] keeps the 600 the transfer gave. *)
Theorem C1_duplicate_failed_transfer_refunds_again :
  let req := Sample.signed (Sample.transferEvent "transfer.failed" "TRF_1" 10000) in
  let once := Sample.deliver req Sample.afterTransfer in
  let twice := Sample.deliver req once in
  reachable (H := Sample.bcrypt) Sample.secret Sample.afterTransfer
  ∧ Webhook.signatureMismatch Sample.secret req = false
  ∧ balanceOf Sample.afterTransfer Sample.A = Some 400%Q
  ∧ balanceOf once Sample.A = Some 500%Q
  ∧ balanceOf twice Sample.A = Some 600%Q
  ∧ balanceOf twice Sample.B = Some 600%Q
  ∧ statusOf once "TRF_1" = Some Transaction.failed
  ∧ statusOf twice "TRF_1" = Some Transaction.failed.
Proof.
  split; [apply Sample_afterTransfer_reachable|].
  vm_compute. repeat split; reflexivity.
Qed.

(** C2: transitions outside the specification's list are applied.  On the
    store reached after [A] sent 100 to [B], the record TRF_1 is
    successful; a verified transfer.failed event moves it to failed and
    credits [A] 100, and a verified transfer.success event then moves it
    from failed back to successful.  Neither successful to failed nor
    failed to successful is an allowed transition. *)
Theorem C2_transitions_from_settled_states :
  let failedEvent := Sample.signed (Sample.transferEvent "transfer.failed" "TRF_1" 10000) in
  let successEvent := Sample.signed (Sample.successEvent "TRF_1" Sample.A "TRF_1") in
  let st1 := Sample.deliver failedEvent Sample.afterTransfer in
  let st2 := Sample.deliver successEvent st1 in
  statusOf Sample.afterTransfer "TRF_1" = Some Transaction.successful
  ∧ statusOf st1 "TRF_1" = Some Transaction.failed
  ∧ allowedTransition Transaction.successful Transaction.failed = false
  ∧ balanceOf Sample.afterTransfer Sample.A = Some 400%Q
  ∧ balanceOf st1 Sample.A = Some 500%Q
  ∧ statusOf st2 "TRF_1" = Some Transaction.successful
  ∧ allowedTransition Transaction.failed Transaction.successful = false.
Proof. vm_compute. repeat split; reflexivity. Qed.

(** ** The status of created records *)

Lemma createsOnly_same s st st' :
  transactions st' = transactions st → createsOnly s st st'.
Proof. intros E r x [N S]. rewrite E in S. congruence. Qed.

Lemma createsOnly_insert s st st1 st2 r x :
  createsOnly s st st1 →
  transactions st2 = <[r := x]> (transactions st1) →
  Transaction.status x = s →
  createsOnly s st st2.
Proof.
  intros C E Sx k y [N S]. rewrite E in S.
  destruct (decide (r = k)) as [<-|Nk].
  - rewrite lookup_insert_eq in S. now injection S as <-.
  - rewrite lookup_insert_ne in S by done. now apply (C k y).
Qed.

(** Closes a goal about the records a route creates, once the route is
    unfolded. *)
Ltac creations :=
  repeat case_match; simpl; saves;
  repeat first
    [ apply createsOnly_same; reflexivity
    | eapply createsOnly_insert; [ | reflexivity | reflexivity ] ].

(** The provider-backed withdrawal debits the account and then fails to
    save its record, whose type "withdrawal" is not in the schema's enum:
    it never adds a record. *)
Lemma Payments_withdraw_never_records uid amount bank_code account_number
    account_name narration recipientResponse transferResponse st :
  transactions
    (snd (Payments.withdraw uid amount bank_code account_number account_name
            narration recipientResponse transferResponse st))
  = transactions st.
Proof.
  unfold Payments.withdraw, Transaction_create, Transaction.validate.
  repeat case_match; simpl in *; try done.
Qed.

(** The ledger's on-platform transfer and confirmed deposit, which settle at
    once, create their records successful; the bank-transfer deposit, which
    waits for its confirmation, is created pending. *)
Lemma status_at_creation `{Bcrypt} uid st :
  (∀ recipientId amount pin purpose uuid,
     createsOnly Transaction.successful st
       (snd (Ledger.transfer uid recipientId amount pin purpose uuid st)))
  ∧ (∀ reference amount,
       createsOnly Transaction.successful st
         (snd (Ledger.confirmDeposit uid reference amount st)))
  ∧ (∀ amount reference,
       createsOnly Transaction.pending st
         (snd (BankDeposit.initiate uid amount reference st))).
Proof.
  repeat split; intros.
  - unfold Ledger.transfer, Ledger.commit. creations.
  - unfold Ledger.confirmDeposit. creations.
  - unfold BankDeposit.initiate. creations.
Qed.

(** C8: the provider-backed transfer records its transfer as settled before
    the provider has settled it.  On the sample store, which holds no record,
    the transfer of 100 from A to B through the Paystack router creates the
    records TRF_1 and TRF_1-RCV with status successful, and the ledger's
    withdrawal to a bank creates its record successful, where the
    bank-transfer deposit of the same router, which also waits for an
    outside confirmation, creates its record pending.  The records of the
    operations that settle at once (on-platform transfer, confirmed deposit)
    are created successful, as the claim says. *)
Theorem C8_provider_transfer_created_successful :
  let st := Sample.store 500 500 [] in
  let withdrawn :=
    snd (Ledger.withdraw (H := Sample.bcrypt) Sample.A
           (Some Sample.bankDetails) (Some 100%Q) (Some "1234") Sample.uuid st) in
  let initiated :=
    snd (BankDeposit.initiate Sample.A (Some 100%Q) (Some "BTD_1") st) in
  transactions st = ∅
  ∧ statusOf Sample.afterTransfer "TRF_1" = Some Transaction.successful
  ∧ statusOf Sample.afterTransfer "TRF_1-RCV" = Some Transaction.successful
  ∧ ¬ createsOnly Transaction.pending st Sample.afterTransfer
  ∧ statusOf withdrawn "WTH-3f2a9c1e" = Some Transaction.successful
  ∧ ¬ createsOnly Transaction.pending st withdrawn
  ∧ statusOf initiated "BTD_1" = Some Transaction.pending
  ∧ (∀ (H : Bcrypt) uid st recipientId amount pin purpose uuid,
       createsOnly Transaction.successful st
         (snd (Ledger.transfer uid recipientId amount pin purpose uuid st)))
  ∧ (∀ uid st reference amount,
       createsOnly Transaction.successful st
         (snd (Ledger.confirmDeposit uid reference amount st))).
Proof.
  intros st withdrawn initiated.
  split; [reflexivity|].
  split; [vm_compute; reflexivity|]. split; [vm_compute; reflexivity|].
  split.
  { intros C.
    specialize (C "TRF_1"
      (Payments.record Sample.A Transaction.send 100 Transaction.successful
         "Transfer" (Some Sample.B) (Some "Bayo Eze"))).
    discriminate C. split; vm_compute; reflexivity. }
  split; [vm_compute; reflexivity|].
  split.
  { intros C.
    specialize (C "WTH-3f2a9c1e"
      (Ledger.bankTransaction Transaction.withdraw
         Sample.A 100 Sample.bankDetails "Withdrawal")).
    discriminate C. split; vm_compute; reflexivity. }
  split; [vm_compute; reflexivity|].
  split.
  - intros H uid st0 **. now apply (status_at_creation (H := H) uid st0).
  - intros uid st0 **. now apply (status_at_creation (H := Sample.bcrypt) uid st0).
Qed.

(** * Further properties of the routes *)

(** ** Statuses that are never reached *)

Lemma createsOnly_live s st st' :
  s = Transaction.successful ∨ s = Transaction.pending →
  createsOnly s st st' → createsLive st st'.
Proof. intros [-> | ->] C r x E; [left|right]; exact (C r x E). Qed.

Lemma createsOnly_alter s f r st st' :
  transactions st' = alter f r (transactions st) → createsOnly s st st'.
Proof.
  intros E k x [N S]. rewrite E in S.
  destruct (decide (r = k)) as [<-|Nk].
  - rewrite lookup_alter_eq, N in S. discriminate.
  - rewrite lookup_alter_ne in S by done. congruence.
Qed.

Lemma Webhook_dispatch_creates event st :
  createsOnly Transaction.successful st (Webhook.dispatch event st).
Proof.
  unfold Webhook.dispatch.
  destruct (JSON.asString _) as [name|]; [|now apply createsOnly_same].
  repeat case_match; try (now apply createsOnly_same).
  - unfold Webhook.handleSuccessfulPayment. creations.
  - unfold Webhook.handleSuccessfulTransfer,
      Transaction_findOneAndUpdate_status.
    repeat case_match; try (now apply createsOnly_same).
    now eapply createsOnly_alter.
  - unfold Webhook.handleFailedTransfer, Transaction_save_status,
      Webhook.refundSender.
    repeat case_match; simplify_eq; try (now apply createsOnly_same);
      now eapply createsOnly_alter.
  - rewrite handleReversedTransfer_rejected. now apply createsOnly_same.
Qed.

Lemma run_creates `{Bcrypt} secret c st :
  createsLive st (snd (run secret c st)).
Proof.
  destruct c; simpl.
  - eapply createsOnly_live; [now left|].
    unfold Ledger.transfer, Ledger.commit. creations.
  - eapply createsOnly_live; [now left|].
    unfold Ledger.bankTransfer, Ledger.debitToBank, Ledger.commit. creations.
  - eapply createsOnly_live; [now left|].
    unfold Ledger.withdraw, Ledger.debitToBank, Ledger.commit. creations.
  - eapply createsOnly_live; [now left|]. unfold Ledger.deposit. creations.
  - eapply createsOnly_live; [now left|].
    unfold Ledger.confirmDeposit. creations.
  - eapply createsOnly_live; [now right|].
    unfold BankDeposit.initiate. creations.
  - rewrite BankDeposit_cancel_unchanged.
    eapply createsOnly_live; [now left|]. now apply createsOnly_same.
  - eapply createsOnly_live; [now left|].
    unfold BankDeposit.confirm, Transaction_save_status.
    repeat case_match; simplify_eq; simpl; try (now apply createsOnly_same).
    now eapply createsOnly_alter.
  - eapply createsOnly_live; [now left|].
    apply createsOnly_same, Payments_withdraw_never_records.
  - eapply createsOnly_live; [now left|].
    unfold Payments.chargeCard. creations.
  - eapply createsOnly_live; [now left|]. unfold Payments.callback. creations.
  - eapply createsOnly_live; [now left|]. unfold Payments.transfer. creations.
  - eapply createsOnly_live; [now left|].
    unfold Webhook.webhook. destruct (Webhook.signatureMismatch _ _); simpl.
    + now apply createsOnly_same.
    + apply Webhook_dispatch_creates.
  - eapply createsOnly_live; [now left|].
    unfold Stripe.confirmPayment. creations.
  - eapply createsOnly_live; [now left|].
    unfold Users.setTransactionPin. repeat case_match; now apply createsOnly_same.
Qed.

(** X1: in every store the API reaches, a record's status is pending,
    successful or failed (no route ever leaves a record declined, reversed
    or cancelled), its type is one of the schema's and its reference is not
    empty. *)
Theorem reachable_records_live `{Bcrypt} secret st r x :
  reachable secret st → transactions st !! r = Some x →
  (Transaction.status x = Transaction.pending
   ∨ Transaction.status x = Transaction.successful
   ∨ Transaction.status x = Transaction.failed)
  ∧ Transaction.transactionType_enum (Transaction.transactionType x) = true
  ∧ r ≠ "".
Proof.
  intros R Ex. split.
  - revert r x Ex. induction R as [st E _ _|c st _ IH]; intros r x Ex.
    + now rewrite E, lookup_empty in Ex.
    + destruct (transactions st !! r) as [y|] eqn:Ey.
      * destruct (run_status_transitions secret c st r y Ey)
          as (x' & Ex' & _ & D).
        rewrite Ex in Ex'. injection Ex' as <-.
        destruct D as [D|[D|D]]; rewrite D; auto. now apply (IH r y).
      * destruct (run_creates secret c st r x (conj Ey Ex)) as [D|D];
          rewrite D; auto.
  - pose proof (reachable_recordsValid secret st R r x Ex) as V.
    unfold Transaction.validate in V.
    apply andb_true_iff in V as [V Nr]. apply andb_true_iff in V as [Vt _].
    split; [exact Vt|]. apply falsy_string_false.
    now apply negb_true_iff in Nr.
Qed.

(** The record TRF_1 of the sample store after the transfer. *)
Lemma reachable_records_live_scenario :
  let x :=
    Payments.record Sample.A Transaction.send 100 Transaction.successful
      "Transfer" (Some Sample.B) (Some "Bayo Eze") in
  (Transaction.status x = Transaction.pending
   ∨ Transaction.status x = Transaction.successful
   ∨ Transaction.status x = Transaction.failed)
  ∧ Transaction.transactionType_enum (Transaction.transactionType x) = true
  ∧ "TRF_1" ≠ "".
Proof.
  intros x.
  apply (reachable_records_live (H := Sample.bcrypt) Sample.secret
           Sample.afterTransfer "TRF_1" x).
  - apply Sample_afterTransfer_reachable.
  - vm_compute. reflexivity.
Defined.

(** X2: whatever sequence of calls is served, a stored record stays under
    its reference and keeps every field but its status: owner, type, amount,
    fee, counterparty and purpose are never rewritten and no record is ever
    deleted. *)
Theorem records_outlive_every_call `{Bcrypt} secret cs st r x :
  transactions st !! r = Some x →
  ∃ x', transactions (runAll secret cs st) !! r = Some x'
        ∧ sameExceptStatus x x'.
Proof.
  revert st x. induction cs as [|c cs IH]; intros st x Ex.
  - exists x. split; [exact Ex|apply sameExceptStatus_refl].
  - destruct (run_status_transitions secret c st r x Ex) as (y & Ey & S & _).
    destruct (IH _ y Ey) as (z & Ez & T).
    exists z. split; [exact Ez|]. now apply (sameExceptStatus_trans x y z).
Qed.

(** Two deliveries of the failure of TRF_1 and a deposit: the record keeps
    its owner and its amount. *)
Lemma records_outlive_every_call_scenario :
  let x :=
    Payments.record Sample.A Transaction.send 100 Transaction.successful
      "Transfer" (Some Sample.B) (Some "Bayo Eze") in
  let failure :=
    PaymentsWebhook
      (Sample.signed (Sample.transferEvent "transfer.failed" "TRF_1" 10000)) in
  ∃ x', transactions
          (runAll (H := Sample.bcrypt) Sample.secret
             [failure; LedgerDeposit Sample.A (Some 5%Q) (Some "card") Sample.uuid;
              failure]
             Sample.afterTransfer) !! "TRF_1" = Some x'
        ∧ sameExceptStatus x x'.
Proof.
  intros x failure.
  apply (records_outlive_every_call (H := Sample.bcrypt)).
  vm_compute. reflexivity.
Defined.

Lemma Qle_bool_false (x y : Q) : (y < x)%Q → Qle_bool x y = false.
Proof.
  intros L. destruct (Qle_bool x y) eqn:E; [|reflexivity].
  apply Qle_bool_iff in E. exfalso. exact (Qlt_not_le _ _ L E).
Qed.

Lemma falsy_number_false (x : Q) : ¬ (x == 0)%Q → falsy_number x = false.
Proof.
  intros N. unfold falsy_number. destruct (Qeq_bool x 0) eqn:E; [|reflexivity].
  apply Qeq_bool_iff in E. contradiction.
Qed.

Lemma positive_truthy (x : Q) :
  (0 < x)%Q → falsy_number x || Qle_bool x 0 = false.
Proof.
  intros L. rewrite Qle_bool_false by exact L.
  rewrite falsy_number_false; [reflexivity|].
  intros E. rewrite E in L. exact (Qlt_irrefl _ L).
Qed.

Lemma Transaction_create_fresh r x st :
  Transaction.validate r x = true →
  transactions st !! r = None →
  Transaction_create (Some r) x st
  = Some (with_transactions (<[r := x]> (transactions st)) st).
Proof. intros V F. unfold Transaction_create. now rewrite V, F. Qed.

(** X3: a bank-transfer deposit is credited exactly once, on confirmation.
    Initiating it (positive amount, fresh non-empty reference) records it
    pending and moves no balance; confirming it marks the record successful
    and credits its owner the recorded amount, every other account staying as
    it was; confirming it again finds no pending record, answers 404 and
    changes nothing. *)
Theorem BankDeposit_credited_once_on_confirmation uid amount reference st user :
  users st !! uid = Some user →
  (0 < amount)%Q →
  reference ≠ "" →
  transactions st !! reference = None →
  let initiated := BankDeposit.initiate uid (Some amount) (Some reference) st in
  let confirmed := BankDeposit.confirm (Some reference) (snd initiated) in
  fst initiated = res_ok reference
  ∧ users (snd initiated) = users st
  ∧ statusOf (snd initiated) reference = Some Transaction.pending
  ∧ fst confirmed = res_json 200 "Bank transfer deposit confirmed"
  ∧ balanceOf (snd confirmed) uid = Some (User.balance user + amount)%Q
  ∧ (∀ other, other ≠ uid →
       users (snd confirmed) !! other = users st !! other)
  ∧ statusOf (snd confirmed) reference = Some Transaction.successful
  ∧ BankDeposit.confirm (Some reference) (snd confirmed)
    = (res_json 404 "Transaction not found", snd confirmed).
Proof.
  intros Eu L Nr F initiated confirmed.
  assert (Ei : initiated
               = (res_ok reference,
                  with_transactions
                    (<[reference := BankDeposit.pendingDeposit uid amount]>
                       (transactions st)) st)).
  { subst initiated. unfold BankDeposit.initiate.
    rewrite (positive_truthy _ L). unfold falsy.
    apply falsy_string_false in Nr. rewrite Nr.
    unfold User_findById. rewrite Eu.
    unfold Transaction_create, Transaction.validate. simpl.
    rewrite Nr, F. simpl. reflexivity. }
  assert (Ec : confirmed
               = (res_json 200 "Bank transfer deposit confirmed",
                  User_save_balance uid (User.balance user + amount)
                    (with_transactions
                       (alter (Transaction.set_status Transaction.successful)
                          reference
                          (<[reference := BankDeposit.pendingDeposit uid amount]>
                             (transactions st))) st))).
  { subst confirmed. rewrite Ei. cbn [snd].
    unfold BankDeposit.confirm.
    apply falsy_string_false in Nr. rewrite Nr.
    unfold BankDeposit.findPendingDeposit. cbn [transactions with_transactions].
    rewrite lookup_insert_eq. cbn.
    unfold User_findById. cbn. rewrite Eu.
    unfold Transaction_save_status, Transaction.validate. cbn.
    rewrite Nr. reflexivity. }
  rewrite Ei, Ec. cbn [fst snd].
  repeat split.
  - unfold statusOf. cbn. now rewrite lookup_insert_eq.
  - now apply (balanceOf_save_balance _ _ _ user).
  - intros other N. cbn. now rewrite lookup_alter_ne.
  - unfold statusOf. cbn. now rewrite lookup_alter_eq, lookup_insert_eq.
  - unfold BankDeposit.confirm.
    apply falsy_string_false in Nr. rewrite Nr.
    unfold BankDeposit.findPendingDeposit. cbn.
    now rewrite lookup_alter_eq, lookup_insert_eq.
Qed.

(** A deposit of 250 by [A] under the reference BTD-1. *)
Lemma BankDeposit_credited_once_on_confirmation_scenario :
  let initiated :=
    BankDeposit.initiate Sample.A (Some 250%Q) (Some "BTD-1")
      (Sample.store 500 500 []) in
  let confirmed := BankDeposit.confirm (Some "BTD-1") (snd initiated) in
  balanceOf (snd initiated) Sample.A = Some 500%Q
  ∧ balanceOf (snd confirmed) Sample.A = Some (500 + 250)%Q
  ∧ BankDeposit.confirm (Some "BTD-1") (snd confirmed)
    = (res_json 404 "Transaction not found", snd confirmed).
Proof.
  intros initiated confirmed.
  destruct (BankDeposit_credited_once_on_confirmation Sample.A 250 "BTD-1"
              (Sample.store 500 500 []) (Sample.user "Ada" "Obi" 500))
    as (_ & _ & _ & _ & B & _ & _ & C).
  - vm_compute. reflexivity.
  - reflexivity.
  - discriminate.
  - vm_compute. reflexivity.
  - split; [vm_compute; reflexivity|]. split; [exact B | exact C].
Defined.

(** X4: the cancellation of a bank-transfer deposit never takes effect.  The
    status it assigns is not in the schema's enum, so the save is rejected:
    the route never answers that the deposit is cancelled and never changes
    the store, and for a pending deposit of the caller it answers 500; the
    deposit stays pending and can still be confirmed and credited. *)
Theorem BankDeposit_cancel_never_takes_effect uid reference st :
  snd (BankDeposit.cancel uid reference st) = st
  ∧ fst (BankDeposit.cancel uid reference st)
    ≠ res_json 200 "Bank transfer deposit cancelled"
  ∧ (∀ r x, reference = Some r → r ≠ "" →
       BankDeposit.findPendingDeposit r (Some uid) st = Some x →
       fst (BankDeposit.cancel uid reference st) = res_json 500 "Server error"
       ∧ statusOf (snd (BankDeposit.cancel uid reference st)) r
         = Some Transaction.pending
       ∧ (∀ owner, users st !! Transaction.userId x = Some owner →
            balanceOf
              (snd (BankDeposit.confirm reference
                      (snd (BankDeposit.cancel uid reference st))))
              (Transaction.userId x)
            = Some (User.balance owner + Transaction.amount x)%Q)).
Proof.
  split; [apply BankDeposit_cancel_unchanged|]. split.
  - unfold BankDeposit.cancel. repeat case_match; try discriminate.
    match goal with E : Transaction_save_status _ _ _ _ = Some _ |- _ =>
      rewrite Transaction_save_status_enum in E by reflexivity; discriminate
    end.
  - intros r x -> Nr Ex. rewrite BankDeposit_cancel_unchanged.
    apply falsy_string_false in Nr.
    assert (Ep : transactions st !! r = Some x
                 ∧ Transaction.status x = Transaction.pending
                 ∧ Transaction.transactionType x = Transaction.deposit).
    { unfold BankDeposit.findPendingDeposit in Ex.
      destruct (transactions st !! r) as [y|]; [|discriminate].
      destruct (Transaction.kind_eqb _ _) eqn:K; [|discriminate].
      destruct (Transaction.state_eqb _ _) eqn:S; [|discriminate].
      simpl in Ex. destruct (String.eqb _ _); [|discriminate].
      injection Ex as ->.
      repeat split.
      - now destruct (Transaction.status x).
      - now destruct (Transaction.transactionType x). }
    destruct Ep as (El & Es & Ek).
    split; [|split].
    + unfold BankDeposit.cancel. rewrite Nr, Ex.
      now rewrite Transaction_save_status_enum.
    + unfold statusOf. now rewrite El, <- Es.
    + intros owner Eo. unfold BankDeposit.confirm. rewrite Nr.
      unfold BankDeposit.findPendingDeposit. rewrite El, Ek, Es. cbn.
      unfold User_findById. rewrite Eo.
      unfold Transaction_save_status, Transaction.validate. cbn.
      rewrite Ek, Nr. cbn.
      now apply (balanceOf_save_balance _ _ _ owner).
Qed.

(** [A] initiates the deposit BTD-1 of 250 and tries to cancel it. *)
Lemma BankDeposit_cancel_never_takes_effect_scenario :
  let st :=
    snd (BankDeposit.initiate Sample.A (Some 250%Q) (Some "BTD-1")
           (Sample.store 500 500 [])) in
  let result := BankDeposit.cancel Sample.A (Some "BTD-1") st in
  fst result = res_json 500 "Server error"
  ∧ statusOf (snd result) "BTD-1" = Some Transaction.pending.
Proof.
  intros st result.
  destruct (BankDeposit_cancel_never_takes_effect Sample.A (Some "BTD-1") st)
    as (_ & _ & C).
  destruct (C "BTD-1" (BankDeposit.pendingDeposit Sample.A 250) eq_refl)
    as (R & S & _).
  - discriminate.
  - vm_compute. reflexivity.
  - split; [exact R | exact S].
Defined.

(** X5: the ledger's confirm-deposit credits a reference once.  With a
    fresh, non-empty reference the first call commits and credits the caller
    the amount; any later call under the same reference, by any caller and
    for any amount, changes nothing, and is answered "Transaction already
    processed" when the caller exists and the amount is given. *)
Theorem Ledger_confirmDeposit_credits_once uid reference amount st user :
  users st !! uid = Some user →
  reference ≠ "" →
  transactions st !! reference = None →
  let first := Ledger.confirmDeposit uid (Some reference) (Some amount) st in
  fst first = res_ok reference
  ∧ balanceOf (snd first) uid = Some (User.balance user + amount)%Q
  ∧ ∀ uid' amount',
      snd (Ledger.confirmDeposit uid' (Some reference) amount' (snd first))
      = snd first
      ∧ (∀ a, amount' = Some a → users st !! uid' ≠ None →
           Ledger.confirmDeposit uid' (Some reference) amount' (snd first)
           = (res_json 400 "Transaction already processed", snd first)).
Proof.
  intros Eu Nr F first. apply falsy_string_false in Nr.
  assert (E1 : first
               = (res_ok reference,
                  with_transactions
                    (<[reference := Ledger.depositTransaction uid amount
                                      "Deposit via Paystack"]>
                       (transactions st))
                    (User_save_balance uid (User.balance user + amount) st))).
  { subst first. unfold Ledger.confirmDeposit, User_findById,
      Transaction_findOne.
    rewrite Nr, Eu, F.
    unfold Transaction_create, Transaction.validate. cbn.
    rewrite Nr, F. reflexivity. }
  rewrite E1. cbn [fst snd]. split; [reflexivity|]. split.
  - unfold balanceOf. cbn. now rewrite lookup_alter_eq, Eu.
  - intros uid' amount'.
    unfold Ledger.confirmDeposit, User_findById, Transaction_findOne.
    cbn [transactions with_transactions users User_save_balance with_users].
    rewrite lookup_insert_eq, Nr. split.
    + destruct amount'; [|reflexivity]. now destruct (alter _ _ _ !! uid').
    + intros a -> Ne.
      destruct (decide (uid = uid')) as [<-|N].
      * now rewrite lookup_alter_eq, Eu.
      * rewrite lookup_alter_ne by done.
        now destruct (users st !! uid').
Qed.

(** [A] confirms the deposit PAY-7 of 40, then [B] tries the same
    reference for 9000. *)
Lemma Ledger_confirmDeposit_credits_once_scenario :
  let first :=
    Ledger.confirmDeposit Sample.A (Some "PAY-7") (Some 40%Q)
      (Sample.store 500 500 []) in
  balanceOf (snd first) Sample.A = Some (500 + 40)%Q
  ∧ Ledger.confirmDeposit Sample.B (Some "PAY-7") (Some 9000%Q) (snd first)
    = (res_json 400 "Transaction already processed", snd first).
Proof.
  intros first.
  destruct (Ledger_confirmDeposit_credits_once Sample.A "PAY-7" 40
              (Sample.store 500 500 []) (Sample.user "Ada" "Obi" 500))
    as (_ & B & C).
  - vm_compute. reflexivity.
  - discriminate.
  - vm_compute. reflexivity.
  - split; [exact B|].
    apply (proj2 (C Sample.B (Some 9000%Q)) 9000%Q eq_refl).
    vm_compute. discriminate.
Defined.

(** X6: a card payment is credited once, whichever of the payment callback
    and the charge.success event comes first.  For an existing account and a
    fresh, non-empty reference, the callback and the event handler leave the
    same store: the account credited the provider's amount divided by 100 and
    one successful deposit record; served after the other, each of them
    finds that record and changes nothing. *)
Theorem payment_credited_once_by_callback_and_event uid r kobo b d m st user :
  users st !! uid = Some user →
  uid ≠ "" → r ≠ "" →
  transactions st !! r = None →
  Webhook.reference d = Some r →
  Webhook.amount d = Some kobo →
  Webhook.metadata d = Some m →
  Webhook.userId m = Some uid →
  let answer :=
    returned b {| Payments.v_status := "success"; Payments.v_amount := kobo;
                  Payments.v_userId := Some uid |} in
  let viaCallback := snd (Payments.callback (Some r) answer st) in
  let viaEvent := Webhook.handleSuccessfulPayment (Some d) st in
  viaCallback = viaEvent
  ∧ balanceOf viaEvent uid = Some (User.balance user + kobo / 100)%Q
  ∧ statusOf viaEvent r = Some Transaction.successful
  ∧ Webhook.handleSuccessfulPayment (Some d) viaCallback = viaCallback
  ∧ snd (Payments.callback (Some r) answer viaEvent) = viaEvent.
Proof.
  intros Eu Nu Nr F Er Ea Em Ei answer viaCallback viaEvent.
  apply falsy_string_false in Nu, Nr.
  set (st' :=
         with_transactions
           (<[r := Payments.record uid Transaction.deposit (kobo / 100)
                     Transaction.successful "Deposit via Paystack" None None]>
              (transactions st))
           (User_save_balance uid (User.balance user + kobo / 100) st)).
  assert (E1 : viaCallback = st').
  { subst viaCallback answer. unfold Payments.callback, falsy. rewrite Nr.
    cbn. unfold User_findById. rewrite Eu, F.
    unfold Transaction_create, Transaction.validate. cbn.
    rewrite ?F, Nr, ?F. reflexivity. }
  assert (E2 : viaEvent = st').
  { subst viaEvent. unfold Webhook.handleSuccessfulPayment.
    rewrite Em, Ei, Er, Ea. cbn. rewrite Nu.
    unfold User_findById. rewrite Eu, F.
    unfold Transaction_create, Transaction.validate. cbn.
    rewrite ?F, Nr, ?F. reflexivity. }
  assert (Eu' : users st' !! uid
                = Some (User.set_balance (User.balance user + kobo / 100) user)).
  { subst st'. cbn. now rewrite lookup_alter_eq, Eu. }
  assert (Er' : transactions st' !! r
                = Some (Payments.record uid Transaction.deposit (kobo / 100)
                          Transaction.successful "Deposit via Paystack"
                          None None)).
  { subst st'. cbn. now rewrite lookup_insert_eq. }
  rewrite E1, E2. clear E1 E2. clearbody st'. split; [reflexivity|]. split; [|split; [|split]].
  - unfold balanceOf. now rewrite Eu'.
  - unfold statusOf. now rewrite Er'.
  - unfold Webhook.handleSuccessfulPayment.
    rewrite Em, Ei, Er. cbn. rewrite Nu.
    unfold User_findById. now rewrite Eu', Er'.
  - subst answer. unfold Payments.callback, falsy. rewrite Nr. cbn.
    unfold User_findById. now rewrite Eu', Er'.
Qed.

(** The payment PAY-9 of 12345 kobo to [A]. *)
Lemma payment_credited_once_by_callback_and_event_scenario :
  let d :=
    {| Webhook.reference := Some "PAY-9"; Webhook.amount := Some 12345%Q;
       Webhook.metadata :=
         Some {| Webhook.userId := Some Sample.A;
                 Webhook.originalReference := None |};
       Webhook.reason := None |} in
  let answer :=
    returned true
      {| Payments.v_status := "success"; Payments.v_amount := 12345%Q;
         Payments.v_userId := Some Sample.A |} in
  let viaEvent :=
    Webhook.handleSuccessfulPayment (Some d) (Sample.store 500 500 []) in
  balanceOf viaEvent Sample.A = Some (500 + 12345 / 100)%Q
  ∧ snd (Payments.callback (Some "PAY-9") answer viaEvent) = viaEvent.
Proof.
  intros d answer viaEvent.
  destruct (payment_credited_once_by_callback_and_event Sample.A "PAY-9"
              12345%Q true d
              {| Webhook.userId := Some Sample.A;
                 Webhook.originalReference := None |}
              (Sample.store 500 500 []) (Sample.user "Ada" "Obi" 500))
    as (_ & B & _ & _ & C); try reflexivity; try discriminate.
  split; [exact B | exact C].
Defined.

(** X8: the provider-backed withdrawal debits the account and then fails.
    When the request is complete, the balance covers the amount and the
    provider accepted both the recipient and the transfer, the route debits
    the amount, fails to save its record (its type "withdrawal" is not in
    the schema's enum) and answers 500: the money has left the account and
    no record of it exists. *)
Theorem Payments_withdraw_debits_then_fails uid amount bank_code account_number
    account_name narration recipient_code transfer_code st user :
  users st !! uid = Some user →
  ¬ (amount == 0)%Q →
  (amount <= User.balance user)%Q →
  falsy bank_code = false → falsy account_number = false →
  falsy account_name = false →
  let result :=
    Payments.withdraw uid (Some amount) bank_code account_number account_name
      narration (returned true recipient_code) (returned true transfer_code)
      st in
  fst result = res_json 500 "Server error processing withdrawal"
  ∧ balanceOf (snd result) uid = Some (User.balance user - amount)%Q
  ∧ transactions (snd result) = transactions st.
Proof.
  intros Eu Nz L Eb En Ea result. subst result.
  unfold Payments.withdraw, User_findById.
  rewrite (falsy_number_false _ Nz), Eb, En, Ea, Eu. cbn [orb].
  assert (Lb : Qlt_bool (User.balance user) amount = false).
  { unfold Qlt_bool. apply negb_false_iff. now apply Qle_bool_iff. }
  rewrite Lb.
  unfold Transaction_create, Transaction.validate. cbn.
  destruct transfer_code as [c|]; cbn.
  - repeat split. now apply (balanceOf_save_balance _ _ _ user).
  - repeat split. now apply (balanceOf_save_balance _ _ _ user).
Qed.

(** [A], holding 500, withdraws 120. *)
Lemma Payments_withdraw_debits_then_fails_scenario :
  let result :=
    Payments.withdraw Sample.A (Some 120%Q) (Some "044") (Some "0123456789")
      (Some "Ada Obi") None (returned true (Some "RCP_7"))
      (returned true (Some "TRF_7")) (Sample.store 500 500 []) in
  fst result = res_json 500 "Server error processing withdrawal"
  ∧ balanceOf (snd result) Sample.A = Some (500 - 120)%Q
  ∧ transactions (snd result) = transactions (Sample.store 500 500 []).
Proof.
  intros result.
  apply (Payments_withdraw_debits_then_fails Sample.A 120%Q (Some "044")
           (Some "0123456789") (Some "Ada Obi") None (Some "RCP_7")
           (Some "TRF_7") (Sample.store 500 500 [])
           (Sample.user "Ada" "Obi" 500)); try reflexivity.
  - intros E. discriminate E.
  - intros E. discriminate E.
Defined.

(** X9: a ledger transfer whose recipient is the sender itself credits the
    account.  Sender and recipient are loaded as two documents of the same
    account; the sender's debit of amount plus fee is saved first and the
    recipient's credit, computed from the balance as loaded, is saved over
    it: the account ends at its balance plus the amount, no fee paid, and
    no other account changes. *)
Theorem Ledger_transfer_to_oneself_credits `{Bcrypt} uid amount pin purpose
    uuid st r st' user :
  users st !! uid = Some user →
  Ledger.transfer uid (Some uid) (Some amount) pin purpose uuid st
  = (res_ok r, st') →
  balanceOf st' uid = Some (User.balance user + amount)%Q
  ∧ (∀ other, other ≠ uid → users st' !! other = users st !! other).
Proof.
  intros Eu E.
  apply Ledger_transfer_ok in E
    as (rid & a & p & sender & recipient & [= <-] & [= <-] & _ & Es & Er
        & _ & Eu' & _).
  rewrite Eu in Es, Er. injection Es as <-. injection Er as <-.
  split.
  - unfold balanceOf. now rewrite Eu', !lookup_alter_eq, Eu.
  - intros other N. now rewrite Eu', !lookup_alter_ne.
Qed.

(** [A], holding 500, sends 100 to itself and holds 600. *)
Lemma Ledger_transfer_to_oneself_credits_scenario :
  let result :=
    Ledger.transfer (H := Sample.bcrypt) Sample.A (Some Sample.A)
      (Some 100%Q) (Some "1234") (Some "savings") Sample.uuid
      (Sample.store 500 500 []) in
  fst result = res_ok "TRX-3f2a9c1e"
  ∧ balanceOf (snd result) Sample.A = Some (500 + 100)%Q.
Proof.
  intros result. split; [vm_compute; reflexivity|].
  apply (Ledger_transfer_to_oneself_credits (H := Sample.bcrypt) Sample.A
           100%Q (Some "1234") (Some "savings") Sample.uuid
           (Sample.store 500 500 []) "TRX-3f2a9c1e" (snd result)
           (Sample.user "Ada" "Obi" 500)).
  - reflexivity.
  - vm_compute. reflexivity.
Defined.

(** X10: the routes of [routes/transactions.js] are all-or-nothing.  Each
    of transfer, bank-transfer, withdraw, deposit and confirm-deposit either
    answers with success or leaves the store exactly as it was: whatever was
    saved before a failure is rolled back with the session.  In particular a
    bank transfer or withdrawal that asks to save a beneficiary without an
    account name debits nothing. *)
Theorem Ledger_routes_all_or_nothing `{Bcrypt} uid st :
  (∀ recipientId amount pin purpose uuid,
     let result := Ledger.transfer uid recipientId amount pin purpose uuid st in
     (∃ r, fst result = res_ok r) ∨ snd result = st)
  ∧ (∀ bankDetails amount pin uuid,
       let result := Ledger.bankTransfer uid bankDetails amount pin uuid st in
       (∃ r, fst result = res_ok r) ∨ snd result = st)
  ∧ (∀ bankDetails amount pin uuid,
       let result := Ledger.withdraw uid bankDetails amount pin uuid st in
       (∃ r, fst result = res_ok r) ∨ snd result = st)
  ∧ (∀ amount method uuid,
       let result := Ledger.deposit uid amount method uuid st in
       (∃ r, fst result = res_ok r) ∨ snd result = st)
  ∧ (∀ reference amount,
       let result := Ledger.confirmDeposit uid reference amount st in
       (∃ r, fst result = res_ok r) ∨ snd result = st)
  ∧ (∀ bankDetails amount pin uuid,
       Ledger.saveBeneficiary bankDetails = true →
       falsy (Ledger.accountName bankDetails) = true →
       snd (Ledger.bankTransfer uid (Some bankDetails) amount pin uuid st) = st
       ∧ snd (Ledger.withdraw uid (Some bankDetails) amount pin uuid st) = st).
Proof.
  split; [|split; [|split; [|split; [|split]]]].
  - intros. subst result.
    unfold Ledger.transfer, Ledger.commit. repeat case_match; simpl; eauto.
  - intros. subst result.
    unfold Ledger.bankTransfer, Ledger.debitToBank, Ledger.commit.
    repeat case_match; simpl; eauto.
  - intros. subst result.
    unfold Ledger.withdraw, Ledger.debitToBank, Ledger.commit.
    repeat case_match; simpl; eauto.
  - intros. subst result.
    unfold Ledger.deposit. repeat case_match; simpl; eauto.
  - intros. subst result.
    unfold Ledger.confirmDeposit. repeat case_match; simpl; eauto.
  - intros bankDetails amount pin uuid Es Ea.
    unfold Ledger.bankTransfer, Ledger.withdraw, Ledger.debitToBank,
      Ledger.commit, Beneficiary_create, Beneficiary.validate. cbn.
    rewrite Es, Ea. cbn.
    split; repeat case_match; simpl; try done; saves.
Qed.

(** A bank transfer of [A] asking to save a beneficiary that has no account
    name: nothing is debited. *)
Lemma Ledger_routes_all_or_nothing_scenario :
  let bankDetails :=
    {| Ledger.accountName := None; Ledger.bankName := Some "Access Bank";
       Ledger.accountNumber := Some "0123456789";
       Ledger.saveBeneficiary := true |} in
  snd (Ledger.bankTransfer (H := Sample.bcrypt) Sample.A (Some bankDetails)
         (Some 100%Q) (Some "1234") Sample.uuid (Sample.store 500 500 []))
  = Sample.store 500 500 [].
Proof.
  intros bankDetails.
  destruct (Ledger_routes_all_or_nothing (H := Sample.bcrypt) Sample.A
              (Sample.store 500 500 []))
    as (_ & _ & _ & _ & _ & R).
  exact (proj1 (R bankDetails (Some 100%Q) (Some "1234") Sample.uuid
                  eq_refl eq_refl)).
Defined.



(** X12: a deactivated card cannot be charged.  Deactivating a card of the
    caller answers 200 and changes nothing but that card's [isActive]; from
    then on every charge of that card is answered 404 "Card not found" and
    changes nothing, whatever the provider would have answered.  A caller who
    does not own the card is answered 404 and changes nothing. *)
Theorem deactivated_card_is_not_charged uid id st card :
  cards st !! id = Some card →
  Card.userId card = uid →
  let result := SavedCards.deactivate uid id st in
  fst result = res_json 200 "Card deactivated successfully"
  ∧ users (snd result) = users st
  ∧ transactions (snd result) = transactions st
  ∧ (∀ other, other ≠ id → cards (snd result) !! other = cards st !! other)
  ∧ (∀ caller amount email chargeResponse,
       snd (Payments.chargeCard caller amount email (Some id) chargeResponse
              (snd result)) = snd result
       ∧ ∀ r, fst (Payments.chargeCard caller amount email (Some id)
                     chargeResponse (snd result)) ≠ res_ok r)
  ∧ (∀ amount email chargeResponse,
       (0 < amount)%Q → falsy email = false → id ≠ "" →
       Payments.chargeCard uid (Some amount) email (Some id) chargeResponse
         (snd result)
       = (res_json 404 "Card not found", snd result))
  ∧ (∀ stranger, stranger ≠ uid →
       SavedCards.deactivate stranger id st
       = (res_json 404 "Card not found", st)).
Proof.
  intros Ec Eo result.
  assert (Er : result
               = (res_json 200 "Card deactivated successfully",
                  with_cards (alter (SavedCards.set_isActive false) id (cards st))
                    st)).
  { subst result. unfold SavedCards.deactivate. rewrite Ec, Eo.
    now rewrite String.eqb_refl. }
  rewrite Er. cbn [fst snd]. clear Er result.
  assert (Ef : ∀ caller,
            Payments.Card_findActive id caller
              (with_cards (alter (SavedCards.set_isActive false) id (cards st))
                 st) = None).
  { intros caller. unfold Payments.Card_findActive. cbn.
    rewrite lookup_alter_eq, Ec. cbn. now rewrite andb_false_r. }
  split; [reflexivity|]. split; [reflexivity|]. split; [reflexivity|].
  split; [|split; [|split]].
  - intros other N. cbn. now rewrite lookup_alter_ne.
  - intros caller amount email chargeResponse. unfold Payments.chargeCard.
    rewrite Ef. repeat case_match; split; done.
  - intros amount email chargeResponse L Ee Ni.
    apply falsy_string_false in Ni. unfold Payments.chargeCard.
    now rewrite (positive_truthy _ L), Ee, Ni, Ef.
  - intros stranger Ns. unfold SavedCards.deactivate. rewrite Ec, Eo.
    destruct (String.eqb uid stranger) eqn:E; [|reflexivity].
    apply String.eqb_eq in E. congruence.
Qed.

(** The saved card of [A]: charged 50 while active, refused once
    deactivated. *)
Lemma deactivated_card_is_not_charged_scenario :
  let charge :=
    Payments.chargeCard Sample.A (Some 50%Q) (Some "ada@example.com")
      (Some Fixtures.cardId) (returned true (Some "CHG_1")) in
  let result := SavedCards.deactivate Sample.A Fixtures.cardId
                  Fixtures.storeWithCard in
  fst (charge Fixtures.storeWithCard) = res_ok "CHG_1"
  ∧ charge (snd result) = (res_json 404 "Card not found", snd result).
Proof.
  intros charge result. split; [vm_compute; reflexivity|].
  destruct (deactivated_card_is_not_charged Sample.A Fixtures.cardId
              Fixtures.storeWithCard Fixtures.card)
    as (_ & _ & _ & _ & _ & C & _).
  - reflexivity.
  - reflexivity.
  - apply C; [reflexivity|reflexivity|discriminate].
Defined.

(** X13: the Stripe confirmation credits on every call.  Nothing ties a
    credit to the payment intent: two confirmations of the same succeeded
    payment intent, drawing different reference prefixes, both commit, credit
    the account the amount twice and leave two successful records carrying
    the same payment intent id. *)
Theorem Stripe_confirmPayment_credits_every_call uid paymentIntentId amount
    uuid1 uuid2 st user :
  users st !! uid = Some user →
  paymentIntentId ≠ "" →
  let r1 := "DEP-" +:+ String.substring 0 8 uuid1 in
  let r2 := "DEP-" +:+ String.substring 0 8 uuid2 in
  r1 ≠ r2 →
  transactions st !! r1 = None → transactions st !! r2 = None →
  let first :=
    Stripe.confirmPayment uid (Some paymentIntentId) (Some amount)
      (Some "succeeded") uuid1 st in
  let second :=
    Stripe.confirmPayment uid (Some paymentIntentId) (Some amount)
      (Some "succeeded") uuid2 (snd first) in
  fst first = res_ok r1
  ∧ fst second = res_ok r2
  ∧ balanceOf (snd second) uid = Some (User.balance user + amount + amount)%Q
  ∧ Transaction.stripePaymentIntentId <$> transactions (snd second) !! r1
    = Some (Some paymentIntentId)
  ∧ Transaction.stripePaymentIntentId <$> transactions (snd second) !! r2
    = Some (Some paymentIntentId).
Proof.
  intros Eu Np r1 r2 N F1 F2 first second.
  apply falsy_string_false in Np.
  assert (Nr : ∀ u, falsy_string ("DEP-" +:+ u) = false) by reflexivity.
  assert (E1 : first
               = (res_ok r1,
                  with_transactions
                    (<[r1 := {| Transaction.userId := uid;
                                Transaction.transactionType := Transaction.deposit;
                                Transaction.amount := amount;
                                Transaction.fee := 0;
                                Transaction.status := Transaction.successful;
                                Transaction.recipientId := None;
                                Transaction.recipientName := None;
                                Transaction.recipientCecureTag := None;
                                Transaction.recipientBank := None;
                                Transaction.recipientAccount := None;
                                Transaction.purpose := Some "Deposit via card";
                                Transaction.stripePaymentIntentId :=
                                  Some paymentIntentId |}]>
                       (transactions st))
                    (User_save_balance uid (User.balance user + amount) st))).
  { subst first. unfold Stripe.confirmPayment, falsy. rewrite Np.
    change (negb (String.eqb "succeeded" "succeeded")) with false. cbn iota.
    unfold User_findById. rewrite Eu.
    rewrite Transaction_create_fresh; [reflexivity|reflexivity|exact F1]. }
  assert (E2 : second
               = (res_ok r2,
                  with_transactions
                    (<[r2 := {| Transaction.userId := uid;
                                Transaction.transactionType := Transaction.deposit;
                                Transaction.amount := amount;
                                Transaction.fee := 0;
                                Transaction.status := Transaction.successful;
                                Transaction.recipientId := None;
                                Transaction.recipientName := None;
                                Transaction.recipientCecureTag := None;
                                Transaction.recipientBank := None;
                                Transaction.recipientAccount := None;
                                Transaction.purpose := Some "Deposit via card";
                                Transaction.stripePaymentIntentId :=
                                  Some paymentIntentId |}]>
                       (transactions (snd first)))
                    (User_save_balance uid
                       (User.balance user + amount + amount) (snd first)))).
  { subst second. unfold Stripe.confirmPayment, falsy. rewrite Np.
    change (negb (String.eqb "succeeded" "succeeded")) with false. cbn iota.
    unfold User_findById. rewrite E1. cbn [snd users with_transactions
      User_save_balance with_users].
    rewrite lookup_alter_eq, Eu. cbn [fmap option_fmap option_map].
    rewrite Transaction_create_fresh; [reflexivity|reflexivity|].
    cbn. now rewrite lookup_insert_ne. }
  rewrite E2. cbn [fst snd]. rewrite E1. cbn [fst snd].
  split; [reflexivity|]. split; [reflexivity|]. split; [|split].
  - unfold balanceOf. cbn. now rewrite !lookup_alter_eq, Eu.
  - cbn. now rewrite lookup_insert_ne, lookup_insert_eq.
  - cbn. now rewrite lookup_insert_eq.
Qed.

(** The payment intent pi_1 confirmed twice for 75. *)
Lemma Stripe_confirmPayment_credits_every_call_scenario :
  let first :=
    Stripe.confirmPayment Sample.A (Some "pi_1") (Some 75%Q)
      (Some "succeeded") Sample.uuid (Sample.store 500 500 []) in
  let second :=
    Stripe.confirmPayment Sample.A (Some "pi_1") (Some 75%Q)
      (Some "succeeded") "9d1c7e2a-0000-4000-8000-000000000000" (snd first) in
  fst second = res_ok "DEP-9d1c7e2a"
  ∧ balanceOf (snd second) Sample.A = Some (500 + 75 + 75)%Q.
Proof.
  intros first second.
  destruct (Stripe_confirmPayment_credits_every_call Sample.A "pi_1" 75%Q
              Sample.uuid "9d1c7e2a-0000-4000-8000-000000000000"
              (Sample.store 500 500 []) (Sample.user "Ada" "Obi" 500))
    as (_ & S & B & _); try reflexivity; try discriminate.
  split; [exact S | exact B].
Defined.

Lemma substring_whole (s : string) : String.substring 0 (String.length s) s = s.
Proof. induction s as [|c s IH]; simpl; [reflexivity | now rewrite IH]. Qed.

Lemma substring_suffix (p d : string) :
  String.substring (String.length (p +:+ d) - String.length d)
    (String.length d) (p +:+ d) = d.
Proof.
  rewrite length_append.
  replace (String.length p + String.length d - String.length d)%nat
    with (String.length p) by lia.
  induction p as [|c p IH]; simpl; [apply substring_whole | exact IH].
Qed.

(** The stand-in accepts the data its digest was taken from. *)
Lemma Sample_bcrypt_accepts d s :
  bcrypt_compare (Bcrypt := Sample.bcrypt) d
    (bcrypt_hash (Bcrypt := Sample.bcrypt) d s) = true.
Proof.
  unfold bcrypt_compare, bcrypt_hash, Sample.bcrypt.
  assert (E : "$2a$10$" +:+ s +:+ d = ("$2a$10$" +:+ s) +:+ d) by reflexivity.
  rewrite E, substring_suffix. apply String.eqb_refl.
Qed.

Lemma setTransactionPin_stores_digest `{Bcrypt} uid pin salt st :
  (∀ d s, (6 < String.length (bcrypt_hash d s))%nat) →
  pinsHashed st →
  Users.pinLengthOk (Some pin) = true →
  Users.setTransactionPin uid (Some pin) salt st
  = (res_json 200 "Transaction PIN set successfully",
     with_transactionpins
       (<[uid := {| TransactionPin.pinHash := bcrypt_hash pin salt |}]>
          (transactionpins st)) st).
Proof.
  intros Long Hs L. unfold Users.setTransactionPin. rewrite L.
  do 3 f_equal. unfold Users.preSave.
  destruct (transactionpins st !! uid) as [old|] eqn:Eo; [|reflexivity].
  destruct (String.eqb (TransactionPin.pinHash old) pin) eqn:Q; [|reflexivity].
  apply String.eqb_eq in Q. apply pinLengthOk_short in L.
  destruct (Hs _ _ Eo) as (d & s & Ed).
  specialize (Long d s). rewrite <- Ed, Q in Long. lia.
Qed.

(** X14: a PIN that was just set is accepted.  Assuming of bcrypt that a
    digest is longer than a PIN and that comparing data with its own digest
    succeeds, after the PIN route stored a PIN of 4 to 6 characters the
    verify-pin route answers success for that PIN, and a ledger transfer
    offering it is refused neither with "Transaction PIN not set" nor with
    "Invalid transaction PIN"; setting the PIN touches no account and no
    record. *)
Theorem transaction_pin_set_then_accepted `{Bcrypt} uid pin salt st :
  (∀ d s, bcrypt_compare d (bcrypt_hash d s) = true) →
  (∀ d s, (6 < String.length (bcrypt_hash d s))%nat) →
  pinsHashed st →
  Users.pinLengthOk (Some pin) = true →
  let st' := snd (Users.setTransactionPin uid (Some pin) salt st) in
  Users.verifyPin uid pin st' = Some true
  ∧ (∀ recipientId amount purpose uuid,
       fst (Ledger.transfer uid recipientId amount (Some pin) purpose uuid st')
       ≠ res_json 400 "Transaction PIN not set"
       ∧ fst (Ledger.transfer uid recipientId amount (Some pin) purpose uuid
                st')
         ≠ res_json 400 "Invalid transaction PIN")
  ∧ users st' = users st
  ∧ transactions st' = transactions st.
Proof.
  intros Ok Long Hs L st'. subst st'.
  rewrite (setTransactionPin_stores_digest uid pin salt st Long Hs L).
  cbn [snd]. split; [|split; [|split; reflexivity]].
  - unfold Users.verifyPin. cbn [transactionpins with_transactionpins].
    rewrite lookup_insert_eq. cbn [TransactionPin.pinHash]. now rewrite Ok.
  - intros recipientId amount purpose uuid.
    unfold Ledger.transfer, Ledger.comparePin, Ledger.commit.
    cbn [transactionpins with_transactionpins].
    rewrite lookup_insert_eq. cbn [TransactionPin.pinHash]. rewrite Ok.
    cbn [negb].
    split; repeat case_match; discriminate.
Qed.

(** [B], who had no PIN, sets 2580. *)
Lemma transaction_pin_set_then_accepted_scenario :
  let st' :=
    snd (Users.setTransactionPin (H := Sample.bcrypt) Sample.B (Some "2580")
           "saltsaltsalt" (Sample.store 500 500 [])) in
  Users.verifyPin (H := Sample.bcrypt) Sample.B "2580" st' = Some true
  ∧ Users.verifyPin (H := Sample.bcrypt) Sample.B "2581" st' = Some false.
Proof.
  intros st'. split; [|vm_compute; reflexivity].
  apply (transaction_pin_set_then_accepted (H := Sample.bcrypt) Sample.B
           "2580" "saltsaltsalt" (Sample.store 500 500 [])).
  - apply Sample_bcrypt_accepts.
  - apply Sample_bcrypt_long.
  - apply (reachable_pinsHashed (H := Sample.bcrypt) Sample.secret).
    apply Sample_store_reachable.
  - reflexivity.
Defined.

(** ** Card numbers *)

Lemma length_substring_le n m s : (String.length (String.substring n m s) ≤ m)%nat.
Proof.
  revert n m. induction s as [|c s IH]; intros [|n] [|m]; simpl; try lia.
  - specialize (IH 0%nat m). lia.
  - apply IH.
  - apply IH.
Qed.

Lemma length_substring n m s :
  (n + m ≤ String.length s)%nat → String.length (String.substring n m s) = m.
Proof.
  revert n m. induction s as [|c s IH]; intros [|n] [|m]; simpl; try lia.
  - intros L. rewrite (IH 0%nat m); lia.
  - intros L. apply IH. lia.
  - intros L. apply IH. lia.
Qed.

Lemma length_string_of_list_ascii l :
  String.length (string_of_list_ascii l) = List.length l.
Proof. induction l as [|c l IH]; simpl; [reflexivity | now rewrite IH]. Qed.

(** The last four characters, as a string of at most four characters. *)
Lemma slice_last_4_shape s :
  let t := Cards.slice_last 4 s in
  t = "" ∨ (∃ a, t = String a "") ∨ (∃ a b, t = String a (String b ""))
  ∨ (∃ a b c, t = String a (String b (String c "")))
  ∨ (∃ a b c d, t = String a (String b (String c (String d "")))).
Proof.
  intros t. pose proof (length_substring_le (String.length s - 4) 4 s) as L.
  fold (Cards.slice_last 4 s) in L. fold t in L.
  destruct t as [|a [|b [|c [|d [|e r]]]]]; simpl in L; try lia; eauto 10.
Qed.

Lemma mask_length s : String.length (Cards.mask s) = 16%nat.
Proof.
  unfold Cards.mask, Cards.padStart.
  rewrite length_append, length_string_of_list_ascii, repeat_length.
  pose proof (length_substring_le (String.length s - 4) 4 s) as L.
  unfold Cards.slice_last. lia.
Qed.

Lemma mask_long s :
  (4 ≤ String.length s)%nat →
  Cards.mask s = "************" +:+ String.substring (String.length s - 4) 4 s.
Proof.
  intros L. unfold Cards.mask, Cards.padStart, Cards.slice_last.
  rewrite length_substring by lia. reflexivity.
Qed.

Lemma mask_idempotent s : Cards.mask (Cards.mask s) = Cards.mask s.
Proof.
  unfold Cards.mask at 2 3.
  destruct (slice_last_4_shape s)
    as [E|[(a & E)|[(a & b & E)|[(a & b & c & E)|(a & b & c & d & E)]]]];
    rewrite E; reflexivity.
Qed.

(** X15: what the pre-save hook of the card schema keeps of a card number.
    The result has sixteen characters whatever the input; for an input of at
    least four characters it is twelve asterisks followed by the input's last
    four characters; it depends on the input's last four characters only;
    and masking a masked number changes nothing. *)
Theorem Cards_mask_keeps_last_four s :
  String.length (Cards.mask s) = 16%nat
  ∧ ((4 ≤ String.length s)%nat →
     Cards.mask s
     = "************" +:+ String.substring (String.length s - 4) 4 s)
  ∧ (∀ s', Cards.slice_last 4 s' = Cards.slice_last 4 s →
           Cards.mask s' = Cards.mask s)
  ∧ Cards.mask (Cards.mask s) = Cards.mask s.
Proof.
  split; [apply mask_length|]. split; [apply mask_long|].
  split; [|apply mask_idempotent].
  intros s' E. unfold Cards.mask. now rewrite E.
Qed.

(** A sixteen-digit number. *)
Lemma Cards_mask_keeps_last_four_scenario :
  Cards.mask "4111111111111234" = "************1234"
  ∧ String.length (Cards.mask "12") = 16%nat.
Proof.
  destruct (Cards_mask_keeps_last_four "4111111111111234") as (_ & M & _).
  split; [rewrite M; [reflexivity | simpl; lia]|].
  apply (Cards_mask_keeps_last_four "12").
Defined.

(** ** The card routes *)

Lemma cardNumberOk_length n :
  Cards.cardNumberOk (Some n) = true → String.length n = 16%nat.
Proof. simpl. apply Nat.eqb_eq. Qed.

Lemma Cards_add_inv uid cardNumber cardHolder expiryDate cardType isPrimary
    newId cs :
  let result :=
    Cards.add uid cardNumber cardHolder expiryDate cardType isPrimary newId cs in
  let cs1 := if isPrimary then Cards.demote uid cs else cs in
  (snd result = cs ∧ fst result = inl res_errors)
  ∨ (snd result = cs1 ∧ fst result = inl (res_send 500 "Server error"))
  ∨ ∃ n h e t,
      cardNumber = Some n ∧ String.length n = 16%nat
      ∧ cardHolder = Some h ∧ expiryDate = Some e ∧ cardType = Some t
      ∧ List.find (λ kc, String.eqb kc.1 newId) cs1 = None
      ∧ let card :=
          {| Cards.userId := uid; Cards.cardNumber := Cards.mask n;
             Cards.cardHolder := h; Cards.expiryDate := e;
             Cards.cardType := t; Cards.isPrimary := isPrimary;
             Cards.isActive := true |} in
        fst result = inr (newId, card)
        ∧ snd result = (cs1 ++ [(newId, card)])%list.
Proof.
  intros result cs1. subst result. unfold Cards.add. fold cs1.
  destruct (Cards.cardNumberOk cardNumber) eqn:En; [|now left].
  destruct cardNumber as [n|]; [|discriminate].
  destruct cardHolder as [h|]; [|now left].
  destruct (Cards.expiryDateOk expiryDate) eqn:Ee;
    [|left; now rewrite andb_false_r].
  destruct expiryDate as [e|]; [|discriminate].
  destruct cardType as [t|]; [|left; now rewrite andb_false_r].
  destruct (_ && _); [|now left].
  destruct (Cards.validate _); [|right; now left].
  destruct (List.find _ cs1) eqn:Ef; [right; now left|].
  right. right. exists n, h, e, t.
  repeat split; try done. now apply cardNumberOk_length.
Qed.

Lemma mask_masked n :
  String.length n = 16%nat →
  ∃ last4, String.length last4 = 4%nat
           ∧ Cards.mask n = "************" +:+ last4.
Proof.
  intros L. exists (String.substring (String.length n - 4) 4 n). split.
  - apply length_substring. lia.
  - apply mask_long. lia.
Qed.

Lemma masked_map f cs :
  (∀ kc, Cards.cardNumber (f kc).2 = Cards.cardNumber kc.2) →
  Cards.masked cs → Cards.masked (map f cs).
Proof.
  intros Hf M. unfold Cards.masked. apply Forall_map.
  eapply Forall_impl; [exact M|]. intros kc (l & L & E). cbn beta.
  exists l. split; [exact L|]. now rewrite Hf.
Qed.

Lemma masked_demote uid cs : Cards.masked cs → Cards.masked (Cards.demote uid cs).
Proof.
  apply masked_map. intros kc. now destruct (String.eqb _ _).
Qed.

Lemma masked_run c cs : Cards.masked cs → Cards.masked (Cards.run c cs).
Proof.
  intros M. destruct c as [uid n h e t p newId|uid id]; simpl.
  - destruct (Cards_add_inv uid n h e t p newId cs)
      as [[-> _]|[[-> _]|(n' & h' & e' & t' & -> & L & -> & -> & -> & _ & _ & ->)]].
    + exact M.
    + destruct p; [now apply masked_demote | exact M].
    + apply Forall_app. split.
      * destruct p; [now apply masked_demote | exact M].
      * apply Forall_cons. split; [|constructor]. now apply mask_masked.
  - unfold Cards.deactivate. destruct (List.find _ cs); [|exact M].
    cbn [snd]. apply masked_map; [|exact M].
    intros kc. now destruct (String.eqb _ _).
Qed.

(** X16: the card routes never store a card number.  Whatever sequence of
    additions and deactivations is served from the empty collection, every
    stored card number is twelve asterisks followed by four characters; and
    two additions that differ only in the first twelve characters of the
    sixteen-character number are answered alike and leave the same
    collection. *)
Theorem Cards_numbers_are_stored_masked :
  (∀ calls, Cards.masked (Cards.reached calls))
  ∧ (∀ uid n1 n2 cardHolder expiryDate cardType isPrimary newId cs,
       String.length n1 = 16%nat → String.length n2 = 16%nat →
       String.substring 12 4 n1 = String.substring 12 4 n2 →
       Cards.add uid (Some n1) cardHolder expiryDate cardType isPrimary newId cs
       = Cards.add uid (Some n2) cardHolder expiryDate cardType isPrimary
           newId cs).
Proof.
  split.
  - intros calls. unfold Cards.reached.
    assert (G : ∀ cs, Cards.masked cs →
              Cards.masked (foldl (λ cs c, Cards.run c cs) cs calls)).
    { induction calls as [|c calls IH]; intros cs M; [exact M|].
      simpl. apply IH. now apply masked_run. }
    apply G. constructor.
  - intros uid n1 n2 h e t p newId cs L1 L2 E.
    assert (Em : Cards.mask n1 = Cards.mask n2).
    { rewrite !mask_long by lia. rewrite L1, L2. cbn [Nat.sub]. now rewrite E. }
    unfold Cards.add, Cards.cardNumberOk, Cards.validate, Cards.preSave,
      Cards.set_cardNumber. cbn.
    rewrite L1, L2, Em. cbn.
    assert (F1 : String.eqb n1 "" = false)
      by (apply (falsy_string_false n1); intros ->; discriminate).
    assert (F2 : String.eqb n2 "" = false)
      by (apply (falsy_string_false n2); intros ->; discriminate).
    now rewrite F1, F2.
Qed.

(** Two numbers with the same last four digits. *)
Lemma Cards_numbers_are_stored_masked_scenario :
  Cards.add Sample.A (Some "4111111111111234") (Some "Ada Obi") (Some "09/27")
    (Some "visa") false "c1" []
  = Cards.add Sample.A (Some "5500005555551234") (Some "Ada Obi")
      (Some "09/27") (Some "visa") false "c1" []
  ∧ Cards.masked
      (Cards.reached
         [Cards.Add Sample.A (Some "4111111111111234") (Some "Ada Obi")
            (Some "09/27") (Some "visa") false "c1"]).
Proof.
  destruct Cards_numbers_are_stored_masked as (M & E).
  split; [now apply E | apply M].
Defined.

(** ** The primary card *)

Lemma primaries_demote_same uid cs : Cards.primaries uid (Cards.demote uid cs) = [].
Proof.
  unfold Cards.primaries, Cards.demote.
  induction cs as [|[k c] cs IH]; [reflexivity|]. simpl.
  destruct (String.eqb (Cards.userId c) uid) eqn:E; simpl; rewrite E; simpl.
  - exact IH.
  - exact IH.
Qed.

Lemma primaries_demote_other uid uid' cs :
  uid' ≠ uid →
  Cards.primaries uid' (Cards.demote uid cs) = Cards.primaries uid' cs.
Proof.
  intros N. unfold Cards.primaries, Cards.demote.
  induction cs as [|[k c] cs IH]; [reflexivity|]. simpl.
  destruct (String.eqb (Cards.userId c) uid) eqn:E; simpl.
  - apply String.eqb_eq in E.
    assert (E' : String.eqb (Cards.userId c) uid' = false).
    { apply String.eqb_neq. congruence. }
    rewrite E'. simpl. exact IH.
  - now rewrite IH.
Qed.

Lemma primaries_app uid (cs cs' : Cards.collection) :
  Cards.primaries uid (cs ++ cs')%list
  = (Cards.primaries uid cs ++ Cards.primaries uid cs')%list.
Proof. apply List.filter_app. Qed.

Lemma primaries_map uid f cs :
  (∀ kc, Cards.userId (f kc).2 = Cards.userId kc.2
         ∧ Cards.isPrimary (f kc).2 = Cards.isPrimary kc.2) →
  List.length (Cards.primaries uid (map f cs))
  = List.length (Cards.primaries uid cs).
Proof.
  intros Hf. unfold Cards.primaries.
  induction cs as [|kc cs IH]; [reflexivity|]. simpl.
  destruct (Hf kc) as [-> ->].
  destruct (_ && _); simpl; now rewrite IH.
Qed.

Lemma primaries_deactivate uid uid' id cs :
  List.length (Cards.primaries uid' (snd (Cards.deactivate uid id cs)))
  = List.length (Cards.primaries uid' cs).
Proof.
  unfold Cards.deactivate. destruct (List.find _ cs); [|reflexivity].
  cbn [snd]. apply primaries_map.
  intros kc. now destruct (String.eqb _ _).
Qed.

Lemma primaries_run c cs :
  (∀ uid, (List.length (Cards.primaries uid cs) ≤ 1)%nat) →
  ∀ uid, (List.length (Cards.primaries uid (Cards.run c cs)) ≤ 1)%nat.
Proof.
  intros I uid'. destruct c as [uid n h e t p newId|uid id]; simpl.
  - destruct (Cards_add_inv uid n h e t p newId cs)
      as [[-> _]|[[-> _]|(n' & h' & e' & t' & _ & _ & _ & _ & _ & _ & _ & ->)]].
    + apply I.
    + destruct p; [|apply I].
      destruct (decide (uid' = uid)) as [->|N].
      * rewrite primaries_demote_same. simpl. lia.
      * rewrite primaries_demote_other by done. apply I.
    + rewrite primaries_app, length_app. destruct p.
      * destruct (decide (uid' = uid)) as [->|N].
        -- rewrite primaries_demote_same. unfold Cards.primaries. simpl.
           destruct (String.eqb uid uid); simpl; lia.
        -- rewrite primaries_demote_other by done.
           unfold Cards.primaries at 2. simpl.
           assert (E : String.eqb uid uid' = false)
             by (apply String.eqb_neq; congruence).
           rewrite E. simpl. specialize (I uid'). lia.
      * unfold Cards.primaries at 2. simpl. rewrite andb_false_r. simpl.
        specialize (I uid'). lia.
  - rewrite primaries_deactivate. apply I.
Qed.

(** X17: a user never has two primary cards.  Whatever sequence of additions
    and deactivations is served from the empty collection, each user has at
    most one card flagged primary; and an accepted addition flagged primary
    leaves the new card as the user's only primary card, the primary cards of
    the other users being untouched. *)
Theorem Cards_at_most_one_primary :
  (∀ calls uid,
     (List.length (Cards.primaries uid (Cards.reached calls)) ≤ 1)%nat)
  ∧ (∀ uid cardNumber cardHolder expiryDate cardType newId cs saved,
       fst (Cards.add uid cardNumber cardHolder expiryDate cardType true
              newId cs) = inr saved →
       let cs' :=
         snd (Cards.add uid cardNumber cardHolder expiryDate cardType true
                newId cs) in
       Cards.primaries uid cs' = [saved]
       ∧ ∀ other, other ≠ uid →
           Cards.primaries other cs' = Cards.primaries other cs).
Proof.
  split.
  - intros calls. unfold Cards.reached.
    assert (G : ∀ cs,
              (∀ uid, (List.length (Cards.primaries uid cs) ≤ 1)%nat) →
              ∀ uid,
                (List.length
                   (Cards.primaries uid
                      (foldl (λ cs c, Cards.run c cs) cs calls)) ≤ 1)%nat).
    { induction calls as [|c calls IH]; intros cs I; [exact I|].
      simpl. apply IH. now apply primaries_run. }
    apply G. intros uid. simpl. lia.
  - intros uid n h e t newId cs saved E cs'. subst cs'.
    destruct (Cards_add_inv uid n h e t true newId cs)
      as [[_ E']|[[_ E']|(n' & h' & e' & t' & _ & _ & _ & _ & _ & _ & E' & ->)]];
      rewrite E' in E; try discriminate.
    injection E as <-. split.
    + rewrite primaries_app, primaries_demote_same.
      unfold Cards.primaries. simpl. now rewrite String.eqb_refl.
    + intros other N.
      rewrite primaries_app, primaries_demote_other by done.
      unfold Cards.primaries at 2. simpl.
      assert (Eo : String.eqb uid other = false)
        by (apply String.eqb_neq; congruence).
      rewrite Eo. simpl. apply app_nil_r.
Qed.

(** [A] adds two cards, both flagged primary: the second is the primary
    one. *)
Lemma Cards_at_most_one_primary_scenario :
  let first :=
    Cards.Add Sample.A (Some "4111111111111111") (Some "Ada Obi")
      (Some "09/27") (Some "visa") true "c1" in
  let cs := Cards.reached [first] in
  let second :=
    Cards.add Sample.A (Some "5500005555555559") (Some "Ada Obi")
      (Some "11/28") (Some "mastercard") true "c2" cs in
  map fst (Cards.primaries Sample.A cs) = ["c1"]
  ∧ map fst (Cards.primaries Sample.A (snd second)) = ["c2"].
Proof.
  intros first cs second. split; [reflexivity|].
  destruct Cards_at_most_one_primary as (_ & P).
  destruct (P Sample.A (Some "5500005555555559") (Some "Ada Obi")
              (Some "11/28") (Some "mastercard") "c2" cs
              ("c2",
               {| Cards.userId := Sample.A;
                  Cards.cardNumber := "************5559";
                  Cards.cardHolder := "Ada Obi"; Cards.expiryDate := "11/28";
                  Cards.cardType := "mastercard"; Cards.isPrimary := true;
                  Cards.isActive := true |}))
    as (E & _); [reflexivity|].
  fold second in E. now rewrite E.
Defined.

(** ** Deactivation *)

Lemma find_None_iff {A} (p : A → bool) (l : Datatypes.list A) :
  List.find p l = None ↔ ∀ x, x ∈ l → p x = false.
Proof.
  induction l as [|y l IH]; simpl.
  - split; [|done]. intros _ x Hx. inversion Hx.
  - destruct (p y) eqn:E.
    + split; [discriminate|]. intros H. specialize (H y (list_elem_of_here _ _)).
      congruence.
    + rewrite IH. split.
      * intros H x Hx. apply elem_of_cons in Hx as [->|Hx]; auto.
      * intros H x Hx. apply H. now apply list_elem_of_further.
Qed.

(** X18: a deactivated card is no longer listed.  Deactivating a card of
    the caller answers 200; the card then appears in nobody's list of cards,
    and every document under another id is as it was.  A caller who owns no
    card under that id is answered 404 and nothing changes. *)
Theorem Cards_deactivated_card_is_not_listed uid id cs c :
  (id, c) ∈ cs →
  Cards.userId c = uid →
  let result := Cards.deactivate uid id cs in
  fst result = res_json 200 "Card deactivated successfully"
  ∧ (∀ anyone c', (id, c') ∉ Cards.list anyone (snd result))
  ∧ (∀ k c', k ≠ id → (k, c') ∈ snd result ↔ (k, c') ∈ cs)
  ∧ (∀ stranger,
       (∀ c', (id, c') ∈ cs → Cards.userId c' ≠ stranger) →
       Cards.deactivate stranger id cs = (res_json 404 "Card not found", cs)).
Proof.
  intros Hin Eo result.
  assert (Ef : List.find
                 (λ kc, String.eqb kc.1 id && String.eqb (Cards.userId kc.2) uid)
                 cs ≠ None).
  { intros F. rewrite find_None_iff in F. specialize (F _ Hin). cbn in F.
    now rewrite Eo, !String.eqb_refl in F. }
  assert (Er : result
               = (res_json 200 "Card deactivated successfully",
                  map (λ kc, if String.eqb kc.1 id
                             then (kc.1, Cards.preSave false
                                           (Cards.set_isActive false kc.2))
                             else kc) cs)).
  { subst result. unfold Cards.deactivate. now destruct (List.find _ cs). }
  rewrite Er. cbn [fst snd]. clear Er result.
  split; [reflexivity|]. split; [|split].
  - intros anyone c' H. unfold Cards.list in H.
    apply list_elem_of_In, List.filter_In in H as [H A].
    apply List.in_map_iff in H as ([k d] & E & _). cbn in E.
    destruct (String.eqb k id) eqn:Ek.
    + injection E as _ <-. cbn in A. now rewrite andb_false_r in A.
    + injection E as -> _. now rewrite String.eqb_refl in Ek.
  - intros k c' N. rewrite !list_elem_of_In, List.in_map_iff. split.
    + intros ([k' d] & E & H). cbn in E. destruct (String.eqb k' id) eqn:Ek.
      * apply String.eqb_eq in Ek. injection E as <- _. congruence.
      * now injection E as <- <-.
    + intros H. exists (k, c'). split; [|exact H]. cbn.
      assert (Ek : String.eqb k id = false) by now apply String.eqb_neq.
      now rewrite Ek.
  - intros stranger Hs. unfold Cards.deactivate.
    assert (F : List.find
                  (λ kc, String.eqb kc.1 id
                         && String.eqb (Cards.userId kc.2) stranger) cs = None).
    { apply find_None_iff. intros [k d] H. cbn.
      destruct (String.eqb k id) eqn:Ek; [|reflexivity].
      apply String.eqb_eq in Ek. subst k. cbn.
      apply String.eqb_neq. now apply Hs. }
    now rewrite F.
Qed.

(** Two cards of one user; the second is deactivated. *)
Lemma Cards_deactivated_card_is_not_listed_scenario :
  let cs :=
    Cards.reached
      [Cards.Add Sample.A (Some "4111111111111111") (Some "Ada Obi")
         (Some "09/27") (Some "visa") true "c1";
       Cards.Add Sample.A (Some "5500005555555559") (Some "Ada Obi")
         (Some "11/28") (Some "mastercard") false "c2"] in
  let result := Cards.deactivate Sample.A "c2" cs in
  List.length (Cards.list Sample.A cs) = 2%nat
  ∧ fst result = res_json 200 "Card deactivated successfully"
  ∧ map fst (Cards.list Sample.A (snd result)) = ["c1"].
Proof.
  intros cs result.
  destruct (Cards_deactivated_card_is_not_listed Sample.A "c2" cs
              {| Cards.userId := Sample.A;
                 Cards.cardNumber := "************5559";
                 Cards.cardHolder := "Ada Obi"; Cards.expiryDate := "11/28";
                 Cards.cardType := "mastercard"; Cards.isPrimary := false;
                 Cards.isActive := true |})
    as (R & _).
  - vm_compute. apply list_elem_of_further, list_elem_of_here.
  - reflexivity.
  - split; [reflexivity|]. split; [exact R|]. reflexivity.
Defined.

(** ** Registration and login *)

Lemma find_app_None {A} (p : A → bool) (l l' : list A) :
  List.find p l = None → List.find p (l ++ l') = List.find p l'.
Proof.
  induction l as [|x l IH]; simpl; [reflexivity|].
  destruct (p x); [discriminate | exact IH].
Qed.

Lemma existsb_find_None {A} (p : A → bool) (l : list A) :
  existsb p l = false → List.find p l = None.
Proof.
  induction l as [|x l IH]; simpl; [reflexivity|].
  destruct (p x); [discriminate | exact IH].
Qed.

Section auth.
Context `{Bcrypt} `{Jwt} `{Validator} `{StringPrototype}.

(** What an accepted insertion did. *)
Lemma create_Some firstName lastName email password phoneNumber salt random1
    random2 newId db db' :
  Auth.create firstName lastName email password phoneNumber salt random1
    random2 newId db = Some db' →
  existsb (λ ka, String.eqb ka.1 newId) db = false
  ∧ Auth.taken Auth.email email db = false
  ∧ Auth.taken Auth.phoneNumber phoneNumber db = false
  ∧ Auth.taken Auth.cecureTag (Auth.generatedTag firstName lastName random1) db = false
  ∧ Auth.taken Auth.accountNumber (Auth.generatedAccountNumber random2) db
    = false
  ∧ db' = (db ++ [(newId,
             {| Auth.profile :=
                  {| User.firstName := firstName; User.lastName := lastName;
                     User.email := email;
                     User.cecureTag := Auth.generatedTag firstName lastName random1;
                     User.balance := 0;
                     User.paystackCustomerCode := None;
                     User.paystackVirtualAccountNumber := None;
                     User.paystackTransferRecipientCode := None |};
                Auth.password := bcrypt_hash password salt;
                Auth.phoneNumber := phoneNumber;
                Auth.accountNumber := Auth.generatedAccountNumber random2;
                Auth.isVerified := true |})])%list.
Proof.
  unfold Auth.create.
  generalize (Auth.generatedTag firstName lastName random1) as tag.
  generalize (Auth.generatedAccountNumber random2) as number.
  intros number tag.
  cbn [Auth.cecureTag Auth.accountNumber Auth.profile User.cecureTag].
  destruct (existsb _ db) eqn:Ei; [discriminate|].
  destruct (Auth.taken Auth.email email db) eqn:Te; [discriminate|].
  destruct (Auth.taken Auth.phoneNumber phoneNumber db) eqn:Tp; [discriminate|].
  destruct (Auth.taken Auth.cecureTag _ db) eqn:Tt; [discriminate|].
  destruct (Auth.taken Auth.accountNumber _ db) eqn:Ta; [discriminate|].
  cbn [orb]. intros [= <-]. repeat split; done.
Qed.

(** What an accepted registration did. *)
Lemma register_registered firstName lastName email password phoneNumber salt
    random1 random2 newId now db token db' :
  Auth.register firstName lastName email password phoneNumber salt random1
    random2 newId now db = (Auth.registered token, db') →
  ∃ f l e p ph,
    firstName = Some f ∧ lastName = Some l ∧ email = Some e
    ∧ password = Some p ∧ phoneNumber = Some ph
    ∧ isEmail e = true ∧ ph ≠ ""
    ∧ token = jwt_sign newId now
    ∧ existsb (λ ka, String.eqb ka.1 newId) db = false
    ∧ Auth.taken Auth.email e db = false
    ∧ Auth.taken Auth.phoneNumber ph db = false
    ∧ Auth.taken Auth.cecureTag (Auth.generatedTag f l random1) db = false
    ∧ Auth.taken Auth.accountNumber (Auth.generatedAccountNumber random2) db
      = false
    ∧ db' = (db ++ [(newId,
               {| Auth.profile :=
                    {| User.firstName := f; User.lastName := l;
                       User.email := e;
                       User.cecureTag := Auth.generatedTag f l random1;
                       User.balance := 0;
                       User.paystackCustomerCode := None;
                       User.paystackVirtualAccountNumber := None;
                       User.paystackTransferRecipientCode := None |};
                  Auth.password := bcrypt_hash p salt;
                  Auth.phoneNumber := ph;
                  Auth.accountNumber := Auth.generatedAccountNumber random2;
                  Auth.isVerified := true |})])%list.
Proof.
  unfold Auth.register. intros E.
  destruct firstName as [f|], lastName as [l|], email as [e|],
    password as [p|], phoneNumber as [ph|]; try discriminate.
  destruct (falsy_string f) eqn:Ff; [discriminate|].
  destruct (falsy_string l) eqn:Fl; [discriminate|].
  destruct (isEmail e) eqn:Ee; [|discriminate].
  destruct (String.length p <? 6)%nat; [discriminate|].
  destruct (falsy_string ph) eqn:Fp; [discriminate|]. cbn [negb orb] in E.
  destruct (Auth.findByEmail e db); [discriminate|].
  destruct (Auth.findByPhone ph db); [discriminate|].
  destruct (Auth.create f l e p ph salt random1 random2 newId db)
    as [db''|] eqn:C; [|discriminate].
  injection E as <- <-.
  apply create_Some in C as (Ei & Te & Tp & Tt & Ta & ->).
  exists f, l, e, p, ph. repeat split; try done.
  now apply falsy_string_false.
Qed.

(** X19: a registered user can log in.  Assuming of bcrypt that comparing
    data with its own digest succeeds: after an accepted registration the
    stored password is the bcrypt digest of the submitted one, the balance is
    0, and logging in by email or by phone number with the registered
    password is answered with a token signed for the new account's id; a
    password bcrypt rejects is answered "Invalid credentials"; and a request
    carrying a token that verifies for that id reads the new account. *)
Theorem registered_user_can_log_in firstName lastName email password
    phoneNumber salt random1 random2 newId now db token db' :
  (∀ d s, bcrypt_compare d (bcrypt_hash d s) = true) →
  Auth.register firstName lastName email password phoneNumber salt random1
    random2 newId now db = (Auth.registered token, db') →
  ∃ f l e p a,
    firstName = Some f ∧ lastName = Some l ∧ email = Some e
    ∧ password = Some p
    ∧ List.find (λ ka, String.eqb ka.1 newId) db' = Some (newId, a)
    ∧ Auth.password a = bcrypt_hash p salt
    ∧ User.balance (Auth.profile a) = 0%Q
    ∧ (∀ later,
         Auth.login email password later db'
         = Auth.loggedIn (jwt_sign newId later) newId e f l)
    ∧ (∀ later,
         Auth.loginPhone phoneNumber password later db'
         = Auth.loggedIn (jwt_sign newId later) newId e f l)
    ∧ (∀ later wrong,
         bcrypt_compare wrong (bcrypt_hash p salt) = false →
         Auth.login email (Some wrong) later db'
         = Auth.failure 400 "Invalid credentials")
    ∧ (∀ later t,
         t ≠ "" → jwt_verify t later = jwt_user newId →
         Auth.me (Some t) later db'
         = Auth.me_user newId (Auth.profile a) (Auth.phoneNumber a)
             (Auth.accountNumber a) true).
Proof.
  intros Ok E.
  apply register_registered in E
    as (f & l & e & p & ph & -> & -> & -> & -> & -> & Ee & Nph & -> & Fi & Fe
        & Fp & _ & _ & ->).
  exists f, l, e, p,
    {| Auth.profile :=
         {| User.firstName := f; User.lastName := l; User.email := e;
            User.cecureTag := Auth.generatedTag f l random1;
            User.balance := 0;
            User.paystackCustomerCode := None;
            User.paystackVirtualAccountNumber := None;
            User.paystackTransferRecipientCode := None |};
       Auth.password := bcrypt_hash p salt;
       Auth.phoneNumber := ph;
       Auth.accountNumber := Auth.generatedAccountNumber random2;
       Auth.isVerified := true |}.
  split; [reflexivity|]. split; [reflexivity|]. split; [reflexivity|].
  split; [reflexivity|].
  apply existsb_find_None in Fi, Fe, Fp.
  split; [|split; [reflexivity|split; [reflexivity|]]].
  - rewrite (find_app_None _ _ _ Fi). cbn. now rewrite String.eqb_refl.
  - split; [|split; [|split]].
    + intros later. unfold Auth.login, Auth.findByEmail. rewrite Ee. cbn [negb].
      rewrite (find_app_None _ _ _ Fe). cbn. rewrite String.eqb_refl.
      unfold Auth.signIn, Auth.comparePassword. cbn. now rewrite Ok.
    + intros later. unfold Auth.loginPhone, Auth.findByPhone.
      apply falsy_string_false in Nph. rewrite Nph.
      rewrite (find_app_None _ _ _ Fp). cbn. rewrite String.eqb_refl.
      unfold Auth.signIn, Auth.comparePassword. cbn. now rewrite Ok.
    + intros later wrong W. unfold Auth.login, Auth.findByEmail.
      rewrite Ee. cbn [negb].
      rewrite (find_app_None _ _ _ Fe). cbn. rewrite String.eqb_refl.
      unfold Auth.signIn, Auth.comparePassword. cbn. now rewrite W.
    + intros later t Nt V. apply falsy_string_false in Nt.
      unfold Auth.me, Auth.authenticate, falsy. rewrite Nt. cbn. rewrite V.
      rewrite (find_app_None _ _ _ Fi). cbn. now rewrite String.eqb_refl.
Qed.

End auth.

(** Chidi registers, then logs in. *)
Lemma registered_user_can_log_in_scenario :
  let db :=
    Auth.reached (H := Sample.bcrypt) (H0 := AuthFixtures.jwt)
      (H1 := AuthFixtures.validator) (H2 := AuthFixtures.strings)
      [AuthFixtures.registration] in
  Auth.login (H := Sample.bcrypt) (H0 := AuthFixtures.jwt)
    (H1 := AuthFixtures.validator) (Some "chidi@example.com")
    (Some "s3cret-pass") 1700000500 db
  = Auth.loggedIn "jwt.650000000000000000000d01.1700000500"
      "650000000000000000000d01" "chidi@example.com" "Chidi" "Okafor"
  ∧ Auth.cecureTag <$> (snd <$> head db) = Some "@chidiokafor417"
  ∧ Auth.accountNumber <$> (snd <$> head db) = Some "40000000".
Proof.
  intros db. split; [|split; vm_compute; reflexivity].
  destruct (registered_user_can_log_in (H := Sample.bcrypt)
              (H0 := AuthFixtures.jwt) (H1 := AuthFixtures.validator)
              (H2 := AuthFixtures.strings)
              (Some "Chidi") (Some "Okafor") (Some "chidi@example.com")
              (Some "s3cret-pass") (Some "+2348012345678") "saltsaltsalt"
              (Binary64.round64 (417 # 1000)) (Binary64.round64 (1 # 3))
              "650000000000000000000d01" 1700000000 []
              "jwt.650000000000000000000d01.1700000000" db)
    as (f & l & e & p & a & [= <-] & [= <-] & [= <-] & _ & _ & _ & _ & L & _).
  - apply Sample_bcrypt_accepts.
  - vm_compute. reflexivity.
  - exact (L 1700000500%Z).
Defined.

(** ** Unique identifiers *)

Lemma existsb_not_in {A} (field : A → string) (v : string) (l : list A) :
  existsb (λ x, String.eqb (field x) v) l = false → v ∉ map field l.
Proof.
  induction l as [|x l IH]; simpl; intros E Hin.
  - inversion Hin.
  - apply orb_false_iff in E as [Ex El].
    apply elem_of_cons in Hin as [->|Hin].
    + now rewrite String.eqb_refl in Ex.
    + now apply IH.
Qed.

Lemma distinct_snoc field (db : Auth.accounts) ka :
  Auth.distinct field db → field ka ∉ map field db →
  Auth.distinct field (db ++ [ka])%list.
Proof.
  unfold Auth.distinct. intros D N. rewrite map_app. simpl.
  apply NoDup_app. split; [exact D|]. split.
  - intros x Hx Hin. apply list_elem_of_singleton in Hin. now subst.
  - apply NoDup_singleton.
Qed.

Section identifiers.
Context `{Bcrypt} `{Jwt} `{Validator} `{StringPrototype}.

Lemma register_identified firstName lastName email password phoneNumber salt
    random1 random2 newId now db :
  Auth.identified db →
  Auth.identified
    (snd (Auth.register firstName lastName email password phoneNumber salt
            random1 random2 newId now db)).
Proof.
  intros I.
  destruct (Auth.register firstName lastName email password phoneNumber salt
              random1 random2 newId now db) as [reply db'] eqn:E.
  destruct reply as [|status message|token| |];
    try (unfold Auth.register, Auth.create in E;
         repeat case_match; simplify_eq; exact I).
  apply register_registered in E
    as (f & l & e & p & ph & _ & _ & _ & _ & _ & _ & _ & _ & Fi & Fe & Fp & Ft
        & Fa & ->).
  destruct I as (Ii & Ie & Ip & It & Ia). cbn [snd].
  repeat split; apply distinct_snoc; try done.
  - now apply (existsb_not_in (λ ka : string * Auth.Account, ka.1)).
  - now apply (existsb_not_in (λ ka : string * Auth.Account, Auth.email ka.2)).
  - now apply (existsb_not_in
                 (λ ka : string * Auth.Account, Auth.phoneNumber ka.2)).
  - now apply (existsb_not_in
                 (λ ka : string * Auth.Account, Auth.cecureTag ka.2)).
  - now apply (existsb_not_in
                 (λ ka : string * Auth.Account, Auth.accountNumber ka.2)).
Qed.

(** X20: no two accounts share an identifier.  Whatever sequence of
    registrations is served from the empty collection, the stored accounts
    have pairwise distinct ids, emails, phone numbers, tags and account
    numbers; and a registration whose email or phone number is already held
    is refused with 400 and stores nothing. *)
Theorem accounts_never_share_an_identifier :
  (∀ rs,
     let db := Auth.reached rs in
     Auth.distinct fst db
     ∧ Auth.distinct (λ ka, Auth.email ka.2) db
     ∧ Auth.distinct (λ ka, Auth.phoneNumber ka.2) db
     ∧ Auth.distinct (λ ka, Auth.cecureTag ka.2) db
     ∧ Auth.distinct (λ ka, Auth.accountNumber ka.2) db)
  ∧ (∀ firstName lastName email password phoneNumber salt random1 random2
       newId now db held,
       held ∈ db →
       Some (Auth.email held.2) = email
       ∨ Some (Auth.phoneNumber held.2) = phoneNumber →
       snd (Auth.register firstName lastName email password phoneNumber salt
              random1 random2 newId now db) = db
       ∧ ∃ message,
           fst (Auth.register firstName lastName email password phoneNumber
                  salt random1 random2 newId now db)
           = Auth.validationError
           ∨ fst (Auth.register firstName lastName email password phoneNumber
                    salt random1 random2 newId now db)
             = Auth.failure 400 message).
Proof.
  split.
  - intros rs db. subst db. unfold Auth.reached.
    assert (G : ∀ db, Auth.identified db →
              Auth.identified
                (foldl (λ db r,
                          snd (Auth.register (Auth.r_firstName r)
                                 (Auth.r_lastName r) (Auth.r_email r)
                                 (Auth.r_password r) (Auth.r_phoneNumber r)
                                 (Auth.r_salt r) (Auth.r_random1 r)
                                 (Auth.r_random2 r) (Auth.r_newId r)
                                 (Auth.r_now r) db)) db rs)).
    { induction rs as [|r rs IH]; intros db I; [exact I|].
      simpl. apply IH. now apply register_identified. }
    apply G. repeat split; apply NoDup_nil_2.
  - intros firstName lastName email password phoneNumber salt random1 random2
      newId now db held Hin Hheld.
    unfold Auth.register.
    destruct firstName as [f|], lastName as [l|], email as [e|],
      password as [p|], phoneNumber as [ph|];
      try (split; [reflexivity|exists ""; now left]).
    destruct (_ || _); [split; [reflexivity|exists ""; now left]|].
    destruct (Auth.findByEmail e db) as [x|] eqn:Fe;
      [split; [reflexivity|eexists; now right]|].
    destruct (Auth.findByPhone ph db) as [x|] eqn:Fp;
      [split; [reflexivity|eexists; now right]|].
    exfalso. unfold Auth.findByEmail in Fe. unfold Auth.findByPhone in Fp.
    destruct Hheld as [[= <-]|[= <-]].
    + assert (G : ∀ l : Auth.accounts, held ∈ l →
                List.find (λ ka, String.eqb (Auth.email ka.2)
                                   (Auth.email held.2)) l ≠ None).
      { induction l0 as [|y l0 IH]; intros Hl; [inversion Hl|]. simpl.
        apply elem_of_cons in Hl as [<-|Hl].
        - now rewrite String.eqb_refl.
        - destruct (String.eqb _ _); [done|now apply IH]. }
      now apply (G db).
    + assert (G : ∀ l : Auth.accounts, held ∈ l →
                List.find (λ ka, String.eqb (Auth.phoneNumber ka.2)
                                   (Auth.phoneNumber held.2)) l ≠ None).
      { induction l0 as [|y l0 IH]; intros Hl; [inversion Hl|]. simpl.
        apply elem_of_cons in Hl as [<-|Hl].
        - now rewrite String.eqb_refl.
        - destruct (String.eqb _ _); [done|now apply IH]. }
      now apply (G db).
Qed.

End identifiers.

(** Two registrations with the same email: the second is refused. *)
Lemma accounts_never_share_an_identifier_scenario :
  let db :=
    Auth.reached (H := Sample.bcrypt) (H0 := AuthFixtures.jwt)
      (H1 := AuthFixtures.validator) (H2 := AuthFixtures.strings)
      [AuthFixtures.registration; AuthFixtures.registration] in
  List.length db = 1%nat
  ∧ Auth.distinct (λ ka, Auth.email ka.2) db.
Proof.
  intros db. split; [vm_compute; reflexivity|].
  destruct (accounts_never_share_an_identifier (H := Sample.bcrypt)
              (H0 := AuthFixtures.jwt) (H1 := AuthFixtures.validator)
              (H2 := AuthFixtures.strings))
    as (D & _).
  apply (D [AuthFixtures.registration; AuthFixtures.registration]).
Defined.

(** ** Generated identifiers *)

Lemma pretty_N_go_length (k : nat) :
  ∀ x s, (10 ^ N.of_nat k ≤ x < 10 ^ N.of_nat (S k))%N →
    String.length (pretty_N_go x s) = (String.length s + S k)%nat.
Proof.
  induction k as [|k IH]; intros x s [L U].
  - change (10 ^ N.of_nat 0)%N with 1%N in L.
    change (10 ^ N.of_nat 1)%N with 10%N in U.
    rewrite pretty_N_go_step by lia.
    rewrite (N.div_small x 10) by lia. rewrite pretty_N_go_0. simpl. lia.
  - rewrite pretty_N_go_step
      by (pose proof (N.pow_nonzero 10 (N.of_nat (S k))); lia).
    rewrite IH.
    + simpl. lia.
    + rewrite !Nat2N.inj_succ, !N.pow_succ_r' in *. split.
      * apply N.div_le_lower_bound; lia.
      * apply N.Div0.div_lt_upper_bound; lia.
Qed.

Lemma pretty_Z_length (k : nat) (n : Z) :
  (10 ^ Z.of_nat k ≤ n < 10 ^ Z.of_nat (S k))%Z →
  String.length (pretty n) = S k.
Proof.
  intros [L U].
  assert (P : (0 < n)%Z) by (pose proof (Z.pow_pos_nonneg 10 (Z.of_nat k)); lia).
  destruct n as [|p|p]; try lia.
  unfold pretty, pretty_Z, pretty, pretty_positive, pretty, pretty_N.
  rewrite decide_False by done.
  rewrite (pretty_N_go_length k); [reflexivity|].
  assert (E : ∀ j, Z.of_N (10 ^ N.of_nat j) = (10 ^ Z.of_nat j)%Z).
  { intros j. rewrite N2Z.inj_pow. now rewrite nat_N_Z. }
  split.
  - apply N2Z.inj_le. now rewrite E.
  - apply N2Z.inj_lt. now rewrite E.
Qed.

(** The whole part of a rounded product or sum stays within the bounds of
    its operands: rounding is monotone and keeps the whole numbers. *)
Lemma Qfloor_round64_between (lo hi : Z) (x top : Q) :
  (inject_Z lo <= x)%Q → (x <= top)%Q →
  (Z.abs lo ≤ 2 ^ 53)%Z →
  Qfloor (Binary64.round64 top) = hi →
  (lo ≤ Qfloor (Binary64.round64 x) ≤ hi)%Z.
Proof.
  intros L U Rl <-. split.
  - rewrite <- (Qfloor_Z lo). apply Qfloor_resp_le.
    rewrite <- (round64_Z lo Rl). now apply round64_mono.
  - apply Qfloor_resp_le. now apply round64_mono.
Qed.

(** X21: the identifiers the user schema generates.  For a draw of
    [Math.random()], a binary64 number at least 0 and below 1, the generated
    account number is the decimal writing of a whole number from 10000000 to
    99999999, of exactly eight characters, and the generated tag is an at
    sign, the first and last names in lower case and the decimal writing of
    a whole number from 0 to 999; the products and the sum are the rounded
    ones of binary64. *)
Theorem generated_identifiers `{StringPrototype} firstName lastName random :
  (0 <= random)%Q → (random < 1)%Q →
  (Binary64.round64 random == random)%Q →
  (∃ n, (10000000 ≤ n ≤ 99999999)%Z
        ∧ Auth.generatedAccountNumber random = pretty n
        ∧ String.length (Auth.generatedAccountNumber random) = 8%nat)
  ∧ (∃ k, (0 ≤ k ≤ 999)%Z
          ∧ Auth.generatedTag firstName lastName random
            = "@" +:+ toLowerCase firstName +:+ toLowerCase lastName
              +:+ pretty k).
Proof.
  intros L U R.
  pose proof (binary64_below_one random R U) as T.
  set (top := (1 - 2 ^ (-53))%Q) in T.
  split.
  - set (product := Binary64.round64 (random * 90000000)).
    assert (P : (0 <= product)%Q
                ∧ (product <= Binary64.round64 (top * 90000000))%Q).
    { split.
      - apply round64_nonneg. apply Qmult_le_0_compat; [exact L|discriminate].
      - apply round64_mono. apply Qmult_le_compat_r; [exact T|discriminate]. }
    exists (Qfloor (Binary64.add 10000000 product)).
    assert (B : (10000000
                 ≤ Qfloor (Binary64.round64 (10000000 + product))
                 ≤ 99999999)%Z).
    { apply (Qfloor_round64_between _ _ _
               (10000000 + Binary64.round64 (top * 90000000))).
      - change (inject_Z 10000000) with 10000000%Q. lra.
      - lra.
      - now vm_compute.
      - now vm_compute. }
    split; [exact B|]. split; [reflexivity|].
    unfold Auth.generatedAccountNumber. apply (pretty_Z_length 7).
    change (10 ^ Z.of_nat 7)%Z with 10000000%Z.
    change (10 ^ Z.of_nat 8)%Z with 100000000%Z.
    unfold Binary64.add. fold product. lia.
  - exists (Qfloor (Binary64.round64 (random * 1000))). split; [|reflexivity].
    apply (Qfloor_round64_between _ _ _ (top * 1000)).
    + change (inject_Z 0) with 0%Q.
      apply Qmult_le_0_compat; [exact L|discriminate].
    + apply Qmult_le_compat_r; [exact T|discriminate].
    + now vm_compute.
    + now vm_compute.
Qed.

(** The draw 0.57: its product with 90000000 is rounded below 51300000, and
    the account number is 61299999. *)
Lemma generated_identifiers_scenario :
  let random := Binary64.round64 (57 # 100) in
  ((∃ n, (10000000 ≤ n ≤ 99999999)%Z
         ∧ Auth.generatedAccountNumber random = pretty n
         ∧ String.length (Auth.generatedAccountNumber random) = 8%nat)
   ∧ (∃ k, (0 ≤ k ≤ 999)%Z
           ∧ Auth.generatedTag (H := AuthFixtures.strings) "Ada" "Obi" random
             = "@" +:+ "ada" +:+ "obi" +:+ pretty k))
  ∧ Auth.generatedAccountNumber random = "61299999"
  ∧ Auth.generatedTag (H := AuthFixtures.strings) "Ada" "Obi" random
    = "@adaobi570".
Proof.
  intros random. split; [|split; vm_compute; reflexivity].
  apply (generated_identifiers (H := AuthFixtures.strings) "Ada" "Obi" random).
  - vm_compute. discriminate.
  - vm_compute. reflexivity.
  - vm_compute. reflexivity.
Defined.

(** ** Initialize *)

Lemma get_assign_eq k v members :
  JSON.get k (JSON.JObject (Initialize.assign k v members)) = Some v.
Proof.
  unfold JSON.get. induction members as [|[k' v'] r IH]; simpl.
  - now rewrite String.eqb_refl.
  - destruct (String.eqb k' k) eqn:E; simpl; rewrite E; [reflexivity|exact IH].
Qed.

Lemma get_assign_ne k k' v members :
  k' ≠ k →
  JSON.get k' (JSON.JObject (Initialize.assign k v members))
  = JSON.get k' (JSON.JObject members).
Proof.
  intros N. unfold JSON.get. induction members as [|[j x] r IH]; simpl.
  - assert (E : String.eqb k k' = false) by (apply String.eqb_neq; congruence).
    now rewrite E.
  - destruct (String.eqb j k) eqn:E; simpl.
    + apply String.eqb_eq in E. subst j.
      assert (E : String.eqb k k' = false)
        by (apply String.eqb_neq; congruence).
      now rewrite E.
    + destruct (String.eqb j k'); [reflexivity|exact IH].
Qed.

(** X22: the payment the route initializes is always tagged with the
    caller.  Whatever metadata the client sends, the metadata posted to the
    provider carries the authenticated user's id under [userId], every other
    property of the client's metadata being kept; so the answer of the route
    depends on the provider only through requests tagged with the caller's
    id.  A missing, zero or negative amount and a missing email are refused
    with 400 before the provider is asked. *)
Theorem initialize_tags_the_payment_with_the_caller uid amount email metadata
    API_BASE_URL :
  (∀ a e,
     let d := Initialize.paymentData uid a e metadata API_BASE_URL in
     JSON.get "userId" (Initialize.metadata d) = Some (JSON.JString uid)
     ∧ (∀ k, k ≠ "userId" →
          JSON.get k (Initialize.metadata d)
          = JSON.get k
              (JSON.JObject
                 (Initialize.spread (default (JSON.JObject []) metadata))))
     ∧ Initialize.amount d = a ∧ Initialize.email d = e)
  ∧ (∀ paystack1 paystack2,
       (∀ d, JSON.get "userId" (Initialize.metadata d)
             = Some (JSON.JString uid) →
             paystack1 d = paystack2 d) →
       Initialize.initialize uid amount email metadata API_BASE_URL paystack1
       = Initialize.initialize uid amount email metadata API_BASE_URL
           paystack2)
  ∧ (∀ paystack,
       (∀ a, amount = Some a → (a <= 0)%Q) →
       Initialize.initialize uid amount email metadata API_BASE_URL paystack
       = inl (res_json 400 "Valid amount is required"))
  ∧ (∀ paystack a,
       amount = Some a → (0 < a)%Q → falsy email = true →
       Initialize.initialize uid amount email metadata API_BASE_URL paystack
       = inl (res_json 400 "Email is required")).
Proof.
  split; [|split; [|split]].
  - intros a e d. subst d. unfold Initialize.paymentData.
    cbn [Initialize.metadata Initialize.amount Initialize.email].
    split; [apply get_assign_eq|]. split; [|split; reflexivity].
    intros k N. now apply get_assign_ne.
  - intros p1 p2 Hp. unfold Initialize.initialize.
    destruct amount as [a|]; [|reflexivity].
    destruct (_ || _); [reflexivity|].
    destruct (falsy email); [reflexivity|].
    rewrite Hp; [reflexivity|].
    unfold Initialize.paymentData. cbn [Initialize.metadata].
    apply get_assign_eq.
  - intros paystack Ha. unfold Initialize.initialize.
    destruct amount as [a|]; [|reflexivity].
    specialize (Ha a eq_refl). apply Qle_bool_iff in Ha.
    now rewrite Ha, orb_true_r.
  - intros paystack a -> La Fe. unfold Initialize.initialize.
    now rewrite (positive_truthy _ La), Fe.
Qed.

(** A client that sends another user's id in the metadata. *)
Lemma initialize_tags_the_payment_with_the_caller_scenario :
  let metadata :=
    JSON.JObject [("userId", JSON.JString Sample.B);
                  ("plan", JSON.JString "gold")] in
  let d :=
    Initialize.paymentData Sample.A 5000 "ada@example.com" (Some metadata)
      "https://api.example.com" in
  JSON.get "userId" (Initialize.metadata d) = Some (JSON.JString Sample.A)
  ∧ JSON.get "plan" (Initialize.metadata d) = Some (JSON.JString "gold")
  ∧ Initialize.callback_url d = "https://api.example.com/api/payments/callback".
Proof.
  intros metadata d.
  destruct (initialize_tags_the_payment_with_the_caller Sample.A
              (Some 5000%Q) (Some "ada@example.com") (Some metadata)
              "https://api.example.com") as (P & _).
  destruct (P 5000%Q "ada@example.com") as (U & K & _).
  split; [exact U|]. split; [|reflexivity].
  rewrite K; [reflexivity|discriminate].
Defined.

(** ** Search *)

Lemma elem_of_insertByDate x d l :
  x ∈ Search.insertByDate d l ↔ x = d ∨ x ∈ l.
Proof.
  induction l as [|y l IH]; simpl.
  - rewrite list_elem_of_singleton. split; [auto|]. intros [?|E]; [done|].
    inversion E.
  - destruct (_ <=? _)%Z.
    + now rewrite elem_of_cons.
    + rewrite !elem_of_cons, IH. tauto.
Qed.

Lemma elem_of_sortLatestFirst x l : x ∈ Search.sortLatestFirst l ↔ x ∈ l.
Proof.
  unfold Search.sortLatestFirst. induction l as [|y l IH]; simpl; [done|].
  rewrite elem_of_insertByDate, elem_of_cons, IH. tauto.
Qed.

Lemma insertByDate_sorted d l :
  Sorted Search.latestFirst l → Sorted Search.latestFirst (Search.insertByDate d l).
Proof.
  induction l as [|x l IH]; intros S; simpl.
  - repeat constructor.
  - destruct (Search.createdAt x <=? Search.createdAt d)%Z eqn:E.
    + constructor; [exact S|]. constructor. unfold Search.latestFirst. lia.
    + apply Sorted_inv in S as [S Hd]. constructor; [now apply IH|].
      destruct l as [|y l]; simpl.
      * constructor. unfold Search.latestFirst. lia.
      * destruct (Search.createdAt y <=? Search.createdAt d)%Z.
        -- constructor. unfold Search.latestFirst. lia.
        -- constructor. now apply HdRel_inv in Hd.
Qed.

Lemma sortLatestFirst_sorted l : Sorted Search.latestFirst (Search.sortLatestFirst l).
Proof.
  unfold Search.sortLatestFirst. induction l as [|x l IH]; simpl.
  - constructor.
  - now apply insertByDate_sorted.
Qed.

Lemma elem_of_filter_bool {A} (p : A → bool) (l : list A) x :
  x ∈ List.filter p l ↔ x ∈ l ∧ p x = true.
Proof. rewrite !list_elem_of_In. apply List.filter_In. Qed.

Section search.
Context `{Regex}.

(** What an answered search holds. *)
Lemma search_answer uid q clock docs results :
  Search.search uid q clock docs = inr results →
  ∃ m, Sorted Search.latestFirst results
       ∧ (Search.query q = None → m = None)
       ∧ ∀ d, d ∈ results
              ↔ d ∈ docs
                ∧ Search.selects m (Search.filterOf uid q clock) d = true.
Proof.
  unfold Search.search. intros E.
  destruct (Search.or_regex _) as [pattern|] eqn:Eo.
  - destruct (regex_i pattern) as [m|]; [|discriminate].
    injection E as <-. exists (Some m).
    split; [apply sortLatestFirst_sorted|]. split.
    + intros Eq. cbn in Eo. now rewrite Eq in Eo.
    + intros d. now rewrite elem_of_sortLatestFirst, elem_of_filter_bool.
  - injection E as <-. exists None.
    split; [apply sortLatestFirst_sorted|]. split; [done|].
    intros d. now rewrite elem_of_sortLatestFirst, elem_of_filter_bool.
Qed.

(** X23: a search answers with records of the caller only, latest first.
    Every record in the answer is one of the stored records, belongs to the
    caller and satisfies the type filter when one is given; the answer is
    ordered by creation date, latest first; and a search without any
    criterion answers with all the records of the caller. *)
Theorem search_answers_with_the_callers_records uid q clock docs results :
  Search.search uid q clock docs = inr results →
  Sorted Search.latestFirst results
  ∧ (∀ d, d ∈ results →
       d ∈ docs
       ∧ Transaction.userId (Search.record d) = uid
       ∧ (∀ t, Search.type q = Some t → t ≠ "" → t ≠ "all" →
            Search.kind_name (Transaction.transactionType (Search.record d))
            = t))
  ∧ (Search.query q = None → Search.type q = None →
     Search.dateRange q = None → Search.amountRange q = None →
     ∀ d, d ∈ docs → Transaction.userId (Search.record d) = uid →
          d ∈ results).
Proof.
  intros E. apply search_answer in E as (m & S & M & R).
  split; [exact S|]. split.
  - intros d Hd. apply R in Hd as [Hd Sel]. split; [exact Hd|].
    unfold Search.selects in Sel.
    repeat (apply andb_true_iff in Sel as [Sel ?]).
    apply String.eqb_eq in Sel. split; [exact Sel|].
    intros t Et Nt Na. cbn in *.
    unfold Search.given, falsy, Search.equals in *. rewrite Et in *.
    apply falsy_string_false in Nt. apply String.eqb_neq in Na.
    rewrite Nt, Na in *. cbn in *. now apply String.eqb_eq.
  - intros Eq Et Ed Ea d Hd Eu. apply R. split; [exact Hd|].
    rewrite (M Eq). unfold Search.selects. cbn. rewrite Et, Ed, Ea. cbn.
    now rewrite Eu, String.eqb_refl.
Qed.

End search.

(** [A] searches without criteria: its three records, latest first. *)
Lemma search_answers_with_the_callers_records_scenario :
  let results :=
    [SearchFixtures.doc "PAY-4" Sample.A 7500 1700000400;
     SearchFixtures.doc "PAY-3" Sample.A 1000 1700000300;
     SearchFixtures.doc "PAY-1" Sample.A 250 1700000100] in
  Search.search (H := SearchFixtures.regex) Sample.A (Search.byAmount None)
    SearchFixtures.clock SearchFixtures.docs = inr results
  ∧ Sorted Search.latestFirst results.
Proof.
  intros results.
  assert (E : Search.search (H := SearchFixtures.regex) Sample.A
                (Search.byAmount None) SearchFixtures.clock SearchFixtures.docs
              = inr results) by (vm_compute; reflexivity).
  split; [exact E|].
  exact (proj1 (search_answers_with_the_callers_records
                  (H := SearchFixtures.regex) Sample.A (Search.byAmount None)
                  SearchFixtures.clock SearchFixtures.docs results E)).
Defined.

Section ranges.
Context `{Regex}.

Lemma search_byAmount uid range clock docs :
  Search.search uid (Search.byAmount range) clock docs
  = inr (Search.sortLatestFirst
           (List.filter
              (Search.selects None
                 (Search.filterOf uid (Search.byAmount range) clock)) docs)).
Proof. reflexivity. Qed.

(** X24: the amount ranges of the search partition the caller's records.
    A stored record of the caller is answered by the search for small
    amounts exactly when its amount is below 1000, for medium amounts exactly
    when it is at least 1000 and below 5000, and for large amounts exactly
    when it is at least 5000: by one of the three and one only.  A range
    the route does not know filters nothing. *)
Theorem search_amount_ranges_partition uid clock docs d :
  d ∈ docs →
  Transaction.userId (Search.record d) = uid →
  let amount := Transaction.amount (Search.record d) in
  let found range :=
    ∃ results,
      Search.search uid (Search.byAmount (Some range)) clock docs = inr results
      ∧ d ∈ results in
  (found "small" ↔ (amount < 1000)%Q)
  ∧ (found "medium" ↔ (1000 <= amount)%Q ∧ (amount < 5000)%Q)
  ∧ (found "large" ↔ (5000 <= amount)%Q)
  ∧ (found "small" ∨ found "medium" ∨ found "large")
  ∧ ¬ (found "small" ∧ found "medium")
  ∧ ¬ (found "small" ∧ found "large")
  ∧ ¬ (found "medium" ∧ found "large")
  ∧ (∀ range, range ≠ "small" → range ≠ "medium" → range ≠ "large" →
       found range).
Proof.
  intros Hd Eu amount found.
  assert (F : ∀ range,
            found range
            ↔ Search.selects None
                (Search.filterOf uid (Search.byAmount (Some range)) clock) d
              = true).
  { intros range. subst found. cbn beta. rewrite search_byAmount. split.
    - intros (results & [= <-] & Hin).
      apply elem_of_sortLatestFirst, elem_of_filter_bool in Hin. tauto.
    - intros S. eexists. split; [reflexivity|].
      apply elem_of_sortLatestFirst, elem_of_filter_bool. now split. }
  assert (Es : found "small" ↔ (amount < 1000)%Q).
  { rewrite F. unfold Search.selects. cbn. rewrite Eu, String.eqb_refl. cbn.
    apply Qlt_bool_true. }
  assert (Em : found "medium" ↔ (1000 <= amount)%Q ∧ (amount < 5000)%Q).
  { rewrite F. unfold Search.selects. cbn. rewrite Eu, String.eqb_refl. cbn.
    rewrite andb_true_iff, Qlt_bool_true, Qle_bool_iff. tauto. }
  assert (El : found "large" ↔ (5000 <= amount)%Q).
  { rewrite F. unfold Search.selects. cbn. rewrite Eu, String.eqb_refl. cbn.
    rewrite andb_true_r. apply Qle_bool_iff. }
  split; [exact Es|]. split; [exact Em|]. split; [exact El|].
  split; [|split; [|split; [|split]]].
  - rewrite Es, Em, El.
    destruct (Qlt_le_dec amount 1000) as [L|L]; [now left|].
    destruct (Qlt_le_dec amount 5000) as [L'|L']; [right; now left|].
    right. now right.
  - rewrite Es, Em. intros [L [L' _]]. exact (Qlt_not_le _ _ L L').
  - rewrite Es, El. intros [L L']. apply (Qlt_not_le _ _ L).
    apply (Qle_trans _ 5000); [discriminate|exact L'].
  - rewrite Em, El. intros [[_ L] L']. exact (Qlt_not_le _ _ L L').
  - intros range Ns Nm Nl. rewrite F. unfold Search.selects.
    cbn [Search.filterOf Search.byAmount Search.amountRange Search.query
         Search.type Search.dateRange Search.userId Search.or_regex
         Search.transactionType Search.createdAt_gte Search.amount_gte
         Search.amount_lt Search.given falsy Search.equals].
    apply String.eqb_neq in Ns, Nm, Nl. rewrite Ns, Nm, Nl.
    cbn. rewrite Eu, String.eqb_refl.
    now destruct (Search.given (Some range)).
Qed.

End ranges.

(** The record PAY-3 of 1000: a medium amount. *)
Lemma search_amount_ranges_partition_scenario :
  let d := SearchFixtures.doc "PAY-3" Sample.A 1000 1700000300 in
  (∃ results,
     Search.search (H := SearchFixtures.regex) Sample.A
       (Search.byAmount (Some "medium")) SearchFixtures.clock
       SearchFixtures.docs = inr results
     ∧ d ∈ results)
  ∧ ¬ (∃ results,
         Search.search (H := SearchFixtures.regex) Sample.A
           (Search.byAmount (Some "small")) SearchFixtures.clock
           SearchFixtures.docs = inr results
         ∧ d ∈ results).
Proof.
  intros d.
  destruct (search_amount_ranges_partition (H := SearchFixtures.regex)
              Sample.A SearchFixtures.clock SearchFixtures.docs d)
    as (Es & Em & _).
  - vm_compute. do 2 apply list_elem_of_further. apply list_elem_of_here.
  - reflexivity.
  - split.
    + apply Em. split; [discriminate|reflexivity].
    + intros S. apply Es in S. discriminate S.
Defined.
